(** * CB-AuthorPort: the book catalogue logic, embedded and verified

    The development follows the two modules of the site that carry logic:

    - [src/modules/navigation.js] (class [BooksPageManager]): the ingest
      step [filterBooks] with [isExcludedTitle], the search heuristic
      [fuzzySearch] and the subject classifier [categorizeGenre];
    - the API service ([apiService.js]): the merge [enhanceBookData], the
      orchestration [fetchDetailedJKRowlingBooks] and the description
      resolver [generateBookDescription] with [getFallbackDescription].

    Modelling conventions.

    - A JavaScript string is a [string] of code units below 256.  On
      these [toLowerCase] is the host's, unit by unit: [A-Z] and the
      capitals U+00C0 to U+00DE (but the sign U+00D7) go 32 up, every
      other unit stays.  White space is what [String.prototype.trim]
      removes and the class [\s] matches among these units: TAB, LF, VT,
      FF, CR, SPACE and the no-break space U+00A0.  [toUpperCase] is the
      reverse map; the capitals of U+00B5, U+00DF and U+00FF are no code
      units below 256, and the model keeps these three as they are.
      Statements about lengths are made on the strings the code
      measures (the lower-cased query, the normalized title).
    - A JavaScript number is an integer ([Z]); the one quotient the code
      computes (in [fuzzySearch]) is compared exactly, see there.  The
      conversion of a text to a number and the collation of the host
      are parameters.
    - A thrown exception is the [Throw] result of the [Completion] monad;
      [try]/[catch] is [try_catch].
    - What the network answers is a parameter of the functions that fetch. *)

From Stdlib Require Import Bool Arith ZArith Lia List Ascii String.
From Stdlib Require Import Sorted Permutation.
Import ListNotations.

Local Open Scope string_scope.
Local Open Scope list_scope.
Local Open Scope nat_scope.

(* ================================================================== *)
(** * String primitives of the host language *)
(* ================================================================== *)

Module JsString.

Definition is_upper (c : ascii) : bool :=
  let n := nat_of_ascii c in (65 <=? n) && (n <=? 90).

Definition is_lower (c : ascii) : bool :=
  let n := nat_of_ascii c in (97 <=? n) && (n <=? 122).

Definition is_digit (c : ascii) : bool :=
  let n := nat_of_ascii c in (48 <=? n) && (n <=? 57).

(** White space in the sense of [trim] and of the regular expression
    class [\s]: TAB to CR, SPACE and the no-break space. *)
Definition is_space (c : ascii) : bool :=
  let n := nat_of_ascii c in
  ((9 <=? n) && (n <=? 13)) || (n =? 32) || (n =? 160).

(** The capitals U+00C0 to U+00DE, without the multiplication sign. *)
Definition is_upper_latin (c : ascii) : bool :=
  let n := nat_of_ascii c in (192 <=? n) && (n <=? 222) && negb (n =? 215).

(** The small letters U+00E0 to U+00FE, without the division sign. *)
Definition is_lower_latin (c : ascii) : bool :=
  let n := nat_of_ascii c in (224 <=? n) && (n <=? 254) && negb (n =? 247).

(** The lower-case mapping of one code unit. *)
Definition lower_char (c : ascii) : ascii :=
  if is_upper c || is_upper_latin c
  then ascii_of_nat (nat_of_ascii c + 32) else c.

(** The upper-case mapping of one code unit. *)
Definition upper_char (c : ascii) : ascii :=
  if is_lower c || is_lower_latin c
  then ascii_of_nat (nat_of_ascii c - 32) else c.

(** [s.toLowerCase()] *)
Fixpoint toLowerCase (s : string) : string :=
  match s with
  | EmptyString => EmptyString
  | String c r => String (lower_char c) (toLowerCase r)
  end.

(** [s.toUpperCase()] *)
Fixpoint toUpperCase (s : string) : string :=
  match s with
  | EmptyString => EmptyString
  | String c r => String (upper_char c) (toUpperCase r)
  end.

Fixpoint trimStart (s : string) : string :=
  match s with
  | EmptyString => EmptyString
  | String c r => if is_space c then trimStart r else s
  end.

Fixpoint trimEnd (s : string) : string :=
  match s with
  | EmptyString => EmptyString
  | String c r =>
      match trimEnd r with
      | EmptyString => if is_space c then EmptyString else String c EmptyString
      | r' => String c r'
      end
  end.

(** [s.trim()] *)
Definition trim (s : string) : string := trimEnd (trimStart s).

(** [text.startsWith(pat)] *)
Fixpoint startsWith (text pat : string) : bool :=
  match pat, text with
  | EmptyString, _ => true
  | String _ _, EmptyString => false
  | String p pr, String t tr => Ascii.eqb p t && startsWith tr pr
  end.

(** [text.includes(pat)] *)
Fixpoint includes (text pat : string) : bool :=
  startsWith text pat ||
  match text with
  | EmptyString => false
  | String _ r => includes r pat
  end.

(** [s.charAt(0)], the empty string when there is no such position *)
Definition charAt0 (s : string) : string :=
  match s with
  | EmptyString => EmptyString
  | String c _ => String c EmptyString
  end.

(** [s.slice(1)] *)
Definition slice1 (s : string) : string :=
  match s with
  | EmptyString => EmptyString
  | String _ r => r
  end.

Fixpoint drop (n : nat) (s : string) : string :=
  match n, s with
  | O, _ => s
  | S _, EmptyString => EmptyString
  | S k, String _ r => drop k r
  end.

(** [s.split(sep)] for a separator that is not empty.  [fuel] bounds
    the number of code units looked at; [split] gives it the length of
    the subject.  [cur] is the piece being read, in reverse. *)
Fixpoint split_go (fuel : nat) (sep : string) (cur : list ascii) (s : string)
  : list string :=
  match fuel with
  | O => [string_of_list_ascii (rev cur)]
  | S f =>
      match s with
      | EmptyString => [string_of_list_ascii (rev cur)]
      | String c r =>
          if startsWith s sep
          then string_of_list_ascii (rev cur)
                 :: split_go f sep [] (drop (String.length sep) s)
          else split_go f sep (c :: cur) r
      end
  end.

Definition split (s sep : string) : list string :=
  split_go (S (String.length s)) sep [] s.

(** [parts.join(sep)] for an array of strings *)
Definition join (parts : list string) (sep : string) : string :=
  String.concat sep parts.

(** [s.replace(pat, by)] with a string pattern: the first occurrence *)
Fixpoint replaceFirst (s pat by_ : string) : string :=
  if startsWith s pat then (by_ ++ drop (String.length pat) s)%string
  else match s with
       | EmptyString => EmptyString
       | String c r => String c (replaceFirst r pat by_)
       end.

(** [s.replace(/\s+/g, ' ')]: every run of white space becomes one
    space.  [in_run] tells that the previous code unit was white. *)
Fixpoint collapseSpaces_go (in_run : bool) (s : string) : string :=
  match s with
  | EmptyString => EmptyString
  | String c r =>
      if is_space c
      then if in_run then collapseSpaces_go true r
           else String " " (collapseSpaces_go true r)
      else String c (collapseSpaces_go false r)
  end.

Definition collapseSpaces (s : string) : string := collapseSpaces_go false s.

(** [s.match(/^\d+/)] as a truth value *)
Definition startsWithDigit (s : string) : bool :=
  match s with
  | EmptyString => false
  | String c _ => is_digit c
  end.

(** The title key of the catalogue: [s.toLowerCase().trim()] *)
Definition normalizeTitle (s : string) : string := trim (toLowerCase s).

End JsString.

(* ================================================================== *)
(** * The book records the page works on *)
(* ================================================================== *)

Module Catalogue.

(** The book records of the page

    The fields the page reads, with the types of the catalogue data:
    a field is absent ([None], the [undefined] or [null] of the source)
    or has a value of its type.  The year is a number; the records
    whose year field holds the text of a date, as the merge can leave
    it, are those of [MergedIngest] below. *)
Record Book : Type := mkBook
  { title : option string;
    first_publish_year : option Z;
    key : option string;
    subject : option (list string);
    subtitle : option string }.

(** Truthiness of a string-valued field: present and not empty. *)
Definition truthy_string (v : option string) : bool :=
  match v with
  | Some s => negb (String.eqb s "")
  | None => false
  end.

(** Truthiness of a number-valued field: present and not zero. *)
Definition truthy_number (v : option Z) : bool :=
  match v with
  | Some z => negb (Z.eqb z 0)
  | None => false
  end.

End Catalogue.

(* ================================================================== *)
(** * The books page: [BooksPageManager] *)
(* ================================================================== *)

Module BooksPage.
Import JsString Catalogue.

(** ** [fuzzySearch] *)

(** The three counters of the scanning loop. *)
Record Scan : Type := mkScan
  { queryIndex : nat;
    textIndex : nat;
    matches : nat }.

(** The guard of the [while]. *)
Definition scan_guard (query text : string) (st : Scan) : bool :=
  (queryIndex st <? String.length query) && (textIndex st <? String.length text).

(** The body of the [while]: on equal code units count a hit and move
    in the query; move in the text in any case.  An index out of range
    reads [undefined], which the guard rules out. *)
Definition scan_body (query text : string) (st : Scan) : Scan :=
  match String.get (queryIndex st) query, String.get (textIndex st) text with
  | Some a, Some b =>
      if Ascii.eqb a b
      then mkScan (S (queryIndex st)) (S (textIndex st)) (S (matches st))
      else mkScan (queryIndex st) (S (textIndex st)) (matches st)
  | _, _ => mkScan (queryIndex st) (S (textIndex st)) (matches st)
  end.

(** The loop, at most [fuel] turns. *)
Fixpoint scan_loop (fuel : nat) (query text : string) (st : Scan) : Scan :=
  match fuel with
  | O => st
  | S f =>
      if scan_guard query text st
      then scan_loop f query text (scan_body query text st)
      else st
  end.

(** [matches / query.length >= 0.7].  The quotient of two lengths is
    below seven tenths exactly when its rounding to a double is below
    the double [0.7], for every length under 2^49, which is beyond what
    a string can hold: the test is the exact one. *)
Definition ratio_ok (hits len : nat) : bool := 7 * len <=? 10 * hits.

(** [fuzzySearch(query, text)].  The loop moves in the text at every
    turn, so the length of the text is fuel enough (lemma
    [scan_loop_exits]). *)
Definition fuzzySearch (query text : string) : bool :=
  match query, text with
  | EmptyString, _ => false
  | _, EmptyString => false
  | _, _ =>
      let query := toLowerCase query in
      let text := toLowerCase text in
      if includes text query then true
      else
        let st := scan_loop (String.length text) query text (mkScan 0 0 0) in
        ratio_ok (matches st) (String.length query)
  end.

(** [book.title] where the title is known to be a string: every use
    below comes after the test [book.title && ...] of [filterBooks]
    (lemma [kept_has_title]). *)
Definition titleText (b : Book) : string :=
  match title b with
  | Some s => s
  | None => ""
  end.

(** [book.first_publish_year || 0] *)
Definition yearOrZero (b : Book) : Z :=
  match first_publish_year b with
  | Some z => z
  | None => 0%Z
  end.

(** ** [isExcludedTitle] *)

Definition excludedTerms : list string :=
  [ "large print"; "audio book"; "audiobook"; "[microform]"; "braille";
    "box set"; "boxset"; "collection"; "complete series"; "complete set";
    "books 1-"; "books 1 "; "volumes 1-"; "hardcover box set";
    "paperback box set"; "gift set"; "omnibus"; "anthology"; "collector";
    "special edition set"; "deluxe edition set"; "library set";
    "school set"; "classroom set" ].

Definition isExcludedTitle (title : string) : bool :=
  existsb (fun term => includes title term) excludedTerms
  || (String.length title <=? 2).

(** ** [filterBooks] *)

(** [seenTitles.has(title)] *)
Definition seen_has (seenTitles : list string) (t : string) : bool :=
  existsb (String.eqb t) seenTitles.

(** The first [filter]: [book.title && book.first_publish_year]. *)
Definition has_title_and_year (b : Book) : bool :=
  truthy_string (title b) && truthy_number (first_publish_year b).

(** The second [filter], whose callback reads and grows [seenTitles]:
    the set is threaded through the traversal. *)
Fixpoint dedupe (seenTitles : list string) (books : list Book) : list Book :=
  match books with
  | [] => []
  | book :: rest =>
      let t := normalizeTitle (titleText book) in
      if seen_has seenTitles t then dedupe seenTitles rest
      else if isExcludedTitle t then dedupe (t :: seenTitles) rest
      else book :: dedupe (t :: seenTitles) rest
  end.

(** [Array.prototype.sort] with a comparison function: the sort is
    stable, and for a comparison that orders its arguments consistently
    the result is the one of the stable insertion below, whatever
    algorithm the engine runs.  [x] goes before the first element it
    does not exceed. *)
Fixpoint sort_insert {A : Type} (cmp : A -> A -> Z) (x : A) (l : list A) : list A :=
  match l with
  | [] => [x]
  | y :: r => if (cmp x y <=? 0)%Z then x :: y :: r else y :: sort_insert cmp x r
  end.

Definition array_sort {A : Type} (cmp : A -> A -> Z) (l : list A) : list A :=
  fold_right (sort_insert cmp) [] l.

Section FilterBooks.

(** [a.localeCompare(b)]: the collation of the host, a parameter. *)
Variable localeCompare : string -> string -> Z.

(** The comparison function of the [sort]. *)
Definition compareBooks (a b : Book) : Z :=
  let yearDiff := (yearOrZero b - yearOrZero a)%Z in
  if negb (Z.eqb yearDiff 0) then yearDiff
  else localeCompare (titleText a) (titleText b).

Definition filterBooks (books : list Book) : list Book :=
  array_sort compareBooks (dedupe [] (filter has_title_and_year books)).

End FilterBooks.

(** ** [capitalizeFirst] *)

Definition capitalizeFirst (str : string) : string :=
  (toUpperCase (charAt0 str) ++ toLowerCase (slice1 str))%string.

(** ** [categorizeGenre] *)

(** What [categorizeGenre] returns: [null], a genre name, or, for the
    two lower-case names every object inherits, the inherited value
    ([genreMapping[lowerSubject]] reads through the prototype). *)
Inductive Genre : Type :=
| GNull : Genre
| GName : string -> Genre
| GInherited : string -> Genre.

(** The object literal [genreMapping], in the order of its keys. *)
Definition genreMapping : list (string * string) :=
  [ ("fantasy", "Fantasy");
    ("magic", "Fantasy");
    ("wizards", "Fantasy");
    ("witches", "Fantasy");
    ("magical", "Fantasy");
    ("supernatural", "Fantasy");
    ("mythology", "Fantasy & Mythology");
    ("fairy tales", "Fantasy & Fairy Tales");
    ("detective", "Mystery & Detective");
    ("mystery", "Mystery & Detective");
    ("crime", "Crime & Mystery");
    ("thriller", "Thriller");
    ("suspense", "Suspense");
    ("police", "Crime & Detective");
    ("fiction", "Fiction");
    ("literary fiction", "Literary Fiction");
    ("contemporary fiction", "Contemporary Fiction");
    ("historical fiction", "Historical Fiction");
    ("adventure", "Adventure Fiction");
    ("romance", "Romance");
    ("children", "Children's Literature");
    ("young adult", "Young Adult Fiction");
    ("teen", "Young Adult Fiction");
    ("juvenile fiction", "Children's Fiction");
    ("biography", "Biography & Memoir");
    ("autobiography", "Biography & Memoir");
    ("memoir", "Biography & Memoir");
    ("biography & autobiography", "Biography & Memoir");
    ("philosophy", "Philosophy");
    ("psychology", "Psychology");
    ("politics", "Politics & Government");
    ("history", "History");
    ("science", "Science");
    ("education", "Education");
    ("social", "Social Issues");
    ("sociology", "Social Sciences");
    ("friendship", "Friendship & Relationships");
    ("coming of age", "Coming of Age");
    ("school", "School Stories");
    ("boarding school", "School Stories");
    ("orphans", "Family & Social Issues");
    ("families", "Family Stories");
    ("london", "British Literature");
    ("england", "British Literature");
    ("british", "British Literature");
    ("scotland", "Scottish Literature");
    ("film", "Film Adaptations");
    ("movie", "Film Adaptations");
    ("television", "TV Adaptations");
    ("adaptation", "Adaptations");
    ("authorship", "Writing & Publishing");
    ("literary criticism", "Literary Criticism");
    ("book clubs", "Reading & Book Culture") ].

(** The test at the head of [categorizeGenre]: subjects that are
    skipped. *)
Definition skippedSubject (lowerSubject : string) : bool :=
  (60 <? String.length lowerSubject)
  || includes lowerSubject "--"
  || includes lowerSubject "("
  || includes lowerSubject "juvenile"
  || includes lowerSubject "accessible book"
  || includes lowerSubject "large type books"
  || includes lowerSubject "readers"
  || includes lowerSubject "grade"
  || startsWithDigit lowerSubject
  || includes lowerSubject "bibliography"
  || includes lowerSubject "indexes".

(** [genreMapping[k]] when it is truthy: an own key, or one of the two
    lower-case names inherited from [Object.prototype]. *)
Definition mappingGet (k : string) : option Genre :=
  match find (fun kv => String.eqb (fst kv) k) genreMapping with
  | Some kv => Some (GName (snd kv))
  | None =>
      if String.eqb k "constructor" || String.eqb k "__proto__"
      then Some (GInherited k)
      else None
  end.

(** The loop over [Object.entries(genreMapping)]: the first key the
    subject contains. *)
Definition partialMatch (lowerSubject : string) : option string :=
  match find (fun kv => includes lowerSubject (fst kv)) genreMapping with
  | Some kv => Some (snd kv)
  | None => None
  end.

(** The loop over the parts of a compound subject. *)
Fixpoint firstMappedPart (parts : list string) : option Genre :=
  match parts with
  | [] => None
  | part :: rest =>
      match mappingGet (trim part) with
      | Some g => Some g
      | None => firstMappedPart rest
      end
  end.

Definition categorizeGenre (subject : string) : Genre :=
  if String.eqb subject "" then GNull else
  let lowerSubject := trim (toLowerCase subject) in
  if skippedSubject lowerSubject then GNull else
  match mappingGet lowerSubject with
  | Some g => g
  | None =>
  match partialMatch lowerSubject with
  | Some v => GName v
  | None =>
  match (if includes lowerSubject " and "
         then firstMappedPart (split lowerSubject " and ")
         else None) with
  | Some g => g
  | None =>
  if includes lowerSubject " in literature" then
    let theme := trim (replaceFirst lowerSubject " in literature" "") in
    GName (capitalizeFirst theme ++ " in Literature")%string
  else if (String.length subject <=? 40)
          && negb (includes lowerSubject "/")
          && negb (includes lowerSubject ",")
  then GName (trim (collapseSpaces
                      (join (map capitalizeFirst (split subject " ")) " ")))
  else GNull
  end end end.

End BooksPage.

(* ================================================================== *)
(** * Exceptions *)
(* ================================================================== *)

Module Completion.

(** How an evaluation ends: with a value, or with a thrown exception.
    The exception carries nothing: no handler of the service looks at
    more than its message, for the log. *)
Inductive Completion (A : Type) : Type :=
| Normal : A -> Completion A
| Throw : Completion A.

Arguments Normal {A} _.
Arguments Throw {A}.

Definition bind {A B : Type} (c : Completion A) (k : A -> Completion B)
  : Completion B :=
  match c with
  | Normal a => k a
  | Throw => Throw
  end.

(** [try { body } catch (e) { handler }] *)
Definition try_catch {A : Type} (body handler : Completion A) : Completion A :=
  match body with
  | Normal a => Normal a
  | Throw => handler
  end.

Definition throws {A : Type} (c : Completion A) : bool :=
  match c with
  | Normal _ => false
  | Throw => true
  end.

End Completion.

Import Completion.

Notation "x <- c ;; k" := (Completion.bind c (fun x => k))
  (at level 61, c at next level, right associativity).

(* ================================================================== *)
(** * The API service *)
(* ================================================================== *)

Module ApiService.
Import JsString.

(** ** Values

    What [response.json()] delivers and what the merge builds: the
    values of JSON, and [undefined] for what is not there.  An object
    is the list of its properties in their order; a key occurs once. *)
#[local] Set Warnings "-register-all".
Inductive JsVal : Type :=
| JUndefined : JsVal
| JNull : JsVal
| JBool : bool -> JsVal
| JNum : Z -> JsVal
| JStr : string -> JsVal
| JArr : list JsVal -> JsVal
| JObj : list (string * JsVal) -> JsVal.

(** ToBoolean *)
Definition truthy (v : JsVal) : bool :=
  match v with
  | JUndefined | JNull => false
  | JBool b => b
  | JNum z => negb (Z.eqb z 0)
  | JStr s => negb (String.eqb s "")
  | JArr _ | JObj _ => true
  end.

Definition nullish (v : JsVal) : bool :=
  match v with
  | JUndefined | JNull => true
  | _ => false
  end.

(** [a || b] and [a && b] *)
Definition jsOr (a b : JsVal) : JsVal := if truthy a then a else b.
Definition jsAnd (a b : JsVal) : JsVal := if truthy a then b else a.

Fixpoint fieldGet (k : string) (fields : list (string * JsVal)) : JsVal :=
  match fields with
  | [] => JUndefined
  | (k', v) :: rest => if String.eqb k' k then v else fieldGet k rest
  end.

(** [{...fields, k: v}]: the key keeps its place when it is there, and
    comes last when it is new. *)
Fixpoint fieldSet (k : string) (v : JsVal) (fields : list (string * JsVal))
  : list (string * JsVal) :=
  match fields with
  | [] => [(k, v)]
  | (k', v') :: rest =>
      if String.eqb k' k then (k', v) :: rest else (k', v') :: fieldSet k v rest
  end.

(** [v.k] for the property names of the catalogue data, none of which
    a string, a number, a boolean or an array has: reading off
    [undefined] or [null] throws. *)
Definition prop (v : JsVal) (k : string) : Completion JsVal :=
  match v with
  | JUndefined | JNull => Throw
  | JObj fields => Normal (fieldGet k fields)
  | _ => Normal JUndefined
  end.

(** [v?.k] *)
Definition optProp (v : JsVal) (k : string) : JsVal :=
  match v with
  | JObj fields => fieldGet k fields
  | _ => JUndefined
  end.

(** [v[0]] for a [v] that is not [undefined] or [null] *)
Definition index0 (v : JsVal) : JsVal :=
  match v with
  | JArr (x :: _) => x
  | JStr (String c _) => JStr (String c EmptyString)
  | JObj fields => fieldGet "0" fields
  | _ => JUndefined
  end.

(** [v.length] for a [v] that is not [undefined] or [null] *)
Definition lengthOf (v : JsVal) : JsVal :=
  match v with
  | JArr l => JNum (Z.of_nat (List.length l))
  | JStr s => JNum (Z.of_nat (String.length s))
  | JObj fields => fieldGet "length" fields
  | _ => JUndefined
  end.

(** [v.toLowerCase()]: only a string has the method. *)
Definition lowerOf (v : JsVal) : Completion string :=
  match v with
  | JStr s => Normal (toLowerCase s)
  | _ => Throw
  end.

(** ** [enhanceBookData] *)

(** [searchBooksMap]: the latest [set] of a key is in front. *)
Definition SearchMap : Type := list (string * JsVal).

Fixpoint mapGet (k : string) (m : SearchMap) : JsVal :=
  match m with
  | [] => JUndefined
  | (k', v) :: rest => if String.eqb k' k then v else mapGet k rest
  end.

(** The first [forEach]: the lookup from normalized title to search hit. *)
Fixpoint buildSearchMap (searchBooks : list JsVal) (m : SearchMap)
  : Completion SearchMap :=
  match searchBooks with
  | [] => Normal m
  | book :: rest =>
      t <- prop book "title" ;;
      if truthy t then
        l <- lowerOf t ;;
        buildSearchMap rest ((trim l, book) :: m)
      else buildSearchMap rest m
  end.

(** [processedTitles.has(t)] *)
Definition titles_has (processedTitles : list string) (t : string) : bool :=
  existsb (String.eqb t) processedTitles.

(** The object literal [enhancedBook], its properties in their order. *)
Definition enhancedBook (work searchMatch detailedWork : JsVal) : JsVal :=
  let w := optProp work in
  let s := optProp searchMatch in
  let d := optProp detailedWork in
  JObj
    [ ("title", w "title");
      ("key", w "key");
      ("covers", jsOr (w "covers") (JArr []));
      ("cover_i", jsOr (s "cover_i") (jsAnd (w "covers") (index0 (w "covers"))));
      ("first_publish_year", jsOr (s "first_publish_year") (w "first_publish_date"));
      ("first_publish_date", jsOr (w "first_publish_date") (s "first_publish_date"));
      ("language", jsOr (s "language") (JArr []));
      ("publisher", jsOr (s "publisher") (JArr []));
      ("isbn", jsOr (s "isbn") (JArr []));
      ("subject", jsOr (jsOr (s "subject") (d "subjects")) (JArr []));
      ("edition_count", jsOr (s "edition_count") (JNum 1));
      ("author_key", jsOr (s "author_key") (JArr [JStr "OL23919A"]));
      ("author_name", jsOr (s "author_name") (JArr [JStr "J.K. Rowling"]));
      ("description",
        jsOr (jsOr (optProp (d "description") "value") (d "description"))
             (w "description"));
      ("subtitle", jsOr (d "subtitle") (w "subtitle"));
      ("dewey_decimal_class", jsOr (d "dewey_decimal_class") (JArr []));
      ("lc_classifications", jsOr (d "lc_classifications") (JArr [])) ].

(** The record pushed for a search hit no work has claimed:
    [{...searchBook, key: .., covers: .., author_key: .., author_name: ..}]. *)
Definition searchOnlyBook (searchBook : JsVal) : JsVal :=
  let s := optProp searchBook in
  let own := match searchBook with JObj fields => fields | _ => [] end in
  JObj
    (fieldSet "author_name" (jsOr (s "author_name") (JArr [JStr "J.K. Rowling"]))
    (fieldSet "author_key" (jsOr (s "author_key") (JArr [JStr "OL23919A"]))
    (fieldSet "covers" (if truthy (s "cover_i") then JArr [s "cover_i"] else JArr [])
    (fieldSet "key" (jsOr (s "key") JNull) own)))).

(** The two accumulators of the merge. *)
Record Merge : Type := mkMerge
  { enhancedBooks : list JsVal;
    processedTitles : list string }.

Section Enhance.

(** What the work endpoint answers for the work at a position of
    [works]: the parsed body, or [null] when the request fails, is
    aborted after five seconds or is answered with an error status. *)
Variable workDetail : nat -> JsVal.

(** The [for ... of] over the works; [i] is the position of the next
    work. *)
Fixpoint processWorks (m : SearchMap) (i : nat) (works : list JsVal) (st : Merge)
  : Completion Merge :=
  match works with
  | [] => Normal st
  | work :: rest =>
      t <- prop work "title" ;;
      if negb (truthy t) then processWorks m (S i) rest st else
      l <- lowerOf t ;;
      if titles_has (processedTitles st) l then processWorks m (S i) rest st else
      let searchMatch := mapGet l m in
      let detailedWork :=
        if truthy (optProp work "key") then workDetail i else JNull in
      processWorks m (S i) rest
        (mkMerge (enhancedBooks st ++ [enhancedBook work searchMatch detailedWork])
                 (l :: processedTitles st))
  end.

(** The last [forEach]: the search hits whose title no work has. *)
Fixpoint addSearchOnly (searchBooks : list JsVal) (st : Merge) : Completion Merge :=
  match searchBooks with
  | [] => Normal st
  | searchBook :: rest =>
      t <- prop searchBook "title" ;;
      if negb (truthy t) then addSearchOnly rest st else
      l <- lowerOf t ;;
      if titles_has (processedTitles st) l then addSearchOnly rest st else
      addSearchOnly rest
        (mkMerge (enhancedBooks st ++ [searchOnlyBook searchBook])
                 (l :: processedTitles st))
  end.

(** [Array.isArray(v) ? v : []] *)
Definition arrayOrEmpty (v : JsVal) : list JsVal :=
  match v with
  | JArr l => l
  | _ => []
  end.

Definition enhanceBookData (works searchBooks : JsVal) : Completion (list JsVal) :=
  m <- buildSearchMap (arrayOrEmpty searchBooks) [] ;;
  st <- processWorks m 0 (arrayOrEmpty works) (mkMerge [] []) ;;
  st' <- addSearchOnly (arrayOrEmpty searchBooks) st ;;
  Normal (enhancedBooks st').

(** ** [fetchDetailedJKRowlingBooks] *)

(** What a call of [cachedFetch] resolves to: what the caller reads as
    [ok] off the answer ([undefined] when the answer has no such
    property) and the parsed body.  A call that rejects (the request
    fails, or the body is not JSON) is [Throw]. *)
Record Response : Type := mkResponse
  { ok : JsVal;
    body : JsVal }.

(** The value the function resolves to. *)
Record CatalogResult : Type := mkCatalogResult
  { books : JsVal;
    total : JsVal }.

(** The answers to the three calls of [cachedFetch]: works and search
    in the first attempt, search alone in the retry.  Whether an answer
    comes from the cache or from the network is not looked at. *)
Variable worksCall searchCall retryCall : Completion Response.

(** The inner [try]: the merge, and the raw search hits when it throws. *)
Definition enhanceOrSearch (worksData searchData : JsVal) : Completion JsVal :=
  try_catch
    (entries <- prop worksData "entries" ;;
     docs <- prop searchData "docs" ;;
     merged <- enhanceBookData entries docs ;;
     Normal (JArr merged))
    (docs <- prop searchData "docs" ;;
     Normal (jsOr docs (JArr []))).

(** The body of the outer [try]. *)
Definition combinedAttempt : Completion CatalogResult :=
  worksResponse <- worksCall ;;
  searchResponse <- searchCall ;;
  if negb (truthy (ok worksResponse)) || negb (truthy (ok searchResponse))
  then Throw
  else
    enhanced <- enhanceOrSearch (body worksResponse) (body searchResponse) ;;
    Normal (mkCatalogResult enhanced (lengthOf enhanced)).

(** The handler of the outer [try]: the search endpoint alone; what it
    throws is thrown again. *)
Definition searchOnlyRetry : Completion CatalogResult :=
  searchResponse <- retryCall ;;
  docs <- prop (body searchResponse) "docs" ;;
  Normal (mkCatalogResult
            (jsOr docs (JArr []))
            (jsOr (if nullish docs then JUndefined else lengthOf docs) (JNum 0))).

Definition fetchDetailedJKRowlingBooks : Completion CatalogResult :=
  try_catch combinedAttempt searchOnlyRetry.

End Enhance.

(** ** The description resolver *)

Import Catalogue.

(** [book.title.toLowerCase()]: there is no method to call when the
    title is absent. *)
Definition lowerTitle (book : Book) : Completion string :=
  match title book with
  | Some s => Normal (toLowerCase s)
  | None => Throw
  end.

(** *** [getFallbackDescription] *)

Definition harryPotterDescription (title : string) : string :=
  if includes title "philosopher" || includes title "sorcerer" then
    "The magical journey begins as young Harry Potter discovers his true identity and enters the enchanting world of Hogwarts School of Witchcraft and Wizardry."
  else if includes title "chamber" then
    "Harry returns to Hogwarts for his second year, where ancient secrets and a mysterious monster threaten the school."
  else if includes title "prisoner" then
    "Harry's third year brings new revelations about his past and the escape of a dangerous prisoner from Azkaban."
  else if includes title "goblet" then
    "Harry faces his most dangerous challenges yet as he competes in the legendary Triwizard Tournament."
  else if includes title "phoenix" then
    "As Voldemort returns to power, Harry must unite his friends and form a secret organization to fight against the darkness."
  else if includes title "prince" then
    "Harry delves into Voldemort's dark past while preparing for the ultimate confrontation between good and evil."
  else if includes title "hallows" then
    "The epic conclusion to Harry's journey as he faces his destiny and the final battle against Voldemort."
  else
    "Join Harry Potter on an unforgettable magical adventure filled with friendship, courage, and the triumph of good over evil.".

Definition strikeKeywords : list string :=
  [ "strike"; "cuckoo"; "silkworm"; "evil"; "white"; "blood"; "heart"; "grave" ].

(** The cascade on a lower-cased title and the lower-cased, joined
    subjects. *)
Definition fallbackTemplate (title subjectStr : string) : string :=
  if includes title "harry potter" then harryPotterDescription title
  else if existsb (includes title) strikeKeywords then
    "Follow private detective Cormoran Strike as he unravels complex mysteries in this gripping crime series that showcases Rowling's masterful storytelling beyond the wizarding world."
  else if includes title "casual vacancy" then
    "A darkly comic and deeply moving novel that explores the hidden tensions and conflicts within a seemingly idyllic English town."
  else if includes title "fantastic beasts" then
    "Explore the magical world of fantastic creatures in this enchanting companion to the Harry Potter universe."
  else if includes subjectStr "fantasy" || includes subjectStr "magic" then
    "A spellbinding fantasy tale that transports readers to a world of magic, adventure, and unforgettable characters created by the masterful J.K. Rowling."
  else if includes subjectStr "mystery" || includes subjectStr "crime" then
    "A compelling mystery that weaves together intricate plotlines and complex characters in J.K. Rowling's signature storytelling style."
  else if includes subjectStr "young adult" || includes subjectStr "children" then
    "An engaging tale that captures the imagination of readers young and old with its rich storytelling and memorable characters."
  else
    "A captivating work by J.K. Rowling that demonstrates her exceptional ability to craft compelling stories with depth, emotion, and unforgettable characters.".

Definition getFallbackDescription (book : Book) : Completion string :=
  title <- lowerTitle book ;;
  let subjects := match subject book with Some l => l | None => [] end in
  let subjectStr := toLowerCase (join subjects " ") in
  Normal (fallbackTemplate title subjectStr).

(** *** [fetchFromGoodreadsDataset] *)

(** A row of the description dataset, [row.row] in the source. *)
Record DatasetRow : Type := mkDatasetRow
  { row_title : option string;
    row_authors : option string;
    row_description : option string }.

(** The answer of the dataset server: its status flag, and what
    [response.json()] gives, the [rows] when the body has them. *)
Record DatasetResponse : Type := mkDatasetResponse
  { dataset_ok : bool;
    dataset_json : Completion (option (list DatasetRow)) }.

Definition is_sentence_end (c : ascii) : bool :=
  Ascii.eqb c "." || Ascii.eqb c "!" || Ascii.eqb c "?".

(** [s.split(/[.!?]+/)]: a run of closing marks is one separator. *)
Fixpoint splitSentences_go (in_run : bool) (cur : list ascii) (s : string)
  : list string :=
  match s with
  | EmptyString => [string_of_list_ascii (rev cur)]
  | String c r =>
      if is_sentence_end c
      then if in_run then splitSentences_go true [] r
           else string_of_list_ascii (rev cur) :: splitSentences_go true [] r
      else splitSentences_go false (c :: cur) r
  end.

Definition splitSentences (s : string) : list string :=
  splitSentences_go false [] s.

(** The callback of [data.rows.find]. *)
Definition rowMatches (book : Book) (row : DatasetRow) : Completion bool :=
  let dataTitle := match row_title row with Some t => toLowerCase t | None => "" end in
  let dataAuthor := match row_authors row with Some a => toLowerCase a | None => "" end in
  bookTitle <- lowerTitle book ;;
  Normal ((includes dataTitle (String.substring 0 10 bookTitle)
           || includes bookTitle (String.substring 0 10 dataTitle))
          && includes dataAuthor "rowling").

(** [rows.find(callback)] *)
Fixpoint findRow (book : Book) (rows : list DatasetRow)
  : Completion (option DatasetRow) :=
  match rows with
  | [] => Normal None
  | row :: rest =>
      hit <- rowMatches book row ;;
      if hit then Normal (Some row) else findRow book rest
  end.

(** The description of the row found, cut to two sentences; [null]
    when it is fifty code units or less. *)
Definition shortenDescription (raw : string) : option string :=
  let description := trim raw in
  let sentences :=
    filter (fun s => 10 <? String.length (trim s)) (splitSentences description) in
  let description :=
    if 2 <? List.length sentences
    then (join (firstn 2 sentences) ". " ++ ".")%string
    else description in
  if 50 <? String.length description then Some description else None.

Section Descriptions.

(** What the request to the dataset server gives; [Throw] when the
    request itself fails. *)
Variable datasetCall : Completion DatasetResponse.

Definition fetchFromGoodreadsDataset (book : Book) : Completion (option string) :=
  try_catch
    (response <- datasetCall ;;
     if negb (dataset_ok response) then Throw else
     data <- dataset_json response ;;
     match data with
     | Some rows =>
         matchingBook <- findRow book rows ;;
         match matchingBook with
         | Some row =>
             if truthy_string (row_description row)
             then match row_description row with
                  | Some raw => Normal (shortenDescription raw)
                  | None => Normal None
                  end
             else Normal None
         | None => Normal None
         end
     | None => Normal None
     end)
    (Normal None).

(** *** [generateBookDescription] *)

Definition generateBookDescription (book : Book) : Completion string :=
  match try_catch (fetchFromGoodreadsDataset book) (Normal None) with
  | Normal (Some goodreadsDescription) =>
      if negb (String.eqb goodreadsDescription "")
      then Normal goodreadsDescription
      else getFallbackDescription book
  | _ => getFallbackDescription book
  end.

End Descriptions.

End ApiService.

(* ================================================================== *)
(** * The search heuristic as the specification words it *)
(* ================================================================== *)

Module FuzzySpec.
Import JsString.

(** Move the cursor through the text up to a code unit equal to [c];
    the text that is left behind the match, if there is one. *)
Fixpoint advance_to (c : ascii) (text : string) : option string :=
  match text with
  | EmptyString => None
  | String b rest => if Ascii.eqb c b then Some rest else advance_to c rest
  end.

(** For each code unit of the query in order, move the cursor to a
    match and count a hit; the cursor never moves back, so the count
    ends with the first code unit that finds none. *)
Fixpoint hits (query text : string) : nat :=
  match query with
  | EmptyString => 0
  | String c rest =>
      match advance_to c text with
      | Some text' => S (hits rest text')
      | None => 0
      end
  end.

(** [text] contains [pat] as a substring. *)
Definition substring_of (pat text : string) : Prop :=
  exists before after : string, text = (before ++ pat ++ after)%string.

(** Containment without regard to case. *)
Definition contains_ignoring_case (query text : string) : Prop :=
  substring_of (toLowerCase query) (toLowerCase text).

End FuzzySpec.

(* ================================================================== *)
(** * Properties of the string primitives *)
(* ================================================================== *)

Section StringFacts.
Import JsString.


Lemma toLowerCase_empty (s : string) :
  toLowerCase s = EmptyString -> s = EmptyString.
Proof. destruct s; simpl; [reflexivity | discriminate]. Qed.

Lemma startsWith_app (pat rest : string) :
  startsWith (pat ++ rest)%string pat = true.
Proof.
  induction pat as [|p pr IH]; simpl.
  - destruct rest; reflexivity.
  - now rewrite Ascii.eqb_refl, IH.
Qed.

Lemma startsWith_split (text pat : string) :
  startsWith text pat = true -> exists rest, text = (pat ++ rest)%string.
Proof.
  revert text. induction pat as [|p pr IH]; intros text H.
  - exists text. reflexivity.
  - destruct text as [|t tr]; simpl in H; [discriminate|].
    apply andb_prop in H as [Hc Hr].
    apply Ascii.eqb_eq in Hc. subst t.
    destruct (IH _ Hr) as [rest ->]. exists rest. reflexivity.
Qed.

Lemma includes_substring (text pat : string) :
  includes text pat = true <-> FuzzySpec.substring_of pat text.
Proof.
  unfold FuzzySpec.substring_of. split.
  - induction text as [|t tr IH]; intros H.
    + change (startsWith EmptyString pat || false = true) in H.
      rewrite orb_false_r in H.
      destruct (startsWith_split _ _ H) as [rest E].
      exists EmptyString, rest. exact E.
    + change (startsWith (String t tr) pat || includes tr pat = true) in H.
      apply orb_prop in H as [H|H].
      * destruct (startsWith_split _ _ H) as [rest E].
        exists EmptyString, rest. exact E.
      * destruct (IH H) as (b & a & E).
        exists (String t b), a. simpl. now rewrite E.
  - intros (b & a & E). subst text.
    induction b as [|c b IH]; simpl.
    + assert (H : startsWith (pat ++ a)%string pat = true)
        by apply startsWith_app.
      destruct (pat ++ a)%string as [|c r];
        [ change (startsWith EmptyString pat || false = true)
        | change (startsWith (String c r) pat || includes r pat = true) ];
        rewrite H; reflexivity.
    + change (startsWith (String c (b ++ pat ++ a)) pat
              || includes (b ++ pat ++ a)%string pat = true).
      rewrite IH. apply orb_true_r.
Qed.

Lemma drop_past_end (s : string) (i : nat) :
  String.length s <= i -> drop i s = EmptyString.
Proof.
  revert i. induction s as [|c r IH]; intros [|i] H; simpl in *;
    try reflexivity; try lia.
  apply IH. lia.
Qed.

Lemma drop_at (s : string) (i : nat) :
  i < String.length s ->
  exists a, String.get i s = Some a /\ drop i s = String a (drop (S i) s).
Proof.
  revert i. induction s as [|c r IH]; intros i H; simpl in H; [lia|].
  destruct i as [|i].
  - exists c. split; [reflexivity|]. simpl. now destruct r.
  - destruct (IH i) as (a & Hg & Hd); [lia|].
    exists a. split; [exact Hg|]. simpl. exact Hd.
Qed.

Lemma drop_length (s : string) (n : nat) :
  String.length (drop n s) = String.length s - n.
Proof.
  revert n. induction s as [|c r IH]; intros [|n]; cbn [drop String.length];
    try reflexivity.
  apply IH.
Qed.

(** The fuel [split] gives is enough: with more fuel than the subject
    has code units the result does not depend on the fuel, so the list
    is never cut short. *)
Lemma split_go_fuel (sep : string) :
  sep <> EmptyString ->
  forall fuel fuel' cur s,
    String.length s < fuel -> String.length s < fuel' ->
    split_go fuel sep cur s = split_go fuel' sep cur s.
Proof.
  intros Hsep. induction fuel as [|fuel IH]; intros fuel' cur s H H'; [lia|].
  destruct fuel' as [|fuel']; [lia|].
  cbn [split_go]. destruct s as [|c r]; [reflexivity|].
  cbn [String.length] in H, H'.
  destruct (startsWith (String c r) sep).
  - f_equal. apply IH; rewrite drop_length; cbn [String.length];
      destruct sep; try congruence; cbn [String.length]; lia.
  - apply IH; lia.
Qed.

End StringFacts.

(* ================================================================== *)
(** * [fuzzySearch]: the loop and the specification *)
(* ================================================================== *)

Section FuzzySearchFacts.
Import JsString BooksPage FuzzySpec.

Lemma hits_empty_text (query : string) : hits query EmptyString = 0.
Proof. destruct query; reflexivity. Qed.

(** The loop against the specification, from any state it can be in:
    with fuel for the text that is left, the loop ends by its guard and
    has counted the hits of what is left of the query in what is left
    of the text. *)
Lemma scan_loop_hits (query text : string) (fuel : nat) :
  forall qi ti m,
    String.length text - ti <= fuel ->
    let st := scan_loop fuel query text (mkScan qi ti m) in
    scan_guard query text st = false
    /\ matches st = m + hits (drop qi query) (drop ti text).
Proof.
  induction fuel as [|fuel IH]; intros qi ti m Hfuel; cbn zeta.
  - cbn [scan_loop]. unfold scan_guard; cbn [queryIndex textIndex matches].
    assert (Hti : String.length text <= ti) by lia.
    split.
    + apply andb_false_iff. right. apply Nat.ltb_ge. exact Hti.
    + rewrite (drop_past_end text ti Hti), hits_empty_text. lia.
  - cbn [scan_loop].
    destruct (scan_guard query text (mkScan qi ti m)) eqn:G.
    + unfold scan_guard in G; cbn [queryIndex textIndex] in G.
      apply andb_prop in G as [Gq Gt].
      apply Nat.ltb_lt in Gq. apply Nat.ltb_lt in Gt.
      destruct (drop_at query qi Gq) as (a & Ha & Hqa).
      destruct (drop_at text ti Gt) as (b & Hb & Htb).
      unfold scan_body; cbn [queryIndex textIndex matches].
      rewrite Ha, Hb, Hqa, Htb.
      destruct (Ascii.eqb a b) eqn:E.
      * destruct (IH (S qi) (S ti) (S m)) as [H1 H2]; [lia|].
        split; [exact H1|]. rewrite H2.
        cbn [hits advance_to]. rewrite E. lia.
      * destruct (IH qi (S ti) m) as [H1 H2]; [lia|].
        split; [exact H1|]. rewrite H2, Hqa.
        cbn [hits advance_to]. rewrite E. reflexivity.
    + split; [exact G|]. cbn [matches].
      unfold scan_guard in G; cbn [queryIndex textIndex] in G.
      apply andb_false_iff in G as [G|G]; apply Nat.ltb_ge in G.
      * rewrite (drop_past_end query qi G). cbn [hits]. lia.
      * rewrite (drop_past_end text ti G), hits_empty_text. lia.
Qed.

(** The loop as [fuzzySearch] runs it. *)
Lemma scan_from_start (query text : string) :
  let st := scan_loop (String.length text) query text (mkScan 0 0 0) in
  scan_guard query text st = false /\ matches st = hits query text.
Proof.
  cbn zeta.
  destruct (scan_loop_hits query text (String.length text) 0 0 0) as [H1 H2];
    [lia|].
  split; [exact H1|]. rewrite H2. cbn [drop].
  now destruct query, text.
Qed.

(** What [fuzzySearch] computes on strings that are not empty. *)
Lemma fuzzySearch_unfold (query text : string) :
  query <> EmptyString -> text <> EmptyString ->
  fuzzySearch query text =
    if includes (toLowerCase text) (toLowerCase query) then true
    else ratio_ok
           (matches (scan_loop (String.length (toLowerCase text))
                       (toLowerCase query) (toLowerCase text) (mkScan 0 0 0)))
           (String.length (toLowerCase query)).
Proof.
  intros Hq Ht. destruct query as [|a q]; [congruence|].
  destruct text as [|b t]; [congruence|]. reflexivity.
Qed.

End FuzzySearchFacts.

Section FuzzySearchClaims.
Import JsString BooksPage FuzzySpec.

(** C7.  For strings that are not empty, [fuzzySearch query text] is
    true when the text contains the query without regard to case.
    Otherwise the loop makes one pass over the text, of at most as many
    turns as the text has code units, ends by its guard, and has counted
    the hits of the specification (for each code unit of the query in
    order, the cursor moves forward to a match); the answer is true
    exactly when hits / length is at least seven tenths, the length
    being the one the code divides by: that of the lower-cased query. *)
Theorem fuzzySearch_contains_or_ratio (query text : string) :
  query <> EmptyString -> text <> EmptyString ->
  let q := toLowerCase query in
  let t := toLowerCase text in
  let st := scan_loop (String.length t) q t (mkScan 0 0 0) in
  (contains_ignoring_case query text -> fuzzySearch query text = true)
  /\ (~ contains_ignoring_case query text ->
      scan_guard q t st = false
      /\ matches st = hits q t
      /\ (fuzzySearch query text = true
          <-> 7 * String.length q <= 10 * hits q t)).
Proof.
  intros Hq Ht q t st.
  pose proof (fuzzySearch_unfold query text Hq Ht) as E.
  fold q t in E. fold st in E.
  unfold contains_ignoring_case. fold q t.
  split.
  - intros Hc. apply includes_substring in Hc. now rewrite E, Hc.
  - intros Hn.
    assert (Hi : includes t q = false).
    { destruct (includes t q) eqn:I; [|reflexivity].
      exfalso. apply Hn. now apply includes_substring. }
    destruct (scan_from_start q t) as [G M]. fold st in G, M.
    split; [exact G|]. split; [exact M|].
    rewrite E, Hi, M. unfold ratio_ok. apply Nat.leb_le.
Qed.

(** Two code units that differ by case only, outside of [A-Z]: capital
    E with acute accent (U+00C9) and the small one (U+00E9). *)
Definition capitalEAcute : string := String (ascii_of_nat 201) EmptyString.
Definition smallEAcute : string := String (ascii_of_nat 233) EmptyString.

Lemma fuzzySearch_contains_or_ratio_witness :
  "Hrry" <> EmptyString /\ "Harry Potter" <> EmptyString
  /\ ~ contains_ignoring_case "Hrry" "Harry Potter"
  /\ fuzzySearch "Hrry" "Harry Potter" = true
  /\ contains_ignoring_case "poTTer" "Harry Potter"
  /\ fuzzySearch "poTTer" "Harry Potter" = true
  /\ fuzzySearch capitalEAcute smallEAcute = true.
Proof.
  assert (Hn : ~ contains_ignoring_case "Hrry" "Harry Potter").
  { intros H. apply includes_substring in H. vm_compute in H. discriminate. }
  split; [discriminate|]. split; [discriminate|]. split; [exact Hn|].
  split; [|split; [|split]].
  - apply (proj2 (fuzzySearch_contains_or_ratio "Hrry" "Harry Potter"
                    ltac:(discriminate) ltac:(discriminate))).
    + exact Hn.
    + vm_compute. lia.
  - apply includes_substring. vm_compute. reflexivity.
  - apply (proj1 (fuzzySearch_contains_or_ratio "poTTer" "Harry Potter"
                    ltac:(discriminate) ltac:(discriminate))).
    apply includes_substring. vm_compute. reflexivity.
  - apply (proj1 (fuzzySearch_contains_or_ratio capitalEAcute smallEAcute
                    ltac:(discriminate) ltac:(discriminate))).
    apply includes_substring. vm_compute. reflexivity.
Defined.

(** C10.  With an empty query or an empty text [fuzzySearch] answers
    false at once.  The quotient by the length of the query is taken
    only on the other path, where query and text are not empty and the
    length that divides is positive. *)
Theorem fuzzySearch_empty_false (query text : string) :
  (query = EmptyString \/ text = EmptyString ->
   fuzzySearch query text = false)
  /\ (query <> EmptyString -> text <> EmptyString ->
      0 < String.length (toLowerCase query)
      /\ fuzzySearch query text =
           if includes (toLowerCase text) (toLowerCase query) then true
           else ratio_ok
                  (matches (scan_loop (String.length (toLowerCase text))
                              (toLowerCase query) (toLowerCase text)
                              (mkScan 0 0 0)))
                  (String.length (toLowerCase query))).
Proof.
  split.
  - intros [-> | ->]; [reflexivity|]. now destruct query.
  - intros Hq Ht. split; [|now apply fuzzySearch_unfold].
    destruct query; [congruence | cbn [toLowerCase String.length]; lia].
Qed.

Lemma fuzzySearch_empty_false_witness :
  fuzzySearch "" "Harry Potter" = false
  /\ fuzzySearch "potter" "" = false
  /\ 0 < String.length (toLowerCase "Potter").
Proof.
  split; [|split].
  - apply (proj1 (fuzzySearch_empty_false "" "Harry Potter")).
    left. reflexivity.
  - apply (proj1 (fuzzySearch_empty_false "potter" "")).
    right. reflexivity.
  - apply (proj2 (fuzzySearch_empty_false "Potter" "Harry Potter"));
      discriminate.
Defined.

End FuzzySearchClaims.

(* ================================================================== *)
(** * [categorizeGenre] on the two subjects of the specification *)
(* ================================================================== *)

Section GenreClaims.
Import JsString BooksPage.

(** C8.  [categorizeGenre] maps "Fantasy fiction" to "Fantasy": the
    subject is not skipped and is no key of the table, and of the keys
    it contains ("fantasy" and, further down, "fiction") the first one
    in the order of the table decides.  It maps
    "Juvenile fiction, grade 3" to [null]: the subject is skipped for
    the words "juvenile" and "grade". *)
Theorem categorizeGenre_examples :
  categorizeGenre "Fantasy fiction" = GName "Fantasy"
  /\ skippedSubject "fantasy fiction" = false
  /\ mappingGet "fantasy fiction" = None
  /\ partialMatch "fantasy fiction" = Some "Fantasy"
  /\ includes "fantasy fiction" "fiction" = true
  /\ categorizeGenre "Juvenile fiction, grade 3" = GNull
  /\ includes "juvenile fiction, grade 3" "juvenile" = true
  /\ includes "juvenile fiction, grade 3" "grade" = true.
Proof. repeat split; vm_compute; reflexivity. Qed.

End GenreClaims.

(* ================================================================== *)
(** * [filterBooks]: what the ingest step keeps and in which order *)
(* ================================================================== *)

Module IngestSpec.
Import JsString Catalogue BooksPage.

(** The key of a record: its title, lower-cased and trimmed. *)
Definition normalizedTitle (b : Book) : string := normalizeTitle (titleText b).

(** The order the specification asks of two neighbours, for a collation
    [collate]: the year goes down, or stays and the title does not go
    down. *)
Definition in_catalogue_order (collate : string -> string -> Z) (a b : Book)
  : Prop :=
  exists ya yb ta tb,
    first_publish_year a = Some ya /\ first_publish_year b = Some yb
    /\ title a = Some ta /\ title b = Some tb
    /\ ((yb < ya)%Z \/ (ya = yb /\ (collate ta tb <= 0)%Z)).

(** The collation by code units, one instance of the parameter. *)
Definition codeUnitCompare (a b : string) : Z :=
  match String.compare a b with
  | Lt => (-1)%Z
  | Eq => 0%Z
  | Gt => 1%Z
  end.

End IngestSpec.

(* ================================================================== *)
(** * [filterBooks] on the records as the merge leaves them *)
(* ================================================================== *)

Module MergedIngest.
Import JsString Catalogue BooksPage.

(** What the merge leaves in [first_publish_year]: the number of the
    search hit or, failing that, the text of the work's
    [first_publish_date]
    ([searchMatch?.first_publish_year || work.first_publish_date]). *)
Inductive YearField : Type :=
| YearNumber : Z -> YearField
| YearText : string -> YearField.

(** The two fields of a record that [filterBooks] reads. *)
Record MergedBook : Type := mkMergedBook
  { merged_title : option string;
    merged_year : option YearField }.

(** Truthiness of the year field: a number that is not zero, a text
    that is not empty. *)
Definition truthy_year (v : option YearField) : bool :=
  match v with
  | Some (YearNumber n) => negb (Z.eqb n 0)
  | Some (YearText s) => negb (String.eqb s "")
  | None => false
  end.

Definition titleText (b : MergedBook) : string :=
  match merged_title b with
  | Some s => s
  | None => ""
  end.

(** The first [filter]: [book.title && book.first_publish_year]. *)
Definition has_title_and_year (b : MergedBook) : bool :=
  truthy_string (merged_title b) && truthy_year (merged_year b).

(** The second [filter], with the set [seenTitles] threaded through. *)
Fixpoint dedupe (seenTitles : list string) (books : list MergedBook)
  : list MergedBook :=
  match books with
  | [] => []
  | book :: rest =>
      let t := normalizeTitle (titleText book) in
      if seen_has seenTitles t then dedupe seenTitles rest
      else if isExcludedTitle t then dedupe (t :: seenTitles) rest
      else book :: dedupe (t :: seenTitles) rest
  end.

Section FilterBooks.

(** The conversion of a string to a number that the subtraction
    applies, [None] for NaN: a parameter, as the host defines it. *)
Variable toNumber : string -> option Z.

(** [a.localeCompare(b)]: the collation of the host, a parameter. *)
Variable localeCompare : string -> string -> Z.

(** [book.first_publish_year || 0] as the subtraction reads it: a
    number, or [None] for NaN. *)
Definition yearNumber (b : MergedBook) : option Z :=
  match merged_year b with
  | Some (YearNumber n) => Some n
  | Some (YearText s) => if String.eqb s "" then Some 0%Z else toNumber s
  | None => Some 0%Z
  end.

(** The comparison function of the [sort], as [sort] reads its result:
    when a year is NaN so is [yearDiff], which is returned
    ([NaN !== 0]) and which [sort] takes for [+0]. *)
Definition compareBooks (a b : MergedBook) : Z :=
  match yearNumber b, yearNumber a with
  | Some yb, Some ya =>
      let yearDiff := (yb - ya)%Z in
      if negb (Z.eqb yearDiff 0) then yearDiff
      else localeCompare (titleText a) (titleText b)
  | _, _ => 0%Z
  end.

Definition filterBooks (books : list MergedBook) : list MergedBook :=
  array_sort compareBooks (dedupe [] (filter has_title_and_year books)).

(** The order the specification asks of two neighbours, for a collation
    [collate]: the year goes down, or stays and the title does not go
    down. *)
Definition in_catalogue_order (collate : string -> string -> Z)
    (a b : MergedBook) : Prop :=
  exists ya yb ta tb,
    yearNumber a = Some ya /\ yearNumber b = Some yb
    /\ merged_title a = Some ta /\ merged_title b = Some tb
    /\ ((yb < ya)%Z \/ (ya = yb /\ (collate ta tb <= 0)%Z)).

End FilterBooks.

(** A record of the page whose year is a number, as a merged record. *)
Definition ofBook (b : Book) : MergedBook :=
  mkMergedBook (title b)
    (match first_publish_year b with
     | Some n => Some (YearNumber n)
     | None => None
     end).

End MergedIngest.

Section SortFacts.
Import BooksPage.

Context {A : Type} (cmp : A -> A -> Z).

(** The one property of the comparison the order of neighbours needs:
    of two elements, one does not exceed the other. *)
Hypothesis cmp_total : forall x y, (0 < cmp x y)%Z -> (cmp y x <= 0)%Z.

Let before (x y : A) : Prop := (cmp x y <= 0)%Z.

Lemma sort_insert_perm (x : A) (l : list A) :
  Permutation (sort_insert cmp x l) (x :: l).
Proof.
  induction l as [|y r IH]; cbn [sort_insert]; [reflexivity|].
  destruct (cmp x y <=? 0)%Z; [reflexivity|].
  rewrite IH. apply perm_swap.
Qed.

Lemma array_sort_perm (l : list A) : Permutation (array_sort cmp l) l.
Proof.
  induction l as [|x r IH]; cbn [array_sort fold_right]; [reflexivity|].
  fold (array_sort cmp r). rewrite sort_insert_perm. now constructor.
Qed.

Lemma sort_insert_hd (x z : A) (l : list A) :
  before z x -> HdRel before z l -> HdRel before z (sort_insert cmp x l).
Proof.
  intros Hzx Hl. destruct l as [|y r]; cbn [sort_insert].
  - now constructor.
  - destruct (cmp x y <=? 0)%Z; constructor; [assumption|].
    now inversion Hl.
Qed.

Lemma sort_insert_sorted (x : A) (l : list A) :
  Sorted before l -> Sorted before (sort_insert cmp x l).
Proof.
  induction 1 as [|y r Hs IH Hh]; cbn [sort_insert].
  - repeat constructor.
  - destruct (cmp x y <=? 0)%Z eqn:E.
    + constructor; [now constructor|]. constructor.
      now apply Z.leb_le in E.
    + constructor; [exact IH|].
      apply sort_insert_hd; [|exact Hh].
      apply cmp_total. apply Z.leb_gt in E. lia.
Qed.

Lemma array_sort_sorted (l : list A) : Sorted before (array_sort cmp l).
Proof.
  induction l as [|x r IH]; cbn [array_sort fold_right]; [constructor|].
  now apply sort_insert_sorted.
Qed.

End SortFacts.

Section ListFacts.

Context {A : Type}.

(** Neighbours of a list sorted by neighbours are related. *)
Lemma Sorted_neighbours (R : A -> A -> Prop) (l : list A) :
  Sorted R l ->
  forall i a b, nth_error l i = Some a -> nth_error l (S i) = Some b -> R a b.
Proof.
  induction 1 as [|x r Hs IH Hh]; intros i a b Ha Hb.
  - destruct i; discriminate.
  - destruct i as [|i].
    + cbn in Ha, Hb. injection Ha as <-.
      destruct r as [|y r']; [discriminate|].
      cbn in Hb. injection Hb as <-. now inversion Hh.
    + cbn in Ha. cbn [nth_error] in Hb. eapply IH; eassumption.
Qed.

End ListFacts.

Section DedupeFacts.
Import JsString Catalogue BooksPage IngestSpec.

Lemma seen_has_true (seen : list string) (t : string) :
  seen_has seen t = true <-> In t seen.
Proof.
  unfold seen_has. rewrite existsb_exists. split.
  - intros (x & Hx & E). apply String.eqb_eq in E. now subst.
  - intros H. exists t. split; [exact H | apply String.eqb_refl].
Qed.

Lemma seen_has_false (seen : list string) (t : string) :
  seen_has seen t = false <-> ~ In t seen.
Proof.
  rewrite <- seen_has_true. destruct (seen_has seen t); split; congruence.
Qed.

(** A record [dedupe] keeps is a record of the list, its key was not in
    the set and is not excluded. *)
Lemma dedupe_In (books : list Book) :
  forall seen b,
    In b (dedupe seen books) ->
    In b books
    /\ ~ In (normalizedTitle b) seen
    /\ isExcludedTitle (normalizedTitle b) = false.
Proof.
  induction books as [|x r IH]; intros seen b H; cbn [dedupe] in H;
    [contradiction|].
  fold (normalizedTitle x) in H.
  destruct (seen_has seen (normalizedTitle x)) eqn:S1.
  - destruct (IH _ _ H) as (H1 & H2 & H3). auto with datatypes.
  - apply seen_has_false in S1.
    destruct (isExcludedTitle (normalizedTitle x)) eqn:X.
    + destruct (IH _ _ H) as (H1 & H2 & H3).
      repeat split; auto with datatypes.
    + destruct H as [<- | H]; [auto with datatypes|].
      destruct (IH _ _ H) as (H1 & H2 & H3).
      repeat split; auto with datatypes.
Qed.

(** The keys [dedupe] keeps are pairwise different. *)
Lemma dedupe_NoDup (books : list Book) :
  forall seen, NoDup (map normalizedTitle (dedupe seen books)).
Proof.
  induction books as [|x r IH]; intros seen; cbn [dedupe]; [constructor|].
  fold (normalizedTitle x).
  destruct (seen_has seen (normalizedTitle x)); [apply IH|].
  destruct (isExcludedTitle (normalizedTitle x)); [apply IH|].
  cbn [map]. constructor; [|apply IH].
  intros H. apply in_map_iff in H as (y & E & Hy).
  apply dedupe_In in Hy as (_ & Hn & _).
  apply Hn. rewrite E. now left.
Qed.

(** The first occurrence wins: a record [dedupe] keeps has no record
    of the same key before it in the list. *)
Lemma dedupe_first (books : list Book) :
  forall seen b,
    In b (dedupe seen books) ->
    exists l1 l2,
      books = l1 ++ b :: l2
      /\ forall x, In x l1 -> normalizedTitle x <> normalizedTitle b.
Proof.
  induction books as [|x r IH]; intros seen b H; cbn [dedupe] in H;
    [contradiction|].
  fold (normalizedTitle x) in H.
  assert (Later : forall seen',
             In (normalizedTitle x) seen' ->
             In b (dedupe seen' r) ->
             exists l1 l2,
               x :: r = l1 ++ b :: l2
               /\ forall y, In y l1 -> normalizedTitle y <> normalizedTitle b).
  { intros seen' Hx Hb.
    destruct (IH _ _ Hb) as (l1 & l2 & E & F).
    exists (x :: l1), l2. split; [now rewrite E|].
    intros y [<- | Hy]; [|now apply F].
    apply dedupe_In in Hb as (_ & Hn & _). congruence. }
  destruct (seen_has seen (normalizedTitle x)) eqn:S1.
  - apply seen_has_true in S1. now apply (Later seen).
  - destruct (isExcludedTitle (normalizedTitle x)).
    + apply (Later (normalizedTitle x :: seen)); [now left | exact H].
    + destruct H as [<- | H].
      * exists [], r. split; [reflexivity | contradiction].
      * apply (Later (normalizedTitle x :: seen)); [now left | exact H].
Qed.

Lemma kept_has_title (b : Book) :
  has_title_and_year b = true ->
  exists t y,
    title b = Some t /\ t <> EmptyString
    /\ first_publish_year b = Some y /\ y <> 0%Z.
Proof.
  unfold has_title_and_year, truthy_string, truthy_number.
  destruct (title b) as [t|]; [|discriminate].
  destruct (first_publish_year b) as [y|];
    [|rewrite andb_false_r; discriminate].
  intros H. apply andb_prop in H as [Ht Hy].
  apply negb_true_iff in Ht, Hy.
  apply String.eqb_neq in Ht. apply Z.eqb_neq in Hy.
  exists t, y. auto.
Qed.

End DedupeFacts.

Section IngestFacts.
Import JsString Catalogue BooksPage IngestSpec.

Variable localeCompare : string -> string -> Z.

Lemma filterBooks_perm (books : list Book) :
  Permutation (filterBooks localeCompare books)
              (dedupe [] (filter has_title_and_year books)).
Proof. apply array_sort_perm. Qed.

(** What a record of the output went through. *)
Lemma filterBooks_In (books : list Book) (b : Book) :
  In b (filterBooks localeCompare books) ->
  In b books
  /\ has_title_and_year b = true
  /\ isExcludedTitle (normalizedTitle b) = false.
Proof.
  intros H.
  apply (Permutation_in _ (filterBooks_perm books)) in H.
  apply dedupe_In in H as (H1 & _ & H3).
  apply filter_In in H1 as [H1 H2]. auto.
Qed.

Lemma compareBooks_total :
  (forall s t, (0 < localeCompare s t)%Z -> (localeCompare t s <= 0)%Z) ->
  forall a b,
    (0 < compareBooks localeCompare a b)%Z ->
    (compareBooks localeCompare b a <= 0)%Z.
Proof.
  intros Hlc a b. unfold compareBooks. cbn zeta.
  destruct (Z.eqb_spec (yearOrZero b - yearOrZero a) 0) as [E|E];
    destruct (Z.eqb_spec (yearOrZero a - yearOrZero b) 0) as [E'|E'];
    cbn [negb]; try lia.
  apply Hlc.
Qed.

End IngestFacts.

Section MergedIngestFacts.
Import JsString Catalogue BooksPage IngestSpec.

Variable toNumber : string -> option Z.
Variable localeCompare : string -> string -> Z.

Lemma merged_dedupe_In (books : list MergedIngest.MergedBook) :
  forall seen b, In b (MergedIngest.dedupe seen books) -> In b books.
Proof.
  induction books as [|x r IH]; intros seen b H;
    cbn [MergedIngest.dedupe] in H; [contradiction|].
  destruct (seen_has seen _); [right; now apply (IH seen)|].
  destruct (isExcludedTitle _); [right; now apply (IH _ _ H)|].
  destruct H as [<- | H]; [now left | right; now apply (IH _ _ H)].
Qed.

Lemma merged_filterBooks_In (books : list MergedIngest.MergedBook)
    (b : MergedIngest.MergedBook) :
  In b (MergedIngest.filterBooks toNumber localeCompare books) ->
  In b books /\ MergedIngest.has_title_and_year b = true.
Proof.
  intros H.
  apply (Permutation_in _ (array_sort_perm _ _)) in H.
  apply merged_dedupe_In in H. now apply filter_In in H.
Qed.

Lemma merged_kept_has_title (b : MergedIngest.MergedBook) :
  MergedIngest.has_title_and_year b = true ->
  exists t, MergedIngest.merged_title b = Some t.
Proof.
  unfold MergedIngest.has_title_and_year, truthy_string.
  destruct (MergedIngest.merged_title b) as [t|]; [eauto | discriminate].
Qed.

Lemma merged_compareBooks_total :
  (forall s t, (0 < localeCompare s t)%Z -> (localeCompare t s <= 0)%Z) ->
  forall a b,
    (0 < MergedIngest.compareBooks toNumber localeCompare a b)%Z ->
    (MergedIngest.compareBooks toNumber localeCompare b a <= 0)%Z.
Proof.
  intros Hlc a b. unfold MergedIngest.compareBooks.
  destruct (MergedIngest.yearNumber toNumber a) as [ya|];
    destruct (MergedIngest.yearNumber toNumber b) as [yb|];
    cbn zeta; try lia.
  destruct (Z.eqb_spec (yb - ya) 0) as [E|E];
    destruct (Z.eqb_spec (ya - yb) 0) as [E'|E'];
    cbn [negb]; try lia.
  apply Hlc.
Qed.

(** On records whose years are numbers the two readings of
    [filterBooks] are one: the typed records of the page are the merged
    records with a number for a year. *)
Lemma merged_dedupe_ofBook (books : list Book) :
  forall seen,
    MergedIngest.dedupe seen (map MergedIngest.ofBook books)
    = map MergedIngest.ofBook (dedupe seen books).
Proof.
  induction books as [|x r IH]; intros seen; [reflexivity|].
  cbn [map MergedIngest.dedupe dedupe].
  change (MergedIngest.titleText (MergedIngest.ofBook x)) with (titleText x).
  destruct (seen_has seen _); [apply IH|].
  destruct (isExcludedTitle _); [apply IH|].
  cbn [map]. now rewrite IH.
Qed.

Lemma merged_has_title_and_year_ofBook (b : Book) :
  MergedIngest.has_title_and_year (MergedIngest.ofBook b)
  = has_title_and_year b.
Proof.
  unfold MergedIngest.has_title_and_year, has_title_and_year,
    MergedIngest.ofBook. cbn [MergedIngest.merged_title MergedIngest.merged_year].
  now destruct (first_publish_year b).
Qed.

Lemma merged_compareBooks_ofBook (a b : Book) :
  MergedIngest.compareBooks toNumber localeCompare
    (MergedIngest.ofBook a) (MergedIngest.ofBook b)
  = compareBooks localeCompare a b.
Proof.
  unfold MergedIngest.compareBooks, compareBooks, MergedIngest.yearNumber,
    yearOrZero, MergedIngest.ofBook, MergedIngest.titleText, titleText.
  cbn [MergedIngest.merged_title MergedIngest.merged_year].
  now destruct (first_publish_year a), (first_publish_year b).
Qed.

Lemma merged_filterBooks_ofBook (books : list Book) :
  MergedIngest.filterBooks toNumber localeCompare
    (map MergedIngest.ofBook books)
  = map MergedIngest.ofBook (filterBooks localeCompare books).
Proof.
  unfold MergedIngest.filterBooks, filterBooks.
  assert (Hf : filter MergedIngest.has_title_and_year
                 (map MergedIngest.ofBook books)
               = map MergedIngest.ofBook (filter has_title_and_year books)).
  { induction books as [|x r IH]; [reflexivity|].
    cbn [map filter]. rewrite merged_has_title_and_year_ofBook, IH.
    now destruct (has_title_and_year x). }
  rewrite Hf, merged_dedupe_ofBook.
  generalize (dedupe [] (filter has_title_and_year books)). intros l.
  induction l as [|x r IH]; [reflexivity|].
  cbn [map array_sort fold_right].
  fold (array_sort (MergedIngest.compareBooks toNumber localeCompare)
          (map MergedIngest.ofBook r)).
  fold (array_sort (compareBooks localeCompare) r).
  rewrite IH. generalize (array_sort (compareBooks localeCompare) r).
  intros s. induction s as [|y s IHs]; [reflexivity|].
  cbn [map sort_insert]. rewrite merged_compareBooks_ofBook.
  destruct (compareBooks localeCompare x y <=? 0)%Z; [reflexivity|].
  cbn [map]. now rewrite IHs.
Qed.

End MergedIngestFacts.

Section IngestClaims.
Import JsString Catalogue BooksPage IngestSpec.

(** Records of one key, the key once seen: [dedupe] keeps none. *)
Lemma dedupe_all_seen (key : string) (books : list Book) :
  forall seen,
    In key seen ->
    Forall (fun r => normalizedTitle r = key) books ->
    dedupe seen books = [].
Proof.
  induction books as [|x rest IH]; intros seen Hs F; [reflexivity|].
  inversion F as [|? ? Ex Fr]; subst.
  cbn [dedupe]. fold (normalizedTitle x).
  apply seen_has_true in Hs. rewrite Hs. apply IH; [|exact Fr].
  now apply seen_has_true.
Qed.

(** C4, amended.  Whatever the raw list and the collation, no two
    records of the output of [filterBooks] have the same normalized
    (lower-cased, trimmed) title, and the record kept for a title is the
    first of the records with a title and a year that has it.  Of
    records whose titles differ by case only, at most one survives: the
    first of those that have a title and a year, and not even this one
    when the normalized title is excluded. *)
Theorem filterBooks_unique_titles
    (localeCompare : string -> string -> Z) (books : list Book) :
  NoDup (map normalizedTitle (filterBooks localeCompare books))
  /\ (forall b, In b (filterBooks localeCompare books) ->
        exists l1 l2,
          filter has_title_and_year books = l1 ++ b :: l2
          /\ forall x, In x l1 -> normalizedTitle x <> normalizedTitle b)
  /\ (forall t,
        Forall (fun r => toLowerCase (titleText r) = t)
               (filter has_title_and_year books) ->
        filterBooks localeCompare books =
          match filter has_title_and_year books with
          | [] => []
          | first :: _ => if isExcludedTitle (trim t) then [] else [first]
          end).
Proof.
  split; [|split].
  - apply (Permutation_NoDup
             (Permutation_map normalizedTitle
                (Permutation_sym (filterBooks_perm localeCompare books)))).
    apply dedupe_NoDup.
  - intros b H.
    apply (Permutation_in _ (filterBooks_perm localeCompare books)) in H.
    now apply dedupe_first in H.
  - intros t Hsame. unfold filterBooks.
    destruct (filter has_title_and_year books) as [|first rest];
      [reflexivity|].
    assert (Hkey : Forall (fun r => normalizedTitle r = trim t) (first :: rest)).
    { apply Forall_forall. intros r Hr. rewrite Forall_forall in Hsame.
      unfold normalizedTitle, normalizeTitle. now rewrite (Hsame r Hr). }
    inversion Hkey as [|? ? Ef Fr]; subst.
    cbn [dedupe seen_has existsb]. fold (normalizedTitle first). rewrite Ef.
    rewrite (dedupe_all_seen (trim t) rest [trim t]); [|now left | exact Fr].
    now destruct (isExcludedTitle (trim t)).
Qed.

(** A raw list for the examples: the same title three times with
    different case and white space, a record without a year, a
    large-print edition and a second title of the same year. *)
Definition sampleBooks : list Book :=
  [ mkBook (Some "Casual Vacancy") (Some 2012%Z) (Some "/works/OL1W") None None;
    mkBook (Some "CASUAL VACANCY") (Some 2013%Z) None None None;
    mkBook (Some "The Ickabog") None None None None;
    mkBook (Some " casual vacancy ") (Some 2012%Z) None None None;
    mkBook (Some "The Christmas Pig (large print)") (Some 2021%Z) None None None;
    mkBook (Some "A Year in the Life") (Some 2012%Z) None None None ].

Lemma filterBooks_unique_titles_witness :
  filterBooks codeUnitCompare
    [ mkBook (Some "Casual Vacancy") (Some 2012%Z) (Some "/works/OL1W") None None;
      mkBook (Some "CASUAL VACANCY") (Some 2013%Z) None None None;
      mkBook (Some "casual vacancy") (Some 2012%Z) None None None ]
  = [ mkBook (Some "Casual Vacancy") (Some 2012%Z) (Some "/works/OL1W") None None ].
Proof.
  apply (proj2 (proj2 (filterBooks_unique_titles codeUnitCompare
    [ mkBook (Some "Casual Vacancy") (Some 2012%Z) (Some "/works/OL1W") None None;
      mkBook (Some "CASUAL VACANCY") (Some 2013%Z) None None None;
      mkBook (Some "casual vacancy") (Some 2012%Z) None None None ]))
    "casual vacancy").
  repeat constructor.
Defined.

(** C4, as the specification has it, fails in its second part: the
    record that survives is not always the first occurrence, and it is
    not always one.  Of two records of one title, the first without a
    year, the second survives; and of two records of an excluded title
    none does. *)
Theorem filterBooks_first_occurrence_lost :
  (forall localeCompare,
     filterBooks localeCompare
       [ mkBook (Some "Casual Vacancy") None (Some "/works/OL1W") None None;
         mkBook (Some "CASUAL VACANCY") (Some 2012%Z) None None None ]
     = [ mkBook (Some "CASUAL VACANCY") (Some 2012%Z) None None None ])
  /\ (forall localeCompare,
        filterBooks localeCompare
          [ mkBook (Some "Box Set") (Some 2001%Z) None None None;
            mkBook (Some "BOX SET") (Some 2002%Z) None None None ]
        = []).
Proof. split; intros localeCompare; reflexivity. Qed.



Lemma codeUnitCompare_total (s t : string) :
  (0 < codeUnitCompare s t)%Z -> (codeUnitCompare t s <= 0)%Z.
Proof.
  unfold codeUnitCompare. rewrite (String.compare_antisym t s).
  destruct (String.compare s t); cbn [CompOpp]; lia.
Qed.

(** C6, amended.  On a raw list whose years are numbers (or texts that
    write a number), the output of [filterBooks] is sorted: of two
    neighbours, either the first has the greater year, or the years are
    equal and the title of the first does not come after the title of
    the second in the collation of the host ([localeCompare], of which
    only that it orders any two strings is used). *)
Theorem filterBooks_sorted
    (toNumber : string -> option Z) (localeCompare : string -> string -> Z)
    (books : list MergedIngest.MergedBook) :
  (forall s t, (0 < localeCompare s t)%Z -> (localeCompare t s <= 0)%Z) ->
  (forall b, In b books -> MergedIngest.has_title_and_year b = true ->
             MergedIngest.yearNumber toNumber b <> None) ->
  forall i a b,
    nth_error (MergedIngest.filterBooks toNumber localeCompare books) i
    = Some a ->
    nth_error (MergedIngest.filterBooks toNumber localeCompare books) (S i)
    = Some b ->
    MergedIngest.in_catalogue_order toNumber localeCompare a b.
Proof.
  intros Hlc Hnum i a b Ha Hb.
  assert (Hcmp : (MergedIngest.compareBooks toNumber localeCompare a b <= 0)%Z).
  { pose proof (array_sort_sorted
                  (MergedIngest.compareBooks toNumber localeCompare)
                  (merged_compareBooks_total toNumber localeCompare Hlc)
                  (MergedIngest.dedupe []
                     (filter MergedIngest.has_title_and_year books))) as Hs.
    exact (Sorted_neighbours
             (fun x y =>
                (MergedIngest.compareBooks toNumber localeCompare x y <= 0)%Z)
             _ Hs i a b Ha Hb). }
  apply nth_error_In, merged_filterBooks_In in Ha as [Hia Hva].
  apply nth_error_In, merged_filterBooks_In in Hb as [Hib Hvb].
  pose proof (Hnum a Hia Hva) as Hna. pose proof (Hnum b Hib Hvb) as Hnb.
  apply merged_kept_has_title in Hva as [ta Hta].
  apply merged_kept_has_title in Hvb as [tb Htb].
  destruct (MergedIngest.yearNumber toNumber a) as [ya|] eqn:Hya;
    [|contradiction].
  destruct (MergedIngest.yearNumber toNumber b) as [yb|] eqn:Hyb;
    [|contradiction].
  exists ya, yb, ta, tb. repeat split; try assumption.
  unfold MergedIngest.compareBooks, MergedIngest.titleText in Hcmp.
  rewrite Hta, Htb, Hya, Hyb in Hcmp. cbn zeta in Hcmp.
  destruct (Z.eqb_spec (yb - ya) 0) as [E|E]; cbn [negb] in Hcmp.
  - right. split; [lia | exact Hcmp].
  - left. lia.
Qed.

(** [ToNumber] on the year texts of the examples: "2012" writes a
    number, a date in words does not. *)
Definition sampleToNumber (s : string) : option Z :=
  if String.eqb s "2012" then Some 2012%Z else None.

(** Merged records for the examples: two years as numbers and one as
    the text of a work's [first_publish_date]. *)
Definition sampleMerged : list MergedIngest.MergedBook :=
  [ MergedIngest.mkMergedBook (Some "The Casual Vacancy")
      (Some (MergedIngest.YearText "2012"));
    MergedIngest.mkMergedBook (Some "The Ickabog")
      (Some (MergedIngest.YearNumber 2020));
    MergedIngest.mkMergedBook (Some "A Year in the Life")
      (Some (MergedIngest.YearNumber 2012)) ].

Lemma filterBooks_sorted_witness :
  MergedIngest.filterBooks sampleToNumber codeUnitCompare sampleMerged
  = [ MergedIngest.mkMergedBook (Some "The Ickabog")
        (Some (MergedIngest.YearNumber 2020));
      MergedIngest.mkMergedBook (Some "A Year in the Life")
        (Some (MergedIngest.YearNumber 2012));
      MergedIngest.mkMergedBook (Some "The Casual Vacancy")
        (Some (MergedIngest.YearText "2012")) ]
  /\ MergedIngest.in_catalogue_order sampleToNumber codeUnitCompare
       (MergedIngest.mkMergedBook (Some "A Year in the Life")
          (Some (MergedIngest.YearNumber 2012)))
       (MergedIngest.mkMergedBook (Some "The Casual Vacancy")
          (Some (MergedIngest.YearText "2012"))).
Proof.
  split; [vm_compute; reflexivity|].
  apply (filterBooks_sorted sampleToNumber codeUnitCompare sampleMerged
           codeUnitCompare_total) with (i := 1).
  - intros b Hb _. cbn [sampleMerged In] in Hb.
    destruct Hb as [<- | [<- | [<- | []]]]; vm_compute; discriminate.
  - vm_compute. reflexivity.
  - vm_compute. reflexivity.
Defined.

(** C6, as the specification has it, fails, in two ways.  Titles of one
    year come in the order of the host's collation, not in the order of
    their code units: a collation that puts "apple" before "Cherry", as
    the host's does, gives an output in which the first title is greater
    than the second, code unit by code unit, so that the two do not
    stand in the order the specification asks for.  And a record whose year is
    a date in words, as the merge takes it from [first_publish_date],
    compares as NaN with every other one: it is left where it is, and
    its year is neither greater than nor equal to its neighbour's, in
    whichever order the two stand. *)
Theorem filterBooks_order_not_as_claimed :
  (forall localeCompare,
     (0 < localeCompare "Cherry" "apple")%Z ->
     filterBooks localeCompare
       [ mkBook (Some "Cherry") (Some 2000%Z) None None None;
         mkBook (Some "apple") (Some 2000%Z) None None None ]
     = [ mkBook (Some "apple") (Some 2000%Z) None None None;
         mkBook (Some "Cherry") (Some 2000%Z) None None None ])
  /\ ~ in_catalogue_order codeUnitCompare
         (mkBook (Some "apple") (Some 2000%Z) None None None)
         (mkBook (Some "Cherry") (Some 2000%Z) None None None)
  /\ (forall toNumber localeCompare,
        toNumber "June 26, 1997" = None ->
        let stone :=
          MergedIngest.mkMergedBook
            (Some "Harry Potter and the Philosopher's Stone")
            (Some (MergedIngest.YearText "June 26, 1997")) in
        let vacancy :=
          MergedIngest.mkMergedBook (Some "The Casual Vacancy")
            (Some (MergedIngest.YearNumber 2012)) in
        MergedIngest.filterBooks toNumber localeCompare [stone; vacancy]
        = [stone; vacancy]
        /\ (forall collate,
              ~ MergedIngest.in_catalogue_order toNumber collate stone vacancy
              /\ ~ MergedIngest.in_catalogue_order toNumber collate vacancy stone)).
Proof.
  split; [|split].
  - intros localeCompare H. unfold filterBooks.
    replace (dedupe [] (filter has_title_and_year
               [ mkBook (Some "Cherry") (Some 2000%Z) None None None;
                 mkBook (Some "apple") (Some 2000%Z) None None None ]))
      with [ mkBook (Some "Cherry") (Some 2000%Z) None None None;
             mkBook (Some "apple") (Some 2000%Z) None None None ]
      by (vm_compute; reflexivity).
    cbn [array_sort fold_right sort_insert].
    change (compareBooks localeCompare
              (mkBook (Some "Cherry") (Some 2000%Z) None None None)
              (mkBook (Some "apple") (Some 2000%Z) None None None))
      with (localeCompare "Cherry" "apple").
    destruct (Z.leb_spec (localeCompare "Cherry" "apple") 0) as [L|L];
      [lia | reflexivity].
  - intros (ya & yb & ta & tb & Hya & Hyb & Hta & Htb & [H | [_ H]]);
      cbn [first_publish_year title] in *.
    + injection Hya as <-. injection Hyb as <-. lia.
    + injection Hta as <-. injection Htb as <-. vm_compute in H.
      now apply H.
  - intros toNumber localeCompare Hnan stone vacancy.
    assert (Hs : MergedIngest.yearNumber toNumber stone = None) by exact Hnan.
    split.
    + unfold MergedIngest.filterBooks.
      replace (MergedIngest.dedupe []
                 (filter MergedIngest.has_title_and_year [stone; vacancy]))
        with [stone; vacancy] by (vm_compute; reflexivity).
      cbn [array_sort fold_right sort_insert].
      assert (C : MergedIngest.compareBooks toNumber localeCompare
                    stone vacancy = 0%Z).
      { unfold MergedIngest.compareBooks. rewrite Hs.
        now destruct (MergedIngest.yearNumber toNumber vacancy). }
      now rewrite C.
    + intros collate. unfold MergedIngest.in_catalogue_order.
      split; intros (ya & yb & ta & tb & H1 & H2 & _); congruence.
Qed.

End IngestClaims.

(* ================================================================== *)
(** * [fetchDetailedJKRowlingBooks]: the cascade of fallbacks *)
(* ================================================================== *)

Section FetchFacts.
Import JsString ApiService.

Variable workDetail : nat -> JsVal.
Variables worksCall searchCall retryCall : Completion Response.

(** The combined fetch fails: a call rejects, or an answer is not [ok]. *)
Definition combined_fetch_fails : Prop :=
  worksCall = Throw
  \/ searchCall = Throw
  \/ (exists wr sr, worksCall = Normal wr /\ searchCall = Normal sr
                    /\ (truthy (ok wr) = false \/ truthy (ok sr) = false)).

(** The search call of the retry fails: it rejects, or its body has no
    properties to read. *)
Definition retry_fails : Prop :=
  retryCall = Throw
  \/ (exists sr, retryCall = Normal sr /\ nullish (body sr) = true).

Lemma combined_fetch_fails_throws :
  combined_fetch_fails ->
  combinedAttempt workDetail worksCall searchCall = Throw.
Proof.
  unfold combinedAttempt.
  intros [-> | [-> | (wr & sr & -> & -> & H)]]; cbn [bind].
  - reflexivity.
  - now destruct worksCall.
  - destruct H as [-> | ->]; cbn [negb orb]; [reflexivity|].
    now rewrite orb_true_r.
Qed.

Lemma prop_throws (v : JsVal) (k : string) :
  prop v k = Throw <-> nullish v = true.
Proof. destruct v; cbn; split; congruence. Qed.

Lemma searchOnlyRetry_throws :
  searchOnlyRetry retryCall = Throw <-> retry_fails.
Proof.
  unfold searchOnlyRetry, retry_fails. split.
  - destruct retryCall as [sr|]; cbn [bind]; [|now left].
    destruct (prop (body sr) "docs") eqn:P; cbn [bind]; [discriminate|].
    intros _. right. exists sr. split; [reflexivity|].
    now apply (prop_throws _ "docs").
  - intros [-> | (sr & -> & H)]; cbn [bind]; [reflexivity|].
    apply (prop_throws _ "docs") in H. now rewrite H.
Qed.

End FetchFacts.

Section FetchClaims.
Import JsString ApiService.

(** C9.  The cascade of [fetchDetailedJKRowlingBooks].
    - When both answers of the combined fetch are there and [ok] and the
      merge step throws, the result is the raw search hits ([docs], an
      empty list when there are none), [total] being their number.
    - When the combined fetch fails, the result is the one of the retry
      with the search endpoint alone: its [docs] (an empty list when
      there are none) and their number.
    - The function throws only if the first attempt threw and the
      search call of the retry fails as well; it then throws what the
      retry threw. *)
Theorem fetchDetailed_cascade
    (workDetail : nat -> JsVal)
    (worksCall searchCall retryCall : Completion Response) :
  let result :=
    fetchDetailedJKRowlingBooks workDetail worksCall searchCall retryCall in
  (forall wr sr docs,
      worksCall = Normal wr -> searchCall = Normal sr ->
      truthy (ok wr) = true -> truthy (ok sr) = true ->
      prop (body sr) "docs" = Normal docs ->
      (entries <- prop (body wr) "entries" ;;
       enhanceBookData workDetail entries docs) = Throw ->
      result = Normal (mkCatalogResult (jsOr docs (JArr []))
                         (lengthOf (jsOr docs (JArr []))))
      /\ forall hits,
           docs = JArr hits ->
           result = Normal (mkCatalogResult (JArr hits)
                              (JNum (Z.of_nat (List.length hits)))))
  /\ (combined_fetch_fails worksCall searchCall ->
      result = searchOnlyRetry retryCall
      /\ forall sr docs,
           retryCall = Normal sr -> prop (body sr) "docs" = Normal docs ->
           result = Normal (mkCatalogResult
                              (jsOr docs (JArr []))
                              (match docs with
                               | JArr hits => JNum (Z.of_nat (List.length hits))
                               | _ => jsOr (if nullish docs then JUndefined
                                            else lengthOf docs) (JNum 0)
                               end)))
  /\ (result = Throw <->
      combinedAttempt workDetail worksCall searchCall = Throw
      /\ retry_fails retryCall).
Proof.
  cbn zeta. unfold fetchDetailedJKRowlingBooks. split; [|split].
  - intros wr sr docs -> -> Hw Hs Hdocs Hthrow.
    assert (E : try_catch
                  (combinedAttempt workDetail (Normal wr) (Normal sr))
                  (searchOnlyRetry retryCall)
                = Normal (mkCatalogResult (jsOr docs (JArr []))
                            (lengthOf (jsOr docs (JArr []))))).
    { unfold combinedAttempt, enhanceOrSearch. cbn [bind].
      rewrite Hw, Hs. cbn [negb orb].
      rewrite Hdocs.
      destruct (prop (body wr) "entries") as [entries|]; cbn [bind] in *.
      - rewrite Hthrow. reflexivity.
      - reflexivity. }
    split; [exact E|]. intros hits ->. exact E.
  - intros Hfail.
    rewrite (combined_fetch_fails_throws workDetail _ _ Hfail).
    cbn [try_catch]. split; [reflexivity|].
    intros sr docs -> Hdocs. unfold searchOnlyRetry. cbn [bind].
    rewrite Hdocs. cbn [bind]. f_equal. f_equal.
    destruct docs as [| | | | |hits|]; try reflexivity.
    cbn [nullish lengthOf jsOr truthy].
    destruct hits; reflexivity.
  - rewrite <- (searchOnlyRetry_throws retryCall).
    destruct (combinedAttempt workDetail worksCall searchCall);
      cbn [try_catch]; split.
    + discriminate.
    + intros [H _]. discriminate.
    + intros H. now split.
    + intros [_ H]. exact H.
Qed.

(** A work entry that is [null] makes the merge throw; the search hits
    are delivered as they came. *)
Lemma fetchDetailed_cascade_witness :
  fetchDetailedJKRowlingBooks (fun _ => JNull)
    (Normal (mkResponse (JBool true) (JObj [("entries", JArr [JNull])])))
    (Normal (mkResponse (JBool true)
               (JObj [("docs", JArr [JObj [("title", JStr "The Ickabog")]])])))
    Throw
  = Normal (mkCatalogResult (JArr [JObj [("title", JStr "The Ickabog")]])
              (JNum 1))
  /\ fetchDetailedJKRowlingBooks (fun _ => JNull)
       Throw
       (Normal (mkResponse (JBool true) (JObj [("docs", JArr [])])))
       (Normal (mkResponse (JBool true)
                  (JObj [("docs", JArr [JObj [("title", JStr "The Ickabog")]])])))
     = Normal (mkCatalogResult (JArr [JObj [("title", JStr "The Ickabog")]])
                 (JNum 1)).
Proof.
  split.
  - refine (proj2 (proj1 (fetchDetailed_cascade (fun _ => JNull)
              (Normal (mkResponse (JBool true) (JObj [("entries", JArr [JNull])])))
              (Normal (mkResponse (JBool true)
                 (JObj [("docs", JArr [JObj [("title", JStr "The Ickabog")]])])))
              Throw)
              _ _ _ eq_refl eq_refl eq_refl eq_refl eq_refl eq_refl)
              _ eq_refl).
  - refine (proj2 (proj1 (proj2 (fetchDetailed_cascade (fun _ => JNull)
              Throw
              (Normal (mkResponse (JBool true) (JObj [("docs", JArr [])])))
              (Normal (mkResponse (JBool true)
                 (JObj [("docs", JArr [JObj [("title", JStr "The Ickabog")]])])))))
              _) _ (JArr [JObj [("title", JStr "The Ickabog")]]) eq_refl eq_refl).
    left. reflexivity.
Defined.

End FetchClaims.

(* ================================================================== *)
(** * [generateBookDescription]: what it returns and when it throws *)
(* ================================================================== *)

Section DescriptionFacts.
Import JsString Catalogue ApiService.

Variable datasetCall : Completion DatasetResponse.

(** The lookup in the dataset never throws: its handler turns every
    failure into [null]. *)
Lemma fetchFromGoodreadsDataset_returns (book : Book) :
  exists r, fetchFromGoodreadsDataset datasetCall book = Normal r.
Proof.
  unfold fetchFromGoodreadsDataset.
  match goal with
  | |- exists r, try_catch ?c _ = _ => destruct c as [r|]
  end; cbn [try_catch]; eauto.
Qed.

(** The failures of the lookup, each of which gives [null]. *)
Definition lookup_fails : Prop :=
  datasetCall = Throw
  \/ (exists response, datasetCall = Normal response
        /\ (dataset_ok response = false
            \/ dataset_json response = Throw
            \/ dataset_json response = Normal None)).

Lemma lookup_fails_null (book : Book) :
  lookup_fails -> fetchFromGoodreadsDataset datasetCall book = Normal None.
Proof.
  unfold fetchFromGoodreadsDataset.
  intros [-> | (response & -> & [H | [H | H]])]; cbn [bind try_catch].
  - reflexivity.
  - now rewrite H.
  - rewrite H. now destruct (dataset_ok response).
  - rewrite H. now destruct (dataset_ok response).
Qed.

Lemma getFallbackDescription_titled (book : Book) (t : string) :
  title book = Some t ->
  getFallbackDescription book =
    Normal (fallbackTemplate (toLowerCase t)
              (toLowerCase
                 (join (match subject book with Some l => l | None => [] end)
                       " "))).
Proof.
  intros H. unfold getFallbackDescription, lowerTitle. now rewrite H.
Qed.

End DescriptionFacts.

Section DescriptionClaims.
Import JsString Catalogue ApiService.

(** Outside of the data model: an object without a title is no book
    record (the title is required, and [filterBooks] keeps titled
    records only, lemma [kept_has_title]).  On such an object the
    rule-based template throws (it starts with
    [book.title.toLowerCase()]), and so does [generateBookDescription],
    which calls it outside of the [try]. *)
Lemma generateBookDescription_untitled_throws :
  generateBookDescription Throw (mkBook None (Some 2012%Z) None None None)
  = Throw
  /\ generateBookDescription
       (Normal (mkDatasetResponse true (Normal (Some []))))
       (mkBook None (Some 2012%Z) None None None)
     = Throw
  /\ ~ (exists s,
         generateBookDescription Throw
           (mkBook None (Some 2012%Z) None None None) = Normal s).
Proof.
  repeat split; try reflexivity.
  intros [s H]. discriminate H.
Qed.

(** C2.  For every book record (its title is a string and its
    subjects, where it has some, are a sequence of strings, as the data
    model has it and as every caller passes it), whatever the dataset
    server does, [generateBookDescription] does not throw and returns a
    string; the lookup itself never throws; when the lookup fails (the
    request rejects, the status is an error, the body is not JSON or has
    no rows) or finds nothing, the result is the one of the rule-based
    template [getFallbackDescription]. *)
Theorem generateBookDescription_returns
    (datasetCall : Completion DatasetResponse) (book : Book) (t : string) :
  title book = Some t ->
  (exists s, generateBookDescription datasetCall book = Normal s)
  /\ (exists s, getFallbackDescription book = Normal s)
  /\ (exists r, fetchFromGoodreadsDataset datasetCall book = Normal r)
  /\ (lookup_fails datasetCall ->
      fetchFromGoodreadsDataset datasetCall book = Normal None)
  /\ (fetchFromGoodreadsDataset datasetCall book = Normal None ->
      generateBookDescription datasetCall book = getFallbackDescription book).
Proof.
  intros Ht.
  pose proof (getFallbackDescription_titled book t Ht) as Hf.
  destruct (fetchFromGoodreadsDataset_returns datasetCall book) as [r Hr].
  repeat split.
  - unfold generateBookDescription. rewrite Hr. cbn [try_catch].
    destruct r as [g|]; [|rewrite Hf; eauto].
    destruct (negb (String.eqb g "")); [eauto | rewrite Hf; eauto].
  - rewrite Hf. eauto.
  - eauto.
  - apply lookup_fails_null.
  - intros Hn. unfold generateBookDescription. now rewrite Hn.
Qed.

Lemma generateBookDescription_returns_witness :
  generateBookDescription Throw
    (mkBook (Some "The Casual Vacancy") (Some 2012%Z) None
            (Some ["Fiction"; "England"]) None)
  = Normal "A darkly comic and deeply moving novel that explores the hidden tensions and conflicts within a seemingly idyllic English town.".
Proof.
  destruct (generateBookDescription_returns Throw
              (mkBook (Some "The Casual Vacancy") (Some 2012%Z) None
                      (Some ["Fiction"; "England"]) None)
              "The Casual Vacancy" eq_refl)
    as (_ & _ & _ & Hnull & Hfall).
  rewrite (Hfall (Hnull (or_introl eq_refl))).
  vm_compute. reflexivity.
Defined.

End DescriptionClaims.

(* ================================================================== *)
(** * [enhanceBookData]: the vocabulary of the merge *)
(* ================================================================== *)

Module MergeSpec.
Import JsString ApiService.

(** The first candidate that is truthy, [otherwise] when none is: what
    a chain [c1 || c2 || ... || otherwise] evaluates to. *)
Fixpoint prefer (candidates : list JsVal) (otherwise : JsVal) : JsVal :=
  match candidates with
  | [] => otherwise
  | c :: rest => if truthy c then c else prefer rest otherwise
  end.

(** The precedence the specification gives for every field: the search
    hit, then the work detail, then the bare work. *)
Definition search_first (field : string) (work searchMatch detailedWork : JsVal)
  : JsVal :=
  prefer [optProp searchMatch field; optProp detailedWork field]
         (optProp work field).

(** The title of a record as a string, when it has one that is not
    empty. *)
Definition titleOf (v : JsVal) : option string :=
  match optProp v "title" with
  | JStr s => if String.eqb s "" then None else Some s
  | _ => None
  end.

(** The key under which a work is recorded as processed: its title,
    lower-cased. *)
Definition workKey (work : JsVal) : option string :=
  option_map toLowerCase (titleOf work).

(** The key of a search hit in the lookup: its title, lower-cased and
    trimmed. *)
Definition hitKey (hit : JsVal) : option string :=
  option_map normalizeTitle (titleOf hit).

(** The normalized (lower-cased, trimmed) title of a record. *)
Definition recordKey (r : JsVal) : option string :=
  option_map normalizeTitle (titleOf r).

Definition option_is (k : string) (o : option string) : bool :=
  match o with
  | Some k' => String.eqb k' k
  | None => false
  end.

(** The search hit the lookup holds for a key: the last hit of the
    list that has the key. *)
Fixpoint lastHit (k : string) (hits : list JsVal) : option JsVal :=
  match hits with
  | [] => None
  | hit :: rest =>
      match lastHit k rest with
      | Some later => Some later
      | None => if option_is k (hitKey hit) then Some hit else None
      end
  end.

(** [searchBooksMap.get(k)] in these terms. *)
Definition searchMatchFor (k : string) (hits : list JsVal) : JsVal :=
  match lastHit k hits with
  | Some hit => hit
  | None => JUndefined
  end.

(** No work before position [i] has the key [k]. *)
Definition first_with_key (works : list JsVal) (i : nat) (k : string) : Prop :=
  forall j w, j < i -> nth_error works j = Some w -> workKey w <> Some k.

End MergeSpec.

Section MergeFacts.
Import JsString ApiService MergeSpec.

Variable workDetail : nat -> JsVal.

Lemma titleOf_prop (v : JsVal) (s : string) :
  titleOf v = Some s ->
  prop v "title" = Normal (JStr s) /\ truthy (JStr s) = true.
Proof.
  unfold titleOf. destruct v; cbn [optProp prop]; try discriminate.
  destruct (fieldGet "title" l) as [| | | |s'| |]; try discriminate.
  cbn [truthy]. destruct (String.eqb s' "") eqn:E; [discriminate|].
  intros [= ->]. now rewrite E.
Qed.

(** A visit of the loops that does not throw has read a title: none,
    or a string. *)
Lemma visit_title (v : JsVal) (t : JsVal) :
  prop v "title" = Normal t ->
  (truthy t = false /\ titleOf v = None)
  \/ (exists s, t = JStr s /\ truthy t = true /\ titleOf v = Some s)
  \/ (truthy t = true /\ lowerOf t = Throw).
Proof.
  unfold titleOf.
  destruct v; cbn [prop optProp]; try discriminate;
    try (intros [= <-]; left; split; reflexivity).
  intros [= <-].
  destruct (fieldGet "title" l) as [| |b|z|s|a|o]; cbn [truthy lowerOf].
  - left; auto.
  - left; auto.
  - destruct b; [right; right; auto | left; auto].
  - destruct (Z.eqb z 0); [left; auto | right; right; auto].
  - destruct (String.eqb s ""); [left; auto|].
    right; left. exists s. auto.
  - right; right; auto.
  - right; right; auto.
Qed.

(** The lookup built by the first loop holds, for every key, the last
    hit of the list that has it. *)
Lemma buildSearchMap_get (hits : list JsVal) :
  forall m0 m k,
    buildSearchMap hits m0 = Normal m ->
    mapGet k m = match lastHit k hits with
                 | Some hit => hit
                 | None => mapGet k m0
                 end.
Proof.
  induction hits as [|hit rest IH]; intros m0 m k H; cbn [buildSearchMap] in H.
  - injection H as <-. reflexivity.
  - cbn [lastHit].
    destruct (prop hit "title") as [t|] eqn:P; cbn [bind] in H; [|discriminate].
    destruct (visit_title _ _ P) as [[Tf Tn] | [(s & -> & Tt & Ts) | [Tt Tl]]].
    + rewrite Tf in H. rewrite (IH _ _ k H).
      unfold hitKey. rewrite Tn. cbn [option_map option_is].
      now destruct (lastHit k rest).
    + rewrite Tt in H. cbn [lowerOf bind] in H. rewrite (IH _ _ k H).
      unfold hitKey. rewrite Ts. cbn [option_map option_is mapGet].
      unfold normalizeTitle. destruct (lastHit k rest); [reflexivity|].
      now destruct (String.eqb (trim (toLowerCase s)) k).
    + rewrite Tt, Tl in H. discriminate.
Qed.

Lemma titles_has_true (titles : list string) (k : string) :
  titles_has titles k = true <-> In k titles.
Proof.
  unfold titles_has. rewrite existsb_exists. split.
  - intros (x & Hx & E). apply String.eqb_eq in E. now subst.
  - intros H. exists k. split; [exact H | apply String.eqb_refl].
Qed.

Lemma titles_has_false (titles : list string) (k : string) :
  titles_has titles k = false <-> ~ In k titles.
Proof.
  rewrite <- titles_has_true. destruct (titles_has titles k); split; congruence.
Qed.

(** The loops only add: records and keys stay. *)
Lemma processWorks_keeps (m : SearchMap) (works : list JsVal) :
  forall i st st',
    processWorks workDetail m i works st = Normal st' ->
    (forall r, In r (enhancedBooks st) -> In r (enhancedBooks st'))
    /\ (forall k, In k (processedTitles st) -> In k (processedTitles st')).
Proof.
  induction works as [|work rest IH]; intros i st st' H; cbn [processWorks] in H.
  - injection H as <-. auto.
  - destruct (prop work "title") as [t|]; cbn [bind] in H; [|discriminate].
    destruct (truthy t); cbn [negb] in H; [|now apply IH in H].
    destruct (lowerOf t) as [l|]; cbn [bind] in H; [|discriminate].
    destruct (titles_has (processedTitles st) l); [now apply IH in H|].
    apply IH in H as [H1 H2]. cbn [enhancedBooks processedTitles] in H1, H2.
    split.
    + intros r Hr. apply H1. apply in_or_app. now left.
    + intros k Hk. apply H2. now right.
Qed.

Lemma addSearchOnly_keeps (hits : list JsVal) :
  forall st st',
    addSearchOnly hits st = Normal st' ->
    (forall r, In r (enhancedBooks st) -> In r (enhancedBooks st'))
    /\ (forall k, In k (processedTitles st) -> In k (processedTitles st')).
Proof.
  induction hits as [|hit rest IH]; intros st st' H; cbn [addSearchOnly] in H.
  - injection H as <-. auto.
  - destruct (prop hit "title") as [t|]; cbn [bind] in H; [|discriminate].
    destruct (truthy t); cbn [negb] in H; [|now apply IH in H].
    destruct (lowerOf t) as [l|]; cbn [bind] in H; [|discriminate].
    destruct (titles_has (processedTitles st) l); [now apply IH in H|].
    apply IH in H as [H1 H2]. cbn [enhancedBooks processedTitles] in H1, H2.
    split.
    + intros r Hr. apply H1. apply in_or_app. now left.
    + intros k Hk. apply H2. now right.
Qed.

(** The first work of a key is merged with the search hit of the key
    and with what the work endpoint gave for it. *)
Lemma processWorks_adds (m : SearchMap) (works : list JsVal) :
  forall i st st' j work t,
    processWorks workDetail m i works st = Normal st' ->
    nth_error works j = Some work ->
    titleOf work = Some t ->
    ~ In (toLowerCase t) (processedTitles st) ->
    first_with_key works j (toLowerCase t) ->
    In (enhancedBook work (mapGet (toLowerCase t) m)
          (if truthy (optProp work "key") then workDetail (i + j) else JNull))
       (enhancedBooks st').
Proof.
  induction works as [|w0 rest IH]; intros i st st' j work t H Hn Ht Hfresh Hfirst.
  - destruct j; discriminate.
  - cbn [processWorks] in H.
    destruct j as [|j].
    + cbn in Hn. injection Hn as ->.
      destruct (titleOf_prop _ _ Ht) as [P T].
      rewrite P in H. cbn [bind] in H. rewrite T in H.
      cbn [negb lowerOf bind] in H.
      apply titles_has_false in Hfresh. rewrite Hfresh in H.
      apply processWorks_keeps in H as [H _]. apply H.
      cbn [enhancedBooks]. apply in_or_app. right.
      rewrite Nat.add_0_r. now left.
    + cbn [nth_error] in Hn.
      assert (Hfirst' : first_with_key rest j (toLowerCase t)).
      { intros j' w' Hj Hw. apply (Hfirst (S j') w'); [lia | exact Hw]. }
      assert (H0 : workKey w0 <> Some (toLowerCase t)).
      { apply (Hfirst 0 w0); [lia | reflexivity]. }
      replace (i + S j) with (S i + j) by lia.
      destruct (prop w0 "title") as [t0|] eqn:P; cbn [bind] in H; [|discriminate].
      destruct (visit_title _ _ P) as [[Tf _] | [(s & -> & Tt & Ts) | [Tt Tl]]].
      * rewrite Tf in H. cbn [negb] in H. eapply IH; eassumption.
      * rewrite Tt in H. cbn [negb lowerOf bind] in H.
        destruct (titles_has (processedTitles st) (toLowerCase s));
          [eapply IH; eassumption|].
        eapply IH; try eassumption.
        cbn [processedTitles]. intros [E | Hin]; [|now apply Hfresh].
        apply H0. unfold workKey. rewrite Ts. cbn [option_map]. now rewrite E.
      * rewrite Tt, Tl in H. discriminate.
Qed.

End MergeFacts.

Section MergeClaims.
Import JsString ApiService MergeSpec.

(** A work, the search hit of the same title and the detail record of
    the work, for the examples. *)
Definition cursedChildWork : JsVal :=
  JObj [ ("title", JStr "Harry Potter and the Cursed Child");
         ("key", JStr "/works/OL17358795W");
         ("covers", JArr [JNum 8234423]);
         ("first_publish_date", JStr "2016") ].

Definition cursedChildHit : JsVal :=
  JObj [ ("title", JStr "Harry Potter and the Cursed Child");
         ("first_publish_year", JNum 2016);
         ("first_publish_date", JStr "July 31, 2016");
         ("subtitle", JStr "Parts One and Two");
         ("language", JArr [JStr "eng"; JStr "fre"]);
         ("subject", JArr [JStr "Drama"]) ].

Definition cursedChildDetail : JsVal :=
  JObj [ ("subtitle", JStr "Parts I & II");
         ("subjects", JArr [JStr "Magic"; JStr "Wizards"]);
         ("description", JObj [("type", JStr "/type/text");
                               ("value", JStr "The eighth story.")]) ].

(** C1, as the specification has it, fails.  The work above has a
    matching search hit and a detail record; the merged record takes
    [first_publish_date] from the bare work although the search hit has
    one, and [subtitle] from the work detail although the search hit
    has one. *)
Lemma enhanceBookData_not_search_first :
  exists merged,
    enhanceBookData (fun _ => cursedChildDetail)
      (JArr [cursedChildWork]) (JArr [cursedChildHit]) = Normal [merged]
    /\ optProp merged "first_publish_date" = JStr "2016"
    /\ search_first "first_publish_date"
         cursedChildWork cursedChildHit cursedChildDetail
       = JStr "July 31, 2016"
    /\ optProp merged "subtitle" = JStr "Parts I & II"
    /\ search_first "subtitle"
         cursedChildWork cursedChildHit cursedChildDetail
       = JStr "Parts One and Two"
    /\ optProp merged "first_publish_date"
       <> search_first "first_publish_date"
            cursedChildWork cursedChildHit cursedChildDetail
    /\ optProp merged "subtitle"
       <> search_first "subtitle"
            cursedChildWork cursedChildHit cursedChildDetail.
Proof.
  eexists. split; [vm_compute; reflexivity|].
  repeat split; try (vm_compute; reflexivity);
    vm_compute; discriminate.
Qed.

Lemma jsOr_prefer1 (a b : JsVal) : jsOr a b = prefer [a] b.
Proof. reflexivity. Qed.

Lemma jsOr_prefer2 (a b c : JsVal) : jsOr (jsOr a b) c = prefer [a; b] c.
Proof.
  unfold jsOr. cbn [prefer].
  destruct (truthy a) eqn:A; [now rewrite A|]. reflexivity.
Qed.

(** C1, amended.  Whenever the merge returns, the first work of a
    title is in the result as a record whose fields have these sources,
    [s] being the search hit recorded under the lower-cased title of the
    work, [d] the detail record of the work and [w] the bare work, the
    first truthy one being taken:
    - [title], [key]: [w];
    - [cover_i]: [s], then the first of the covers of [w];
    - [first_publish_year]: [s], then the [first_publish_date] of [w];
    - [first_publish_date]: [w], then [s];
    - [language], [publisher], [isbn]: [s], then empty;
    - [subject]: [s], then the [subjects] of [d], then empty;
    - [description]: the [value] of the description of [d], then the
      description of [d], then the one of [w];
    - [subtitle]: [d], then [w]. *)
Theorem enhanceBookData_field_sources
    (workDetail : nat -> JsVal) (works hits out : list JsVal)
    (i : nat) (work : JsVal) (t : string) :
  enhanceBookData workDetail (JArr works) (JArr hits) = Normal out ->
  nth_error works i = Some work ->
  titleOf work = Some t ->
  first_with_key works i (toLowerCase t) ->
  let searchMatch := searchMatchFor (toLowerCase t) hits in
  let detailedWork :=
    if truthy (optProp work "key") then workDetail i else JNull in
  let w := optProp work in
  let s := optProp searchMatch in
  let d := optProp detailedWork in
  exists r,
    In r out
    /\ optProp r "title" = w "title"
    /\ optProp r "key" = w "key"
    /\ optProp r "cover_i"
       = prefer [s "cover_i"] (jsAnd (w "covers") (index0 (w "covers")))
    /\ optProp r "first_publish_year"
       = prefer [s "first_publish_year"] (w "first_publish_date")
    /\ optProp r "first_publish_date"
       = prefer [w "first_publish_date"] (s "first_publish_date")
    /\ optProp r "language" = prefer [s "language"] (JArr [])
    /\ optProp r "publisher" = prefer [s "publisher"] (JArr [])
    /\ optProp r "isbn" = prefer [s "isbn"] (JArr [])
    /\ optProp r "subject" = prefer [s "subject"; d "subjects"] (JArr [])
    /\ optProp r "description"
       = prefer [optProp (d "description") "value"; d "description"]
                (w "description")
    /\ optProp r "subtitle" = prefer [d "subtitle"] (w "subtitle").
Proof.
  intros H Hn Ht Hfirst searchMatch detailedWork w s d.
  exists (enhancedBook work searchMatch detailedWork).
  split.
  - unfold enhanceBookData in H. cbn [arrayOrEmpty] in H.
    destruct (buildSearchMap hits []) as [m|] eqn:Hm; cbn [bind] in H;
      [|discriminate].
    destruct (processWorks workDetail m 0 works (mkMerge [] [])) as [st|] eqn:Hp;
      cbn [bind] in H; [|discriminate].
    destruct (addSearchOnly hits st) as [st'|] eqn:Ha; cbn [bind] in H;
      [|discriminate].
    injection H as <-.
    apply (addSearchOnly_keeps _ _ _ Ha).
    pose proof (processWorks_adds workDetail m works 0 _ _ i work t
                  Hp Hn Ht (fun x => x) Hfirst) as Hin.
    cbn [Nat.add] in Hin.
    rewrite (buildSearchMap_get hits [] m (toLowerCase t) Hm) in Hin.
    exact Hin.
  - cbn [enhancedBook optProp fieldGet String.eqb Ascii.eqb Bool.eqb].
    fold w s d.
    rewrite <- !jsOr_prefer2, <- !jsOr_prefer1.
    repeat split; reflexivity.
Qed.

Lemma enhanceBookData_field_sources_witness :
  exists r,
    In r [enhancedBook cursedChildWork cursedChildHit cursedChildDetail]
    /\ optProp r "cover_i" = JNum 8234423
    /\ optProp r "first_publish_year" = JNum 2016
    /\ optProp r "first_publish_date" = JStr "2016"
    /\ optProp r "language" = JArr [JStr "eng"; JStr "fre"]
    /\ optProp r "subject" = JArr [JStr "Drama"]
    /\ optProp r "description" = JStr "The eighth story."
    /\ optProp r "subtitle" = JStr "Parts I & II".
Proof.
  destruct (enhanceBookData_field_sources (fun _ => cursedChildDetail)
              [cursedChildWork] [cursedChildHit]
              [enhancedBook cursedChildWork cursedChildHit cursedChildDetail]
              0 cursedChildWork "Harry Potter and the Cursed Child")
    as (r & Hin & _ & _ & Hc & Hy & Hd & Hl & _ & _ & Hs & Hdesc & Hsub).
  - vm_compute. reflexivity.
  - reflexivity.
  - vm_compute. reflexivity.
  - intros j w Hj. inversion Hj.
  - exists r. split; [exact Hin|].
    rewrite Hc, Hy, Hd, Hl, Hs, Hdesc, Hsub.
    vm_compute. repeat split; reflexivity.
Defined.

(** C3 at the inputs where the code misses it.  The set of processed
    titles holds lower-cased titles that are not trimmed, while the
    lookup of search hits is by lower-cased, trimmed titles.
    - Two works whose titles differ by a trailing space are both kept.
    - A search hit whose title has a trailing space is appended next to
      the work of the same title.
    - A work whose title has a trailing space does not find its search
      hit, which is appended as a record of its own.
    In each case the result has two records of one normalized title. *)
Theorem enhanceBookData_untrimmed_duplicates :
  (exists r1 r2,
      enhanceBookData (fun _ => JNull)
        (JArr [JObj [("title", JStr "The Ickabog")];
               JObj [("title", JStr "The Ickabog ")]])
        (JArr []) = Normal [r1; r2]
      /\ recordKey r1 = Some "the ickabog"
      /\ recordKey r2 = Some "the ickabog")
  /\ (exists r1 r2,
      enhanceBookData (fun _ => JNull)
        (JArr [JObj [("title", JStr "The Ickabog")]])
        (JArr [JObj [("title", JStr "The Ickabog ")]]) = Normal [r1; r2]
      /\ recordKey r1 = Some "the ickabog"
      /\ recordKey r2 = Some "the ickabog")
  /\ (exists r1 r2,
      enhanceBookData (fun _ => JNull)
        (JArr [JObj [("title", JStr "The Ickabog ")]])
        (JArr [JObj [("title", JStr "The Ickabog");
                     ("language", JArr [JStr "eng"])]]) = Normal [r1; r2]
      /\ recordKey r1 = Some "the ickabog"
      /\ recordKey r2 = Some "the ickabog"
      /\ optProp r1 "language" = JArr []).
Proof.
  repeat split; do 2 eexists; repeat split;
    try (vm_compute; reflexivity).
Qed.

End MergeClaims.

(* ================================================================== *)
(** * [enhanceBookData]: what the set of processed titles ensures *)
(* ================================================================== *)

Section MergeInvariant.
Import JsString ApiService MergeSpec.

Variable workDetail : nat -> JsVal.

(** The records have pairwise different lower-cased titles, and these
    titles are in the set of processed titles. *)
Definition merge_inv (st : Merge) : Prop :=
  NoDup (map workKey (enhancedBooks st))
  /\ forall r, In r (enhancedBooks st) ->
               exists k, workKey r = Some k /\ In k (processedTitles st).

Lemma merge_inv_push (st : Merge) (r : JsVal) (k : string) :
  merge_inv st -> workKey r = Some k -> ~ In k (processedTitles st) ->
  merge_inv (mkMerge (enhancedBooks st ++ [r]) (k :: processedTitles st)).
Proof.
  intros [Hnd Hin] Hr Hfresh. split; cbn [enhancedBooks processedTitles].
  - apply (Permutation_NoDup
             (Permutation_map workKey (Permutation_cons_append _ r))).
    cbn [map]. constructor; [|exact Hnd].
    intros H. apply in_map_iff in H as (r' & E & Hr').
    destruct (Hin r' Hr') as (k' & Hk' & Hp). congruence.
  - intros r' H. apply in_app_or in H as [H | [<- | []]].
    + destruct (Hin r' H) as (k' & Hk' & Hp). exists k'. auto with datatypes.
    + exists k. auto with datatypes.
Qed.

Lemma fieldGet_fieldSet_other (k k' : string) (v : JsVal)
    (fields : list (string * JsVal)) :
  String.eqb k' k = false ->
  fieldGet k (fieldSet k' v fields) = fieldGet k fields.
Proof.
  intros Hk. induction fields as [|[k0 v0] rest IH]; cbn [fieldSet fieldGet].
  - now rewrite Hk.
  - destruct (String.eqb k0 k') eqn:E0; cbn [fieldGet].
    + apply String.eqb_eq in E0. subst k0. now rewrite Hk.
    + destruct (String.eqb k0 k); [reflexivity | exact IH].
Qed.

Lemma workKey_enhancedBook (work searchMatch detailedWork : JsVal) :
  workKey (enhancedBook work searchMatch detailedWork) = workKey work.
Proof. reflexivity. Qed.

Lemma workKey_searchOnlyBook (hit : JsVal) (s : string) :
  titleOf hit = Some s -> workKey (searchOnlyBook hit) = workKey hit.
Proof.
  unfold workKey, titleOf. destruct hit; cbn [optProp]; try discriminate.
  intros _. unfold searchOnlyBook. cbn [optProp].
  now rewrite !fieldGet_fieldSet_other by reflexivity.
Qed.

Lemma processWorks_inv (m : SearchMap) (works : list JsVal) :
  forall i st st',
    processWorks workDetail m i works st = Normal st' ->
    merge_inv st -> merge_inv st'.
Proof.
  induction works as [|work rest IH]; intros i st st' H Hinv;
    cbn [processWorks] in H.
  - now injection H as <-.
  - destruct (prop work "title") as [t|] eqn:P; cbn [bind] in H; [|discriminate].
    destruct (visit_title _ _ P) as [[Tf _] | [(s & -> & Tt & Ts) | [Tt Tl]]].
    + rewrite Tf in H. cbn [negb] in H. eapply IH; eassumption.
    + rewrite Tt in H. cbn [negb lowerOf bind] in H.
      destruct (titles_has (processedTitles st) (toLowerCase s)) eqn:Hs;
        [eapply IH; eassumption|].
      eapply IH; [exact H|].
      apply merge_inv_push; [exact Hinv | | now apply titles_has_false].
      rewrite workKey_enhancedBook. unfold workKey. now rewrite Ts.
    + rewrite Tt, Tl in H. discriminate.
Qed.

Lemma addSearchOnly_inv (hits : list JsVal) :
  forall st st',
    addSearchOnly hits st = Normal st' ->
    merge_inv st -> merge_inv st'.
Proof.
  induction hits as [|hit rest IH]; intros st st' H Hinv;
    cbn [addSearchOnly] in H.
  - now injection H as <-.
  - destruct (prop hit "title") as [t|] eqn:P; cbn [bind] in H; [|discriminate].
    destruct (visit_title _ _ P) as [[Tf _] | [(s & -> & Tt & Ts) | [Tt Tl]]].
    + rewrite Tf in H. cbn [negb] in H. eapply IH; eassumption.
    + rewrite Tt in H. cbn [negb lowerOf bind] in H.
      destruct (titles_has (processedTitles st) (toLowerCase s)) eqn:Hs;
        [eapply IH; eassumption|].
      eapply IH; [exact H|].
      apply merge_inv_push; [exact Hinv | | now apply titles_has_false].
      rewrite (workKey_searchOnlyBook hit s Ts). unfold workKey. now rewrite Ts.
    + rewrite Tt, Tl in H. discriminate.
Qed.

(** What the merge does ensure: no two records of the result have the
    same lower-cased title. *)
Lemma enhanceBookData_lower_titles_unique (works searchBooks : JsVal)
    (out : list JsVal) :
  enhanceBookData workDetail works searchBooks = Normal out ->
  NoDup (map workKey out)
  /\ forall r, In r out -> exists k, workKey r = Some k.
Proof.
  unfold enhanceBookData. intros H.
  destruct (buildSearchMap (arrayOrEmpty searchBooks) []) as [m|];
    cbn [bind] in H; [|discriminate].
  destruct (processWorks workDetail m 0 (arrayOrEmpty works) (mkMerge [] []))
    as [st|] eqn:Hp; cbn [bind] in H; [|discriminate].
  destruct (addSearchOnly (arrayOrEmpty searchBooks) st) as [st'|] eqn:Ha;
    cbn [bind] in H; [|discriminate].
  injection H as <-.
  assert (Hinv : merge_inv st').
  { apply (addSearchOnly_inv _ _ _ Ha).
    apply (processWorks_inv _ _ _ _ _ Hp).
    split; [constructor | intros r []]. }
  destruct Hinv as [Hnd Hin]. split; [exact Hnd|].
  intros r Hr. destruct (Hin r Hr) as (k & Hk & _). eauto.
Qed.

End MergeInvariant.

(* ================================================================== *)
(** * The books page: filters, facets and highlighting *)
(* ================================================================== *)

From Stdlib Require DecimalString DecimalZ.

Module PageFilters.
Import JsString Catalogue BooksPage.

(** [n.toString()] of an integer (below 10^21, where the host still
    prints all digits). *)
Definition numberToString (n : Z) : string :=
  DecimalString.NilZero.string_of_int (Z.to_int n).

(** A book of the page with the one further field the filters read. *)
Record Listing : Type := mkListing
  { entry : Book;
    book_language : option (list string) }.

(** [this.currentFilters] *)
Record Filters : Type := mkFilters
  { search : string;
    language : string;
    year : string;
    genre : string }.

(** [array.includes(x)] for an array of strings *)
Definition array_includes (l : list string) (x : string) : bool :=
  existsb (String.eqb x) l.

(** [this.fuzzySearch(query, v)] for a field that may be absent: an
    absent text is falsy. *)
Definition fuzzyField (query : string) (v : option string) : bool :=
  match v with
  | Some text => fuzzySearch query text
  | None => false
  end.

(** The callback of [applySearchFilter]. *)
Definition searchMatches (query : string) (b : Listing) : bool :=
  fuzzyField query (title (entry b))
  || (truthy_number (first_publish_year (entry b))
      && includes query (numberToString (yearOrZero (entry b))))
  || match subject (entry b) with
     | Some subjects => existsb (fun s => fuzzySearch query s) subjects
     | None => false
     end
  || (truthy_string (subtitle (entry b))
      && fuzzyField query (subtitle (entry b))).

Definition applySearchFilter (books : list Listing) (query : string)
  : list Listing :=
  filter (searchMatches query) books.

(** The callback of the language filter. *)
Definition languageMatches (code : string) (b : Listing) : bool :=
  match book_language b with
  | Some codes => array_includes codes code
  | None => false
  end.

(** The callback of the year filter. *)
Definition yearMatches (y : string) (b : Listing) : bool :=
  truthy_number (first_publish_year (entry b))
  && String.eqb (numberToString (yearOrZero (entry b))) y.

(** [cleanSubject === genre] for a genre that is a string. *)
Definition genre_is (g : Genre) (name : string) : bool :=
  match g with
  | GName n => String.eqb n name
  | _ => false
  end.

(** The callback of the genre filter. *)
Definition genreMatches (name : string) (b : Listing) : bool :=
  match subject (entry b) with
  | Some subjects => existsb (fun s => genre_is (categorizeGenre s) name) subjects
  | None => false
  end.

(** The list [filtered] that [applyFilters] computes and stores in
    [this.filteredBooks]. *)
Definition applyFilters (f : Filters) (allBooks : list Listing) : list Listing :=
  let filtered := allBooks in
  let filtered :=
    if negb (String.eqb (trim (search f)) "")
    then applySearchFilter filtered (search f) else filtered in
  let filtered :=
    if negb (String.eqb (language f) "")
    then filter (languageMatches (language f)) filtered else filtered in
  let filtered :=
    if negb (String.eqb (year f) "")
    then filter (yearMatches (year f)) filtered else filtered in
  if negb (String.eqb (genre f) "")
  then filter (genreMatches (genre f)) filtered else filtered.

(** ** The genre facet: the set [genres] of [populateGenreFilter] *)

Definition genre_eqb (a b : Genre) : bool :=
  match a, b with
  | GNull, GNull => true
  | GName x, GName y => String.eqb x y
  | GInherited x, GInherited y => String.eqb x y
  | _, _ => false
  end.

(** Truthiness of what [categorizeGenre] returns. *)
Definition genre_truthy (g : Genre) : bool :=
  match g with
  | GNull => false
  | GName n => negb (String.eqb n "")
  | GInherited _ => true
  end.

(** [set.add(x)] on a set kept in the order of insertion. *)
Definition set_add {A : Type} (eqb : A -> A -> bool) (x : A) (s : list A)
  : list A :=
  if existsb (eqb x) s then s else s ++ [x].

(** The inner [forEach]: the subjects of one book. *)
Definition addSubjectGenres (genres : list Genre) (subjects : list string)
  : list Genre :=
  fold_left
    (fun acc s =>
       if negb (String.eqb s "") && negb (String.eqb (trim s) "")
       then let cleanSubject := categorizeGenre (trim s) in
            if genre_truthy cleanSubject
            then set_add genre_eqb cleanSubject acc else acc
       else acc)
    subjects genres.

(** The outer [forEach]: the set of genres of all books. *)
Definition collectGenres (allBooks : list Listing) : list Genre :=
  fold_left
    (fun acc b =>
       match subject (entry b) with
       | Some subjects => addSubjectGenres acc subjects
       | None => acc
       end)
    allBooks [].

(** ** The year facet of [populateYearFilter] *)







End PageFilters.

From Stdlib Require DecimalPos.

Section NumberFacts.
Import PageFilters.

Lemma to_int_proper (z : Z) :
  Z.to_int z <> Decimal.Pos Decimal.Nil /\ Z.to_int z <> Decimal.Neg Decimal.Nil.
Proof.
  destruct z as [|p|p]; cbn [Z.to_int]; split; try discriminate;
    intros [= H]; exact (DecimalPos.Unsigned.to_uint_nonnil p H).
Qed.

(** Different integers print differently. *)
Lemma numberToString_inj (a b : Z) :
  numberToString a = numberToString b -> a = b.
Proof.
  unfold numberToString. intros H.
  destruct (to_int_proper a) as [A1 A2], (to_int_proper b) as [B1 B2].
  pose proof (DecimalString.NilZero.isi _ A1 A2) as Ia.
  pose proof (DecimalString.NilZero.isi _ B1 B2) as Ib.
  rewrite H in Ia. rewrite Ia in Ib. injection Ib as E.
  now apply DecimalZ.to_int_inj.
Qed.

End NumberFacts.

Section FilterFacts.
Import JsString Catalogue BooksPage PageFilters FuzzySpec.

Lemma filter_filter {A : Type} (p q : A -> bool) (l : list A) :
  filter q (filter p l) = filter (fun x => p x && q x) l.
Proof.
  induction l as [|x r IH]; cbn [filter]; [reflexivity|].
  destruct (p x); cbn [filter andb]; [|exact IH].
  destruct (q x); now rewrite IH.
Qed.

Lemma filter_idempotent {A : Type} (p : A -> bool) (l : list A) :
  filter p (filter p l) = filter p l.
Proof.
  rewrite filter_filter. apply filter_ext. intros x. now destruct (p x).
Qed.

(** The criteria of [applyFilters] as one test: a criterion that is not
    set lets every book pass. *)
Definition keeps (f : Filters) (b : Listing) : bool :=
  (String.eqb (trim (search f)) "" || searchMatches (search f) b)
  && (String.eqb (language f) "" || languageMatches (language f) b)
  && (String.eqb (year f) "" || yearMatches (year f) b)
  && (String.eqb (genre f) "" || genreMatches (genre f) b).

Lemma filter_when {A : Type} (c : bool) (p : A -> bool) (l : list A) :
  (if negb c then filter p l else l) = filter (fun x => c || p x) l.
Proof.
  destruct c; cbn [negb orb]; [|reflexivity].
  symmetry. induction l as [|x r IH]; cbn [filter]; congruence.
Qed.

(** The four steps of [applyFilters] are one pass with [keeps]. *)
Lemma applyFilters_keeps (f : Filters) (books : list Listing) :
  applyFilters f books = filter (keeps f) books.
Proof.
  unfold applyFilters, applySearchFilter. cbn zeta.
  rewrite !filter_when, !filter_filter.
  apply filter_ext. intros b. unfold keeps. now rewrite !andb_assoc.
Qed.

Lemma includes_empty_text (pat : string) :
  includes EmptyString pat = true -> pat = EmptyString.
Proof. destruct pat; [reflexivity | discriminate]. Qed.

(** A text that contains the query, whatever the case, is found. *)
Lemma fuzzySearch_contains (query text : string) :
  query <> EmptyString ->
  contains_ignoring_case query text ->
  fuzzySearch query text = true.
Proof.
  intros Hq Hc. apply includes_substring in Hc.
  assert (Ht : text <> EmptyString).
  { intros ->. apply includes_empty_text in Hc.
    apply toLowerCase_empty in Hc. contradiction. }
  rewrite (fuzzySearch_unfold query text Hq Ht). now rewrite Hc.
Qed.

Lemma trim_not_empty (s : string) :
  trim s <> EmptyString -> s <> EmptyString.
Proof. intros H ->. now apply H. Qed.

End FilterFacts.

Section FilterProperties.
Import JsString Catalogue BooksPage PageFilters FuzzySpec.

(** X1.  [applyFilters] selects and never reorders or adds: the result
    is the list of books that pass all the criteria that are set, in
    the order of [allBooks]; with no criterion set it is [allBooks];
    and applying the same criteria to the result gives the result
    again. *)
Theorem applyFilters_selects (f : Filters) (allBooks : list Listing) :
  applyFilters f allBooks = filter (keeps f) allBooks
  /\ (forall b, In b (applyFilters f allBooks) -> In b allBooks)
  /\ applyFilters f (applyFilters f allBooks) = applyFilters f allBooks
  /\ (trim (search f) = EmptyString -> language f = EmptyString ->
      year f = EmptyString -> genre f = EmptyString ->
      applyFilters f allBooks = allBooks).
Proof.
  rewrite !applyFilters_keeps. repeat split.
  - intros b H. now apply filter_In in H.
  - apply filter_idempotent.
  - intros Hs Hl Hy Hg.
    rewrite <- (filter_ext (fun _ => true)).
    + induction allBooks as [|x r IH]; cbn [filter]; congruence.
    + intros b. unfold keeps. now rewrite Hs, Hl, Hy, Hg.
Qed.

Lemma applyFilters_selects_witness :
  applyFilters (mkFilters "  " "" "" "")
    [mkListing (mkBook (Some "The Ickabog") (Some 2020%Z) None None None)
               (Some ["eng"])]
  = [mkListing (mkBook (Some "The Ickabog") (Some 2020%Z) None None None)
               (Some ["eng"])].
Proof.
  apply (proj2 (proj2 (proj2 (applyFilters_selects (mkFilters "  " "" "" "") _))));
    reflexivity.
Defined.

(** X2.  Adding a criterion can only narrow the result: the books
    found under criteria [f'] that extend [f] (every criterion set in
    [f] is the same in [f']) are among the books found under [f]. *)
Theorem applyFilters_narrows (f f' : Filters) (allBooks : list Listing) (b : Listing) :
  (trim (search f) <> EmptyString -> search f' = search f) ->
  (language f <> EmptyString -> language f' = language f) ->
  (year f <> EmptyString -> year f' = year f) ->
  (genre f <> EmptyString -> genre f' = genre f) ->
  In b (applyFilters f' allBooks) -> In b (applyFilters f allBooks).
Proof.
  intros Hs Hl Hy Hg. rewrite !applyFilters_keeps, !filter_In.
  intros [Hin Hk]. split; [exact Hin|].
  unfold keeps in *.
  apply andb_prop in Hk as [Hk K4]. apply andb_prop in Hk as [Hk K3].
  apply andb_prop in Hk as [K1 K2].
  repeat (apply andb_true_intro; split).
  - destruct (String.eqb_spec (trim (search f)) "") as [E|N]; [reflexivity|].
    cbn [orb]. rewrite (Hs N) in K1.
    apply String.eqb_neq in N. now rewrite N in K1.
  - destruct (String.eqb_spec (language f) "") as [E|N]; [reflexivity|].
    cbn [orb]. rewrite (Hl N) in K2.
    apply String.eqb_neq in N. now rewrite N in K2.
  - destruct (String.eqb_spec (year f) "") as [E|N]; [reflexivity|].
    cbn [orb]. rewrite (Hy N) in K3.
    apply String.eqb_neq in N. now rewrite N in K3.
  - destruct (String.eqb_spec (genre f) "") as [E|N]; [reflexivity|].
    cbn [orb]. rewrite (Hg N) in K4.
    apply String.eqb_neq in N. now rewrite N in K4.
Qed.

End FilterProperties.

Section SearchProperties.
Import JsString Catalogue BooksPage PageFilters FuzzySpec.

(** A catalogue for the examples. *)
Definition sampleListings : list Listing :=
  [ mkListing (mkBook (Some "The Ickabog") (Some 2020%Z) None
                      (Some ["Fairy tales"; "Monsters"]) None)
              (Some ["eng"; "fre"]);
    mkListing (mkBook (Some "The Casual Vacancy") (Some 2012%Z) None
                      (Some ["Fiction"; "England"]) None)
              (Some ["eng"]);
    mkListing (mkBook (Some "The Cuckoo's Calling") (Some 2013%Z) None
                      (Some ["Detective and mystery stories"]) None)
              None ].

Lemma applyFilters_narrows_witness :
  In (mkListing (mkBook (Some "The Casual Vacancy") (Some 2012%Z) None
                        (Some ["Fiction"; "England"]) None) (Some ["eng"]))
     (applyFilters (mkFilters "" "eng" "" "") sampleListings).
Proof.
  apply (applyFilters_narrows (mkFilters "" "eng" "" "")
           (mkFilters "" "eng" "2012" "") sampleListings).
  - intros H. now contradiction H.
  - reflexivity.
  - intros H. now contradiction H.
  - intros H. now contradiction H.
  - vm_compute. left. reflexivity.
Defined.

(** X3.  With a search text that is not blank and no other criterion,
    every book whose title contains the search text, whatever the
    case, is in the result, and so is every book whose year of
    publication is written in the search text. *)
Theorem search_finds_title_and_year
    (query : string) (allBooks : list Listing) (b : Listing) :
  trim query <> EmptyString ->
  In b allBooks ->
  (exists t, title (entry b) = Some t /\ contains_ignoring_case query t)
  \/ (exists y, first_publish_year (entry b) = Some y /\ y <> 0%Z
                /\ includes query (numberToString y) = true) ->
  In b (applyFilters (mkFilters query "" "" "") allBooks).
Proof.
  intros Hq Hin H. rewrite applyFilters_keeps. apply filter_In.
  split; [exact Hin|]. unfold keeps. cbn [search language year genre].
  apply String.eqb_neq in Hq. rewrite Hq. cbn [String.eqb orb andb].
  rewrite !andb_true_r. unfold searchMatches.
  destruct H as [(t & Ht & Hc) | (y & Hy & Hy0 & Hi)].
  - rewrite Ht. cbn [fuzzyField].
    rewrite fuzzySearch_contains; [reflexivity | | exact Hc].
    intros ->. apply String.eqb_neq in Hq. now apply Hq.
  - unfold yearOrZero. rewrite Hy. cbn [truthy_number].
    apply Z.eqb_neq in Hy0. rewrite Hy0, Hi. cbn [negb andb].
    now rewrite orb_true_r.
Qed.

Lemma search_finds_title_and_year_witness :
  In (mkListing (mkBook (Some "The Casual Vacancy") (Some 2012%Z) None
                        (Some ["Fiction"; "England"]) None) (Some ["eng"]))
     (applyFilters (mkFilters "casual" "" "" "") sampleListings)
  /\ In (mkListing (mkBook (Some "The Ickabog") (Some 2020%Z) None
                        (Some ["Fairy tales"; "Monsters"]) None)
                   (Some ["eng"; "fre"]))
        (applyFilters (mkFilters "books of 2020" "" "" "") sampleListings).
Proof.
  split.
  - apply (search_finds_title_and_year "casual" sampleListings).
    + discriminate.
    + vm_compute. right. left. reflexivity.
    + left. exists "The Casual Vacancy". split; [reflexivity|].
      apply includes_substring. vm_compute. reflexivity.
  - apply (search_finds_title_and_year "books of 2020" sampleListings).
    + discriminate.
    + vm_compute. left. reflexivity.
    + right. exists 2020%Z.
      split; [reflexivity|]. split; [discriminate|].
      vm_compute. reflexivity.
Defined.

(** X4.  The year criterion is exact: with the year [y] chosen in the
    dropdown (its decimal writing is the value of the option), the
    result holds books of the year [y] only, and, when no other
    criterion is set, all of them. *)
Theorem year_filter_exact (f : Filters) (allBooks : list Listing) (y : Z) :
  y <> 0%Z ->
  year f = numberToString y ->
  (forall b, In b (applyFilters f allBooks) ->
             first_publish_year (entry b) = Some y)
  /\ (trim (search f) = EmptyString -> language f = EmptyString ->
      genre f = EmptyString ->
      forall b, In b allBooks -> first_publish_year (entry b) = Some y ->
                In b (applyFilters f allBooks)).
Proof.
  intros Hy0 Hy.
  assert (Hne : String.eqb (year f) "" = false).
  { apply String.eqb_neq. rewrite Hy. intros E.
    apply (f_equal String.length) in E.
    unfold numberToString in E.
    destruct y as [|p|p]; [congruence| |]; cbn [Z.to_int] in E;
      cbn [DecimalString.NilZero.string_of_int] in E;
      [|cbn [String.length] in E; discriminate].
    unfold DecimalString.NilZero.string_of_uint in E.
    pose proof (DecimalPos.Unsigned.to_uint_nonnil p) as Hn.
    destruct (Pos.to_uint p); [congruence | cbn in E; discriminate ..]. }
  rewrite applyFilters_keeps. split.
  - intros b Hb. apply filter_In in Hb as [_ Hk].
    unfold keeps in Hk.
    apply andb_prop in Hk as [Hk _]. apply andb_prop in Hk as [_ Hk].
    rewrite Hne in Hk. cbn [orb] in Hk. unfold yearMatches in Hk.
    apply andb_prop in Hk as [Ht He].
    apply String.eqb_eq in He. rewrite Hy in He.
    apply numberToString_inj in He.
    unfold yearOrZero, truthy_number in *.
    destruct (first_publish_year (entry b)); [congruence | discriminate].
  - intros Hs Hl Hg b Hin Hb. apply filter_In. split; [exact Hin|].
    unfold keeps. rewrite Hs, Hl, Hg, Hne. cbn [String.eqb orb andb].
    rewrite andb_true_r. unfold yearMatches, yearOrZero, truthy_number.
    rewrite Hb, Hy. apply Z.eqb_neq in Hy0. rewrite Hy0.
    cbn [negb andb]. apply String.eqb_refl.
Qed.

Lemma year_filter_exact_witness :
  applyFilters (mkFilters "" "" "2012" "") sampleListings
  = [ mkListing (mkBook (Some "The Casual Vacancy") (Some 2012%Z) None
                        (Some ["Fiction"; "England"]) None) (Some ["eng"]) ]
  /\ forall b, In b (applyFilters (mkFilters "" "" "2012" "") sampleListings) ->
               first_publish_year (entry b) = Some 2012%Z.
Proof.
  split; [vm_compute; reflexivity|].
  apply (proj1 (year_filter_exact (mkFilters "" "" "2012" "") sampleListings
                  2012%Z ltac:(discriminate) eq_refl)).
Defined.

End SearchProperties.

Section SetFacts.
Import PageFilters.

Context {A : Type} (eqb : A -> A -> bool).
Hypothesis eqb_spec : forall x y, eqb x y = true <-> x = y.

Lemma set_add_In (x y : A) (s : list A) :
  In x (set_add eqb y s) <-> In x s \/ x = y.
Proof.
  unfold set_add. destruct (existsb (eqb y) s) eqn:E.
  - split; [auto|]. intros [H | ->]; [exact H|].
    apply existsb_exists in E as (z & Hz & Ez).
    apply eqb_spec in Ez. now subst.
  - rewrite in_app_iff. cbn [In]. intuition auto.
Qed.

Lemma set_add_NoDup (y : A) (s : list A) :
  NoDup s -> NoDup (set_add eqb y s).
Proof.
  intros H. unfold set_add. destruct (existsb (eqb y) s) eqn:E; [exact H|].
  apply (Permutation_NoDup (Permutation_cons_append s y)).
  constructor; [|exact H].
  intros Hin. apply Bool.not_true_iff_false in E. apply E.
  apply existsb_exists. exists y. split; [exact Hin|]. now apply eqb_spec.
Qed.

End SetFacts.

Section GenreFacet.
Import JsString Catalogue BooksPage PageFilters.

Lemma genre_eqb_spec (a b : Genre) : genre_eqb a b = true <-> a = b.
Proof.
  destruct a, b; cbn [genre_eqb]; try (split; [discriminate | congruence]).
  - split; reflexivity.
  - rewrite String.eqb_eq. split; congruence.
  - rewrite String.eqb_eq. split; congruence.
Qed.

(** A subject that [populateGenreFilter] turns into the genre [g]. *)
Definition yields (g : Genre) (s : string) : Prop :=
  s <> EmptyString /\ trim s <> EmptyString
  /\ categorizeGenre (trim s) = g /\ genre_truthy g = true.

Lemma addSubjectGenres_In (subjects : list string) :
  forall genres g,
    In g (addSubjectGenres genres subjects)
    <-> In g genres \/ exists s, In s subjects /\ yields g s.
Proof.
  unfold addSubjectGenres.
  induction subjects as [|s rest IH]; intros genres g; cbn [fold_left].
  - split; [auto|]. intros [H | (s & [] & _)]. exact H.
  - rewrite IH. clear IH.
    destruct (String.eqb_spec s "") as [Es|Es]; cbn [negb andb].
    + split; intros [H | (s' & Hs' & Hy)]; auto.
      * right. exists s'. split; [now right | exact Hy].
      * destruct Hs' as [<- | Hs']; [destruct Hy as [Hy _]; contradiction|].
        right. exists s'. auto.
    + destruct (String.eqb_spec (trim s) "") as [Et|Et]; cbn [negb].
      * split; intros [H | (s' & Hs' & Hy)]; auto.
        -- right. exists s'. split; [now right | exact Hy].
        -- destruct Hs' as [<- | Hs'];
             [destruct Hy as (_ & Hy & _); contradiction|].
           right. exists s'. auto.
      * destruct (genre_truthy (categorizeGenre (trim s))) eqn:T.
        -- rewrite (set_add_In genre_eqb genre_eqb_spec).
           split.
           ++ intros [[H | ->] | (s' & Hs' & Hy)]; auto.
              ** right. exists s. split; [now left|]. repeat split; auto.
              ** right. exists s'. split; [now right | exact Hy].
           ++ intros [H | (s' & [<- | Hs'] & Hy)]; auto.
              ** left. right. now destruct Hy as (_ & _ & <- & _).
              ** right. exists s'. auto.
        -- split; intros [H | (s' & Hs' & Hy)]; auto.
           ++ right. exists s'. split; [now right | exact Hy].
           ++ destruct Hs' as [<- | Hs'].
              ** destruct Hy as (_ & _ & <- & Hy). congruence.
              ** right. exists s'. auto.
Qed.

Lemma addSubjectGenres_NoDup (subjects : list string) :
  forall genres, NoDup genres -> NoDup (addSubjectGenres genres subjects).
Proof.
  unfold addSubjectGenres.
  induction subjects as [|s rest IH]; intros genres H; cbn [fold_left];
    [exact H|].
  apply IH.
  destruct (negb (String.eqb s "") && negb (String.eqb (trim s) ""));
    [|exact H].
  destruct (genre_truthy (categorizeGenre (trim s))); [|exact H].
  now apply (set_add_NoDup genre_eqb genre_eqb_spec).
Qed.

Lemma collectGenres_In_from (allBooks : list Listing) :
  forall acc g,
    In g (fold_left
            (fun acc b =>
               match subject (entry b) with
               | Some subjects => addSubjectGenres acc subjects
               | None => acc
               end) allBooks acc)
    <-> In g acc
        \/ exists b subjects s,
             In b allBooks /\ subject (entry b) = Some subjects
             /\ In s subjects /\ yields g s.
Proof.
  induction allBooks as [|b rest IH]; intros acc g; cbn [fold_left].
  - split; [auto|]. intros [H | (b & ? & ? & [] & _)]. exact H.
  - rewrite IH. clear IH.
    destruct (subject (entry b)) as [subjects|] eqn:Sb.
    + rewrite addSubjectGenres_In. split.
      * intros [[H | (s & Hs & Hy)] | (b' & ss & s & Hb & Hss & Hs & Hy)]; auto.
        -- right. exists b, subjects, s. auto with datatypes.
        -- right. exists b', ss, s. auto with datatypes.
      * intros [H | (b' & ss & s & [<- | Hb] & Hss & Hs & Hy)]; auto.
        -- left. right. exists s. split; [congruence | exact Hy].
        -- right. exists b', ss, s. auto.
    + split.
      * intros [H | (b' & ss & s & Hb & Hss & Hs & Hy)]; auto.
        right. exists b', ss, s. auto with datatypes.
      * intros [H | (b' & ss & s & [<- | Hb] & Hss & Hs & Hy)]; auto.
        -- congruence.
        -- right. exists b', ss, s. auto.
Qed.

Lemma collectGenres_NoDup_from (allBooks : list Listing) :
  forall acc,
    NoDup acc ->
    NoDup (fold_left
             (fun acc b =>
                match subject (entry b) with
                | Some subjects => addSubjectGenres acc subjects
                | None => acc
                end) allBooks acc).
Proof.
  induction allBooks as [|b rest IH]; intros acc H; cbn [fold_left];
    [exact H|].
  apply IH. destruct (subject (entry b)); [|exact H].
  now apply addSubjectGenres_NoDup.
Qed.

End GenreFacet.

Section GenreFacetProperties.
Import JsString Catalogue BooksPage PageFilters.

(** The subjects of the catalogue carry no white space around them. *)
Definition subjects_trimmed (allBooks : list Listing) : Prop :=
  forall b subjects s,
    In b allBooks -> subject (entry b) = Some subjects -> In s subjects ->
    trim s = s.

(** X5.  The genre dropdown and the genre criterion.  The set of
    genres [populateGenreFilter] collects has every value once; a value
    is a genre name that is not empty or, for a subject such as
    "constructor", the value every object inherits under this name, and
    such a value is offered exactly when a subject of the catalogue is
    classified so.  A book passes the genre criterion only by a subject
    that is classified as the very name asked for: no book passes by an
    inherited value, whatever is asked for.  For a catalogue whose
    subjects carry no white space around them (the dropdown classifies
    the trimmed subject, the criterion the subject as it is), a genre
    name is offered exactly when it is not empty and some book passes
    the criterion for it, so that choosing an offered name never gives
    an empty result. *)
Theorem genre_facet_agrees (allBooks : list Listing) (name : string) :
  NoDup (collectGenres allBooks)
  /\ (forall g, In g (collectGenres allBooks) ->
        (exists n, g = GName n /\ n <> EmptyString)
        \/ (exists k, g = GInherited k))
  /\ (forall k,
        In (GInherited k) (collectGenres allBooks)
        <-> exists b subjects s,
              In b allBooks /\ subject (entry b) = Some subjects
              /\ In s subjects /\ s <> EmptyString /\ trim s <> EmptyString
              /\ categorizeGenre (trim s) = GInherited k)
  /\ (forall b,
        genreMatches name b = true ->
        exists subjects s,
          subject (entry b) = Some subjects /\ In s subjects
          /\ categorizeGenre s = GName name)
  /\ (subjects_trimmed allBooks ->
      (In (GName name) (collectGenres allBooks)
       <-> name <> EmptyString
           /\ exists b, In b allBooks /\ genreMatches name b = true)
      /\ (In (GName name) (collectGenres allBooks) ->
          exists b, In b (applyFilters (mkFilters "" "" "" name) allBooks))).
Proof.
  split; [|split; [|split; [|split]]].
  - apply collectGenres_NoDup_from. constructor.
  - intros g Hg. unfold collectGenres in Hg.
    apply collectGenres_In_from in Hg
      as [[] | (b & subjects & s & _ & _ & _ & _ & _ & _ & Ht)].
    destruct g as [|n|k]; cbn [genre_truthy] in Ht; [discriminate | |eauto].
    left. exists n. split; [reflexivity|].
    apply negb_true_iff in Ht. now apply String.eqb_neq.
  - intros k. unfold collectGenres. rewrite collectGenres_In_from. split.
    + intros [[] | (b & subjects & s & Hb & Hss & Hs & H1 & H2 & H3 & _)].
      exists b, subjects, s. auto 10.
    + intros (b & subjects & s & Hb & Hss & Hs & H1 & H2 & H3).
      right. exists b, subjects, s. unfold yields. auto 10.
  - intros b Hm. unfold genreMatches in Hm.
    destruct (subject (entry b)) as [subjects|]; [|discriminate].
    apply existsb_exists in Hm as (s & Hs & Hg).
    exists subjects, s. split; [reflexivity|]. split; [exact Hs|].
    destruct (categorizeGenre s); try discriminate Hg.
    cbn [genre_is] in Hg. apply String.eqb_eq in Hg. now subst.
  - intros Htrim.
    assert (Hiff : In (GName name) (collectGenres allBooks)
                   <-> name <> EmptyString
                       /\ exists b, In b allBooks /\ genreMatches name b = true).
    { unfold collectGenres. rewrite collectGenres_In_from. split.
      - intros [[] | (b & subjects & s & Hb & Hss & Hs & Hy)].
        destruct Hy as (_ & _ & Hc & Ht).
        cbn [genre_truthy] in Ht. apply negb_true_iff in Ht.
        apply String.eqb_neq in Ht. split; [exact Ht|].
        exists b. split; [exact Hb|].
        unfold genreMatches. rewrite Hss. apply existsb_exists.
        exists s. split; [exact Hs|].
        rewrite (Htrim b subjects s Hb Hss Hs) in Hc. rewrite Hc.
        cbn [genre_is]. apply String.eqb_refl.
      - intros (Hne & b & Hb & Hm). right.
        unfold genreMatches in Hm.
        destruct (subject (entry b)) as [subjects|] eqn:Hss; [|discriminate].
        apply existsb_exists in Hm as (s & Hs & Hg).
        exists b, subjects, s. repeat split; try assumption.
        + intros ->. discriminate Hg.
        + rewrite (Htrim b subjects s Hb Hss Hs). intros ->. discriminate Hg.
        + rewrite (Htrim b subjects s Hb Hss Hs).
          destruct (categorizeGenre s); try discriminate.
          cbn [genre_is] in Hg. apply String.eqb_eq in Hg. now subst.
        + cbn [genre_truthy]. apply negb_true_iff. now apply String.eqb_neq. }
    split; [exact Hiff|].
    intros Hin. apply Hiff in Hin as (Hne & b & Hb & Hm).
    exists b. rewrite applyFilters_keeps. apply filter_In.
    split; [exact Hb|]. unfold keeps. cbn [search language year genre].
    cbn [trim trimStart trimEnd String.eqb orb andb]. rewrite Hm.
    now rewrite orb_true_r.
Qed.

(** A catalogue with a subject that reads through the prototype. *)
Definition inheritedListings : list Listing :=
  [ mkListing (mkBook (Some "The Ickabog") (Some 2020%Z) None
                      (Some ["constructor"]) None)
              (Some ["eng"]) ].

Lemma genre_facet_agrees_witness :
  In (GName "Fiction") (collectGenres sampleListings)
  /\ (exists b, In b (applyFilters (mkFilters "" "" "" "Fiction") sampleListings))
  /\ collectGenres inheritedListings = [GInherited "constructor"]
  /\ forall value b, In b inheritedListings -> genreMatches value b = false.
Proof.
  assert (Hin : In (GName "Fiction") (collectGenres sampleListings)).
  { vm_compute. right. right. left. reflexivity. }
  split; [exact Hin|]. split; [|split].
  - apply (proj2 (proj2 (proj2 (proj2
             (genre_facet_agrees sampleListings "Fiction"))))); [|exact Hin].
    intros b subjects s Hb Hss Hs.
    vm_compute in Hb.
    destruct Hb as [<- | [<- | [<- | []]]]; injection Hss as <-;
      cbn [In] in Hs; repeat (destruct Hs as [<- | Hs]; [reflexivity|]);
      contradiction.
  - vm_compute. reflexivity.
  - intros value b [<- | []].
    destruct (genreMatches value _) eqn:M; [|reflexivity].
    apply (proj1 (proj2 (proj2 (proj2
             (genre_facet_agrees inheritedListings value))))) in M
      as (subjects & s & Hss & Hs & Hc).
    injection Hss as <-. destruct Hs as [<- | []].
    vm_compute in Hc. discriminate Hc.
Defined.

End GenreFacetProperties.

Section YearFacet.
Import JsString Catalogue BooksPage PageFilters.

Local Open Scope Z_scope.









End YearFacet.

Section YearFacetProperties.
Import JsString Catalogue BooksPage PageFilters.

Local Open Scope Z_scope.


End YearFacetProperties.

(* ================================================================== *)
(** * [filterBooks] once more: ingesting twice, and describing *)
(* ================================================================== *)

Section IngestProperties.
Import JsString Catalogue BooksPage IngestSpec ApiService.

Lemma filter_all {A : Type} (p : A -> bool) (l : list A) :
  (forall x, In x l -> p x = true) -> filter p l = l.
Proof.
  induction l as [|x r IH]; intros H; cbn [filter]; [reflexivity|].
  rewrite (H x (or_introl eq_refl)). f_equal.
  apply IH. intros y Hy. apply H. now right.
Qed.

(** [dedupe] keeps a list whose keys are pairwise different, not in
    the set and not excluded. *)
Lemma dedupe_clean (books : list Book) :
  forall seen,
    NoDup (map normalizedTitle books) ->
    (forall b, In b books ->
               ~ In (normalizedTitle b) seen
               /\ isExcludedTitle (normalizedTitle b) = false) ->
    dedupe seen books = books.
Proof.
  induction books as [|x r IH]; intros seen Hnd H; cbn [dedupe];
    [reflexivity|].
  fold (normalizedTitle x).
  destruct (H x (or_introl eq_refl)) as [Hs Hx].
  apply seen_has_false in Hs. rewrite Hs, Hx. f_equal.
  cbn [map] in Hnd. inversion Hnd as [|? ? Hnx Hnr]; subst.
  apply IH; [exact Hnr|].
  intros b Hb. destruct (H b (or_intror Hb)) as [Hbs Hbx].
  split; [|exact Hbx].
  intros [E | Hin]; [|now apply Hbs].
  apply Hnx. rewrite E. now apply in_map.
Qed.

(** The host's sort leaves a list alone that is in order already. *)
Lemma array_sort_in_order {A : Type} (cmp : A -> A -> Z) (l : list A) :
  Sorted (fun x y => (cmp x y <= 0)%Z) l -> array_sort cmp l = l.
Proof.
  induction 1 as [|x r Hr IH Hh]; [reflexivity|].
  cbn [array_sort fold_right]. fold (array_sort cmp r). rewrite IH.
  destruct Hh as [|y r' Hxy]; cbn [sort_insert]; [reflexivity|].
  apply Z.leb_le in Hxy. now rewrite Hxy.
Qed.

(** X7.  Ingesting is idempotent: [filterBooks] leaves its own output
    as it is (for a collation that orders any two strings). *)
Theorem filterBooks_idempotent
    (localeCompare : string -> string -> Z) (books : list Book) :
  (forall s t, (0 < localeCompare s t)%Z -> (localeCompare t s <= 0)%Z) ->
  filterBooks localeCompare (filterBooks localeCompare books)
  = filterBooks localeCompare books.
Proof.
  intros Hlc.
  set (out := filterBooks localeCompare books).
  assert (Hin : forall b, In b out ->
                          has_title_and_year b = true
                          /\ isExcludedTitle (normalizedTitle b) = false).
  { intros b Hb. apply filterBooks_In in Hb. tauto. }
  assert (Hnd : NoDup (map normalizedTitle out)).
  { apply (Permutation_NoDup
             (Permutation_map normalizedTitle
                (Permutation_sym (filterBooks_perm localeCompare books)))).
    apply dedupe_NoDup. }
  assert (Hs : Sorted (fun x y => (compareBooks localeCompare x y <= 0)%Z) out).
  { apply (array_sort_sorted (compareBooks localeCompare)
             (compareBooks_total localeCompare Hlc)). }
  unfold filterBooks at 1.
  rewrite (filter_all has_title_and_year out) by (intros b Hb; now apply Hin).
  rewrite (dedupe_clean out []); [now apply array_sort_in_order | exact Hnd |].
  intros b Hb. split; [intros [] | now apply Hin].
Qed.

Lemma filterBooks_idempotent_witness :
  filterBooks codeUnitCompare (filterBooks codeUnitCompare sampleBooks)
  = filterBooks codeUnitCompare sampleBooks.
Proof.
  apply (filterBooks_idempotent codeUnitCompare sampleBooks).
  exact codeUnitCompare_total.
Defined.

(** X8.  Every book of the catalogue gets a description: for a book
    that [filterBooks] has kept, [generateBookDescription] returns a
    string, whatever the dataset server answers, and so does the
    rule-based template. *)
Theorem kept_book_is_described
    (localeCompare : string -> string -> Z) (books : list Book) (b : Book)
    (datasetCall : Completion DatasetResponse) :
  In b (filterBooks localeCompare books) ->
  (exists s, generateBookDescription datasetCall b = Normal s)
  /\ (exists s, getFallbackDescription b = Normal s).
Proof.
  intros Hb. apply filterBooks_In in Hb as (_ & Hv & _).
  apply kept_has_title in Hv as (t & y & Ht & _).
  pose proof (getFallbackDescription_titled b t Ht) as Hf.
  split; [|rewrite Hf; eauto].
  unfold generateBookDescription.
  destruct (fetchFromGoodreadsDataset_returns datasetCall b) as [r Hr].
  rewrite Hr. cbn [try_catch].
  destruct r as [g|]; [|rewrite Hf; eauto].
  destruct (negb (String.eqb g "")); [eauto | rewrite Hf; eauto].
Qed.

Lemma kept_book_is_described_witness :
  exists s,
    generateBookDescription Throw
      (mkBook (Some "A Year in the Life") (Some 2012%Z) None None None)
    = Normal s.
Proof.
  apply (proj1 (kept_book_is_described codeUnitCompare sampleBooks
                  (mkBook (Some "A Year in the Life") (Some 2012%Z) None None None)
                  Throw ltac:(vm_compute; left; reflexivity))).
Defined.

End IngestProperties.

(* ================================================================== *)
(** * The books page: names, keys and highlighting *)
(* ================================================================== *)

Module PageText.
Import JsString Catalogue BooksPage.

(** ** [getLanguageName] *)

(** What a lookup in an object literal of strings gives when it is
    truthy: a text of the literal, or, for the two lower-case names
    every object inherits, the inherited value. *)
Inductive Label : Type :=
| Text : string -> Label
| Inherited : string -> Label.

(** The object literal [languageNames], in the order of its keys. *)
Definition languageNames : list (string * string) :=
  [
    ("eng", "English"); ("en", "English"); ("english", "English");
    ("fre", "French"); ("fr", "French"); ("french", "French");
    ("ger", "German"); ("de", "German"); ("german", "German");
    ("spa", "Spanish"); ("es", "Spanish"); ("spanish", "Spanish");
    ("ita", "Italian"); ("it", "Italian"); ("italian", "Italian");
    ("por", "Portuguese"); ("pt", "Portuguese"); ("portuguese", "Portuguese");
    ("rus", "Russian"); ("ru", "Russian"); ("russian", "Russian");
    ("jpn", "Japanese"); ("ja", "Japanese"); ("japanese", "Japanese");
    ("chi", "Chinese"); ("zh", "Chinese"); ("chinese", "Chinese");
    ("ara", "Arabic"); ("ar", "Arabic"); ("arabic", "Arabic");
    ("hin", "Hindi"); ("hi", "Hindi"); ("hindi", "Hindi");
    ("dut", "Dutch"); ("nl", "Dutch"); ("dutch", "Dutch");
    ("swe", "Swedish"); ("sv", "Swedish"); ("swedish", "Swedish");
    ("nor", "Norwegian"); ("no", "Norwegian"); ("norwegian", "Norwegian");
    ("dan", "Danish"); ("da", "Danish"); ("danish", "Danish");
    ("fin", "Finnish"); ("fi", "Finnish"); ("finnish", "Finnish");
    ("pol", "Polish"); ("pl", "Polish"); ("polish", "Polish");
    ("cze", "Czech"); ("cs", "Czech"); ("czech", "Czech");
    ("hun", "Hungarian"); ("hu", "Hungarian"); ("hungarian", "Hungarian");
    ("tur", "Turkish"); ("tr", "Turkish"); ("turkish", "Turkish");
    ("gre", "Greek"); ("el", "Greek"); ("greek", "Greek");
    ("heb", "Hebrew"); ("he", "Hebrew"); ("hebrew", "Hebrew");
    ("kor", "Korean"); ("ko", "Korean"); ("korean", "Korean");
    ("vie", "Vietnamese"); ("vi", "Vietnamese"); ("vietnamese", "Vietnamese");
    ("tha", "Thai"); ("th", "Thai"); ("thai", "Thai") ].

Definition getLanguageName (langCode : string) : Label :=
  let lowerCode := toLowerCase langCode in
  match find (fun kv => String.eqb (fst kv) lowerCode) languageNames with
  | Some kv => Text (snd kv)
  | None =>
      if String.eqb lowerCode "constructor" || String.eqb lowerCode "__proto__"
      then Inherited lowerCode
      else Text (capitalizeFirst langCode)
  end.

(** ** [getBookCacheKey] and the cache of descriptions *)

(** [`${book.title}_${book.first_publish_year || 'unknown'}`]; a title
    that is not there prints as [undefined]. *)
Definition getBookCacheKey (book : Book) : string :=
  ((match title book with Some t => t | None => "undefined" end)
   ++ "_"
   ++ (if truthy_number (first_publish_year book)
       then PageFilters.numberToString (yearOrZero book)
       else "unknown"))%string.

(** [this.descriptionCache]: the latest [set] of a key is in front. *)
Definition DescriptionCache : Type := list (string * string).

Fixpoint cache_get (k : string) (cache : DescriptionCache) : option string :=
  match cache with
  | [] => None
  | (k', v) :: rest => if String.eqb k' k then Some v else cache_get k rest
  end.

(** [this.descriptionCache.set(this.getBookCacheKey(book), description)] *)
Definition cacheDescription (book : Book) (description : string)
    (cache : DescriptionCache) : DescriptionCache :=
  (getBookCacheKey book, description) :: cache.

(** [getCachedDescription]: [this.descriptionCache.get(key) || null] *)
Definition getCachedDescription (cache : DescriptionCache) (book : Book)
  : option string :=
  match cache_get (getBookCacheKey book) cache with
  | Some d => if String.eqb d "" then None else Some d
  | None => None
  end.

(** ** [highlightSearchTerm] *)




(** The regular expression, which is the query with its special
    characters escaped and the flags [gi], matches at the head of the
    text: the text starts with the query, whatever the case. *)
Definition matchesAt (text query : string) : bool :=
  startsWith (toLowerCase text) (toLowerCase query).

(** [s.substring(0, n)] *)
Fixpoint take (n : nat) (s : string) : string :=
  match n, s with
  | O, _ => EmptyString
  | S _, EmptyString => EmptyString
  | S k, String c r => String c (take k r)
  end.



End PageText.

Section CaseFacts.
Import JsString BooksPage.

Lemma lower_char_idempotent (c : ascii) :
  lower_char (lower_char c) = lower_char c.
Proof. destruct c as [[] [] [] [] [] [] [] []]; reflexivity. Qed.

Lemma upper_lower_char (c : ascii) :
  upper_char (lower_char c) = upper_char c.
Proof. destruct c as [[] [] [] [] [] [] [] []]; reflexivity. Qed.

Lemma toLowerCase_idempotent (s : string) :
  toLowerCase (toLowerCase s) = toLowerCase s.
Proof.
  induction s as [|c r IH]; cbn [toLowerCase]; [reflexivity|].
  now rewrite lower_char_idempotent, IH.
Qed.

Lemma toLowerCase_app (a b : string) :
  toLowerCase (a ++ b) = (toLowerCase a ++ toLowerCase b)%string.
Proof.
  induction a as [|c r IH]; cbn [toLowerCase String.append]; [reflexivity|].
  now rewrite IH.
Qed.

(** [capitalizeFirst] does not look at the case of what it is given. *)
Lemma capitalizeFirst_lower (s : string) :
  capitalizeFirst (toLowerCase s) = capitalizeFirst s.
Proof.
  unfold capitalizeFirst. destruct s as [|c r]; [reflexivity|].
  cbn [toLowerCase charAt0 slice1 toUpperCase].
  now rewrite upper_lower_char, toLowerCase_idempotent.
Qed.

End CaseFacts.

Section CharFacts.
Import JsString.

Fixpoint string_forall (p : ascii -> bool) (s : string) : bool :=
  match s with
  | EmptyString => true
  | String c r => p c && string_forall p r
  end.

(** A character of the decimal writing of an integer. *)
Definition decimal_char (c : ascii) : bool :=
  is_digit c || Ascii.eqb c "-".

Lemma string_of_uint_decimal (d : Decimal.uint) :
  string_forall decimal_char (DecimalString.NilEmpty.string_of_uint d) = true.
Proof. induction d; cbn; auto. Qed.

Lemma numberToString_decimal (z : Z) :
  string_forall decimal_char (PageFilters.numberToString z) = true.
Proof.
  unfold PageFilters.numberToString.
  destruct (Z.to_int z) as [d|d]; cbn [DecimalString.NilZero.string_of_int].
  - unfold DecimalString.NilZero.string_of_uint.
    destruct d; try reflexivity; apply string_of_uint_decimal.
  - cbn [string_forall]. unfold DecimalString.NilZero.string_of_uint.
    destruct d; try reflexivity; apply string_of_uint_decimal.
Qed.

Lemma string_forall_app (p : ascii -> bool) (a b : string) :
  string_forall p (a ++ b) = string_forall p a && string_forall p b.
Proof.
  induction a as [|c r IH]; cbn [String.append string_forall]; [reflexivity|].
  now rewrite IH, andb_assoc.
Qed.

(** Two texts with the underscore and a tail that has none between
    them: the last underscore tells the parts apart. *)
Lemma underscore_split (t1 t2 y1 y2 : string) :
  string_forall (fun c => negb (Ascii.eqb c "_")) y1 = true ->
  string_forall (fun c => negb (Ascii.eqb c "_")) y2 = true ->
  (t1 ++ "_" ++ y1 = t2 ++ "_" ++ y2)%string ->
  t1 = t2 /\ y1 = y2.
Proof.
  intros H1 H2. revert t2.
  induction t1 as [|c1 r1 IH]; intros [|c2 r2] E; cbn [String.append] in E.
  - injection E as E. auto.
  - injection E as Ec Ey. subst. exfalso.
    rewrite string_forall_app in H1. cbn [String.append string_forall] in H1.
    rewrite Ascii.eqb_refl in H1. cbn in H1.
    now rewrite andb_false_r in H1.
  - injection E as Ec Ey. subst. exfalso.
    rewrite string_forall_app in H2. cbn [String.append string_forall] in H2.
    rewrite Ascii.eqb_refl in H2. cbn in H2.
    now rewrite andb_false_r in H2.
  - injection E as -> E. destruct (IH _ E) as [-> ->]. auto.
Qed.

Lemma string_forall_weaken (p q : ascii -> bool) (s : string) :
  (forall c, p c = true -> q c = true) ->
  string_forall p s = true -> string_forall q s = true.
Proof.
  intros Hpq. induction s as [|c r IH]; cbn [string_forall]; [auto|].
  intros H. apply andb_prop in H as [Hc Hr].
  now rewrite (Hpq c Hc), IH.
Qed.

Lemma decimal_not_underscore (c : ascii) :
  decimal_char c = true -> negb (Ascii.eqb c "_") = true.
Proof. destruct c as [[] [] [] [] [] [] [] []]; vm_compute; congruence. Qed.

End CharFacts.

Section PageTextProperties.
Import JsString Catalogue BooksPage PageText.

(** X9.  [getLanguageName] does not look at the case of the code: two
    codes that differ by case only get the same name, be it a name of
    the table or the capitalized code. *)
Theorem getLanguageName_ignores_case (code code' : string) :
  toLowerCase code = toLowerCase code' ->
  getLanguageName code = getLanguageName code'.
Proof.
  intros E. unfold getLanguageName. cbn zeta. rewrite E.
  now rewrite <- (capitalizeFirst_lower code), E, capitalizeFirst_lower.
Qed.

Lemma getLanguageName_ignores_case_witness :
  getLanguageName "ENG" = Text "English"
  /\ getLanguageName "wEl" = Text "Wel".
Proof.
  split.
  - rewrite (getLanguageName_ignores_case "ENG" "eng" eq_refl).
    vm_compute. reflexivity.
  - rewrite (getLanguageName_ignores_case "wEl" "WEL" eq_refl).
    vm_compute. reflexivity.
Defined.

(** The year as the key of the cache has it: the year when it is
    truthy, nothing when it is not. *)
Definition keyedYear (book : Book) : option Z :=
  if truthy_number (first_publish_year book)
  then Some (yearOrZero book) else None.

(** The key of a book with a title tells title and year. *)
Lemma getBookCacheKey_inj (a b : Book) (ta tb : string) :
  title a = Some ta -> title b = Some tb ->
  getBookCacheKey a = getBookCacheKey b ->
  ta = tb /\ keyedYear a = keyedYear b.
Proof.
  intros Ha Hb. unfold getBookCacheKey, keyedYear. rewrite Ha, Hb.
  assert (Hnum : forall z,
             string_forall (fun c => negb (Ascii.eqb c "_"))
               (PageFilters.numberToString z) = true).
  { intros z. apply (string_forall_weaken decimal_char);
      [exact decimal_not_underscore | apply numberToString_decimal]. }
  assert (Hunk : forall z, PageFilters.numberToString z <> "unknown").
  { intros z E. pose proof (numberToString_decimal z) as D.
    rewrite E in D. discriminate D. }
  intros E.
  destruct (truthy_number (first_publish_year a)),
           (truthy_number (first_publish_year b));
    apply underscore_split in E as [-> Ey]; try apply Hnum; try reflexivity.
  - apply numberToString_inj in Ey. now rewrite Ey.
  - now apply Hunk in Ey.
  - symmetry in Ey. now apply Hunk in Ey.
  - auto.
Qed.

(** The key reads the title and the year as [keyedYear] has it, and
    nothing else. *)
Lemma getBookCacheKey_ext (a b : Book) :
  title a = title b -> keyedYear a = keyedYear b ->
  getBookCacheKey a = getBookCacheKey b.
Proof.
  unfold getBookCacheKey, keyedYear. intros -> E.
  destruct (truthy_number (first_publish_year a)),
           (truthy_number (first_publish_year b));
    try discriminate E; [|reflexivity].
  injection E as E. now rewrite E.
Qed.

(** X10.  The cache of descriptions tells books by title and keyed
    year, the keyed year being the year when it is truthy and
    "unknown" when the year is missing or zero.  A description that is
    not empty, once cached for a book, is what the cache returns for
    that book.  For two books with titles: when they differ in title or
    in keyed year, caching for the one changes nothing for the other;
    when they agree in both (as a book of year 0 and one of no year do),
    they share the entry. *)
Theorem description_cache_round_trip
    (cache : DescriptionCache) (a b : Book) (ta tb d : string) :
  title a = Some ta -> title b = Some tb ->
  (d <> EmptyString ->
   getCachedDescription (cacheDescription a d cache) a = Some d)
  /\ (ta <> tb \/ keyedYear a <> keyedYear b ->
      getCachedDescription (cacheDescription a d cache) b
      = getCachedDescription cache b)
  /\ (ta = tb -> keyedYear a = keyedYear b -> d <> EmptyString ->
      getCachedDescription (cacheDescription a d cache) b = Some d)
  /\ (keyedYear a = keyedYear b
      <-> first_publish_year a = first_publish_year b
          \/ (truthy_number (first_publish_year a) = false
              /\ truthy_number (first_publish_year b) = false)).
Proof.
  intros Ha Hb. unfold getCachedDescription, cacheDescription.
  cbn [cache_get]. split; [|split; [|split]].
  - intros Hd. rewrite String.eqb_refl.
    apply String.eqb_neq in Hd. now rewrite Hd.
  - intros Hdiff.
    destruct (String.eqb_spec (getBookCacheKey a) (getBookCacheKey b)) as [E|E];
      [|reflexivity].
    destruct (getBookCacheKey_inj a b ta tb Ha Hb E) as [Et Ey].
    destruct Hdiff; contradiction.
  - intros Et Ey Hd.
    rewrite (getBookCacheKey_ext a b); [|congruence | exact Ey].
    rewrite String.eqb_refl. apply String.eqb_neq in Hd. now rewrite Hd.
  - unfold keyedYear, yearOrZero, truthy_number.
    destruct (first_publish_year a) as [ya|], (first_publish_year b) as [yb|];
      try destruct (Z.eqb_spec ya 0); try destruct (Z.eqb_spec yb 0);
      cbn [negb]; split; intros H; try tauto; try congruence;
      try (destruct H as [H | [H1 H2]]; congruence).
Qed.

Lemma description_cache_round_trip_witness :
  getCachedDescription
    (cacheDescription
       (mkBook (Some "The Ickabog") (Some 2020%Z) None None None)
       "A fairy tale." [])
    (mkBook (Some "The Ickabog") (Some 2020%Z) None None None)
  = Some "A fairy tale."
  /\ getCachedDescription
       (cacheDescription
          (mkBook (Some "The Ickabog") (Some 2020%Z) None None None)
          "A fairy tale." [])
       (mkBook (Some "The Ickabog") None None None None)
     = None.
Proof.
  destruct (description_cache_round_trip []
              (mkBook (Some "The Ickabog") (Some 2020%Z) None None None)
              (mkBook (Some "The Ickabog") None None None None)
              "The Ickabog" "The Ickabog" "A fairy tale." eq_refl eq_refl)
    as (H1 & H2 & _).
  split.
  - apply H1. discriminate.
  - rewrite H2; [reflexivity|]. right. vm_compute. discriminate.
Defined.

End PageTextProperties.

(* ================================================================== *)
(** * [highlightSearchTerm]: the text with its matches wrapped *)
(* ================================================================== *)

Module HighlightSpec.
Import JsString PageText.




End HighlightSpec.

Section HighlightFacts.
Import JsString PageText HighlightSpec.








End HighlightFacts.

Section HighlightProperties.
Import JsString PageText HighlightSpec FuzzySpec.


End HighlightProperties.

(* ================================================================== *)
(** * The API service: [cachedFetch] *)
(* ================================================================== *)

Module ApiCache.
Import JsString ApiService.

(** [CACHE_DURATION], five minutes in milliseconds *)
Definition CACHE_DURATION : Z := (5 * 60 * 1000)%Z.

(** An entry of [apiCache]: the answer and the time it was stored. *)
Record CacheEntry : Type := mkCacheEntry
  { data : Response;
    timestamp : Z }.

(** [apiCache], a map in the order of insertion. *)
Definition ApiCacheMap : Type := list (string * CacheEntry).

Fixpoint cacheGet (k : string) (cache : ApiCacheMap) : option CacheEntry :=
  match cache with
  | [] => None
  | (k', e) :: rest => if String.eqb k' k then Some e else cacheGet k rest
  end.

(** [apiCache.set(k, e)]: the key keeps its place when it is there. *)
Fixpoint cacheSet (k : string) (e : CacheEntry) (cache : ApiCacheMap)
  : ApiCacheMap :=
  match cache with
  | [] => [(k, e)]
  | (k', e') :: rest =>
      if String.eqb k' k then (k', e) :: rest
      else (k', e') :: cacheSet k e rest
  end.

(** The key of a request, [`${url}_${JSON.stringify(options)}`], the
    options given as they are written. *)
Definition cacheKey (url options : string) : string :=
  (url ++ "_" ++ options)%string.

(** [cachedFetch(url, options)] on the cache as it is.  [now] is the
    clock at the test of the entry, [request] the object the call
    builds out of what [fetch] and [response.json()] give, as its
    caller reads it ([Throw] when one of the two rejects), and [stored]
    the clock when the answer is put into the cache.  The object put
    into the cache and the object returned are built alike.  The result
    comes with the cache as the call leaves it. *)
Definition cachedFetch (cache : ApiCacheMap) (url options : string)
    (now : Z) (request : Completion Response) (stored : Z)
  : Completion Response * ApiCacheMap :=
  let key := cacheKey url options in
  let miss :=
    match request with
    | Normal response =>
        (Normal response, cacheSet key (mkCacheEntry response stored) cache)
    | Throw => (Throw, cache)
    end in
  match cacheGet key cache with
  | Some cached =>
      if (now - timestamp cached <? CACHE_DURATION)%Z
      then (Normal (data cached), cache)
      else miss
  | None => miss
  end.

End ApiCache.

Section ApiCacheFacts.
Import JsString ApiService ApiCache.

Lemma cacheGet_set (k k' : string) (e : CacheEntry) (cache : ApiCacheMap) :
  cacheGet k' (cacheSet k e cache)
  = if String.eqb k k' then Some e else cacheGet k' cache.
Proof.
  induction cache as [|[k0 e0] rest IH]; cbn [cacheSet cacheGet].
  - reflexivity.
  - destruct (String.eqb_spec k0 k) as [->|N]; cbn [cacheGet].
    + destruct (String.eqb k k'); reflexivity.
    + destruct (String.eqb_spec k0 k') as [->|N']; [|exact IH].
      apply String.eqb_neq in N. now rewrite String.eqb_sym, N.
Qed.

End ApiCacheFacts.

Section ApiCacheProperties.
Import JsString ApiService ApiCache.

Local Open Scope Z_scope.

(** X12.  An answer is served from the cache for five minutes.  After
    a call that asked the server, got [response] and stored it at the
    time [stored], a call for the same url and options at a time [later]
    less than five minutes after [stored] returns [response], whatever
    the server would answer now, and leaves the cache as it is. *)
Theorem cachedFetch_serves_stored
    (cache : ApiCacheMap) (url options : string)
    (now stored later stored' : Z) (response : Response)
    (request' : Completion Response) :
  (forall e, cacheGet (cacheKey url options) cache = Some e ->
             CACHE_DURATION <= now - timestamp e) ->
  later - stored < CACHE_DURATION ->
  let first := cachedFetch cache url options now (Normal response) stored in
  fst first = Normal response
  /\ cachedFetch (snd first) url options later request' stored'
     = (Normal response, snd first).
Proof.
  intros Hstale Hfresh. cbn zeta.
  assert (E : cachedFetch cache url options now (Normal response) stored
              = (Normal response,
                 cacheSet (cacheKey url options)
                   (mkCacheEntry response stored) cache)).
  { unfold cachedFetch. cbn zeta.
    destruct (cacheGet (cacheKey url options) cache) as [e|] eqn:G;
      [|reflexivity].
    specialize (Hstale e eq_refl).
    destruct (Z.ltb_spec (now - timestamp e) CACHE_DURATION); [lia|reflexivity]. }
  rewrite E. cbn [fst snd]. split; [reflexivity|].
  unfold cachedFetch. cbn zeta.
  rewrite cacheGet_set, String.eqb_refl. cbn [timestamp data].
  destruct (Z.ltb_spec (later - stored) CACHE_DURATION); [reflexivity | lia].
Qed.

Lemma cachedFetch_serves_stored_witness :
  cachedFetch
    (snd (cachedFetch [] "https://openlibrary.org/search.json" "{}" 1000
            (Normal (mkResponse (JBool true) (JObj [("docs", JArr [])]))) 1200))
    "https://openlibrary.org/search.json" "{}" 300000 Throw 300500
  = (Normal (mkResponse (JBool true) (JObj [("docs", JArr [])])),
     snd (cachedFetch [] "https://openlibrary.org/search.json" "{}" 1000
            (Normal (mkResponse (JBool true) (JObj [("docs", JArr [])]))) 1200)).
Proof.
  apply (proj2 (cachedFetch_serves_stored [] "https://openlibrary.org/search.json"
                  "{}" 1000 1200 300000 300500
                  (mkResponse (JBool true) (JObj [("docs", JArr [])])) Throw
                  ltac:(intros e H; discriminate H)
                  ltac:(vm_compute; reflexivity))).
Defined.

(** X13.  What the cache never does.  An entry of five minutes or
    more is not served: the call asks the server and returns what the
    server gives.  A request that fails leaves the cache as it was.
    And a call never touches the entry of another key. *)
Theorem cachedFetch_expiry_and_failure
    (cache : ApiCacheMap) (url options : string)
    (now stored : Z) (request : Completion Response) :
  let result := cachedFetch cache url options now request stored in
  ((forall e, cacheGet (cacheKey url options) cache = Some e ->
              CACHE_DURATION <= now - timestamp e) ->
   fst result = request)
  /\ (fst result = Throw -> snd result = cache /\ request = Throw)
  /\ (forall k, k <> cacheKey url options ->
                cacheGet k (snd result) = cacheGet k cache).
Proof.
  cbn zeta. unfold cachedFetch. cbn zeta.
  destruct (cacheGet (cacheKey url options) cache) as [e|] eqn:G.
  - destruct (Z.ltb_spec (now - timestamp e) CACHE_DURATION) as [L|L].
    + cbn [fst snd]. repeat split; try discriminate.
      intros H. specialize (H e eq_refl). lia.
    + destruct request as [r|]; cbn [fst snd]; repeat split;
        try discriminate.
      intros k Hk. rewrite cacheGet_set.
      destruct (String.eqb_spec (cacheKey url options) k); congruence.
  - destruct request as [r|]; cbn [fst snd]; repeat split; try discriminate.
    intros k Hk. rewrite cacheGet_set.
    destruct (String.eqb_spec (cacheKey url options) k); congruence.
Qed.

End ApiCacheProperties.

(* ================================================================== *)
(** * [enhanceBookData]: nothing lost, and when it throws *)
(* ================================================================== *)

Section MergeCoverage.
Import JsString ApiService MergeSpec.

Variable workDetail : nat -> JsVal.

(** Every processed title has its record. *)
Definition covered (st : Merge) : Prop :=
  forall k, In k (processedTitles st) ->
            exists r, In r (enhancedBooks st) /\ workKey r = Some k.

Lemma covered_push (st : Merge) (r : JsVal) (k : string) :
  covered st -> workKey r = Some k ->
  covered (mkMerge (enhancedBooks st ++ [r]) (k :: processedTitles st)).
Proof.
  intros Hc Hr k' [<- | Hk]; cbn [enhancedBooks].
  - exists r. split; [apply in_or_app; right; now left | exact Hr].
  - destruct (Hc k' Hk) as (r' & Hr' & Hk').
    exists r'. split; [apply in_or_app; now left | exact Hk'].
Qed.

Lemma processWorks_covers (m : SearchMap) (works : list JsVal) :
  forall i st st',
    processWorks workDetail m i works st = Normal st' ->
    covered st ->
    covered st'
    /\ forall w t, In w works -> titleOf w = Some t ->
                   In (toLowerCase t) (processedTitles st').
Proof.
  induction works as [|w0 rest IH]; intros i st st' H Hc;
    cbn [processWorks] in H.
  - injection H as <-. split; [exact Hc | intros w t []].
  - destruct (prop w0 "title") as [t0|] eqn:P; cbn [bind] in H; [|discriminate].
    destruct (visit_title _ _ P) as [[Tf Tn] | [(s & -> & Tt & Ts) | [Tt Tl]]].
    + rewrite Tf in H. cbn [negb] in H.
      destruct (IH _ _ _ H Hc) as [C R]. split; [exact C|].
      intros w t [<- | Hw] Ht; [congruence | now apply (R w)].
    + rewrite Tt in H. cbn [negb lowerOf bind] in H.
      destruct (titles_has (processedTitles st) (toLowerCase s)) eqn:Hs.
      * destruct (IH _ _ _ H Hc) as [C R]. split; [exact C|].
        intros w t [<- | Hw] Ht; [|now apply (R w)].
        assert (t = s) by congruence. subst t.
        apply (processWorks_keeps workDetail _ _ _ _ _ H).
        now apply titles_has_true.
      * match type of H with
        | processWorks _ _ _ _ ?st2 = _ =>
            assert (Hc2 : covered st2)
        end.
        { apply covered_push; [exact Hc|].
          rewrite workKey_enhancedBook. unfold workKey. now rewrite Ts. }
        destruct (IH _ _ _ H Hc2) as [C R]. split; [exact C|].
        intros w t [<- | Hw] Ht; [|now apply (R w)].
        assert (t = s) by congruence. subst t.
        apply (processWorks_keeps workDetail _ _ _ _ _ H).
        cbn [processedTitles]. now left.
    + rewrite Tt, Tl in H. discriminate.
Qed.

Lemma addSearchOnly_covers (hits : list JsVal) :
  forall st st',
    addSearchOnly hits st = Normal st' ->
    covered st ->
    covered st'
    /\ forall h t, In h hits -> titleOf h = Some t ->
                   In (toLowerCase t) (processedTitles st').
Proof.
  induction hits as [|h0 rest IH]; intros st st' H Hc;
    cbn [addSearchOnly] in H.
  - injection H as <-. split; [exact Hc | intros h t []].
  - destruct (prop h0 "title") as [t0|] eqn:P; cbn [bind] in H; [|discriminate].
    destruct (visit_title _ _ P) as [[Tf Tn] | [(s & -> & Tt & Ts) | [Tt Tl]]].
    + rewrite Tf in H. cbn [negb] in H.
      destruct (IH _ _ H Hc) as [C R]. split; [exact C|].
      intros h t [<- | Hh] Ht; [congruence | now apply (R h)].
    + rewrite Tt in H. cbn [negb lowerOf bind] in H.
      destruct (titles_has (processedTitles st) (toLowerCase s)) eqn:Hs.
      * destruct (IH _ _ H Hc) as [C R]. split; [exact C|].
        intros h t [<- | Hh] Ht; [|now apply (R h)].
        assert (t = s) by congruence. subst t.
        apply (addSearchOnly_keeps _ _ _ H).
        now apply titles_has_true.
      * match type of H with
        | addSearchOnly _ ?st2 = _ => assert (Hc2 : covered st2)
        end.
        { apply covered_push; [exact Hc|].
          rewrite (workKey_searchOnlyBook h0 s Ts). unfold workKey.
          now rewrite Ts. }
        destruct (IH _ _ H Hc2) as [C R]. split; [exact C|].
        intros h t [<- | Hh] Ht; [|now apply (R h)].
        assert (t = s) by congruence. subst t.
        apply (addSearchOnly_keeps _ _ _ H).
        cbn [processedTitles]. now left.
    + rewrite Tt, Tl in H. discriminate.
Qed.

(** An entry the loops can visit: reading its title does not throw and
    gives nothing or a string. *)
Definition entry_ok (v : JsVal) : Prop :=
  exists t, prop v "title" = Normal t
            /\ (truthy t = false \/ exists s, t = JStr s).

Lemma entry_ok_visit (v : JsVal) :
  entry_ok v ->
  exists t, prop v "title" = Normal t
            /\ (truthy t = false
                \/ exists s, t = JStr s /\ truthy t = true
                             /\ lowerOf t = Normal (toLowerCase s)).
Proof.
  intros (t & P & H). exists t. split; [exact P|].
  destruct (truthy t) eqn:T; [|now left].
  right. destruct H as [H | (s & ->)]; [discriminate|].
  exists s. auto.
Qed.

Lemma buildSearchMap_total (hits : list JsVal) :
  forall m0,
    (exists m, buildSearchMap hits m0 = Normal m) <-> Forall entry_ok hits.
Proof.
  induction hits as [|h rest IH]; intros m0; cbn [buildSearchMap].
  - split; [constructor | eauto].
  - split.
    + intros [m H].
      destruct (prop h "title") as [t|] eqn:P; cbn [bind] in H; [|discriminate].
      destruct (visit_title _ _ P) as [[Tf _] | [(s & -> & Tt & _) | [Tt Tl]]].
      * rewrite Tf in H. constructor; [exists t; auto|].
        apply (IH m0). eauto.
      * rewrite Tt in H. cbn [lowerOf bind] in H.
        constructor; [exists (JStr s); eauto|].
        eapply IH. eauto.
      * rewrite Tt, Tl in H. discriminate.
    + intros H. inversion H as [|? ? Hh Hr]; subst.
      destruct (entry_ok_visit _ Hh) as (t & P & [Tf | (s & -> & Tt & Tl)]);
        rewrite P; cbn [bind].
      * rewrite Tf. now apply IH.
      * rewrite Tt. cbn [lowerOf bind]. now apply IH.
Qed.

Lemma processWorks_total (m : SearchMap) (works : list JsVal) :
  forall i st,
    (exists st', processWorks workDetail m i works st = Normal st')
    <-> Forall entry_ok works.
Proof.
  induction works as [|w rest IH]; intros i st; cbn [processWorks].
  - split; [constructor | eauto].
  - split.
    + intros [st' H].
      destruct (prop w "title") as [t|] eqn:P; cbn [bind] in H; [|discriminate].
      destruct (visit_title _ _ P) as [[Tf _] | [(s & -> & Tt & _) | [Tt Tl]]].
      * rewrite Tf in H. cbn [negb] in H.
        constructor; [exists t; auto|]. eapply IH. eauto.
      * rewrite Tt in H. cbn [negb lowerOf bind] in H.
        constructor; [exists (JStr s); eauto|].
        destruct (titles_has (processedTitles st) (toLowerCase s));
          eapply IH; eauto.
      * rewrite Tt, Tl in H. discriminate.
    + intros H. inversion H as [|? ? Hw Hr]; subst.
      destruct (entry_ok_visit _ Hw) as (t & P & [Tf | (s & -> & Tt & Tl)]);
        rewrite P; cbn [bind].
      * rewrite Tf. cbn [negb]. now apply IH.
      * rewrite Tt. cbn [negb lowerOf bind].
        destruct (titles_has (processedTitles st) (toLowerCase s));
          now apply IH.
Qed.

Lemma addSearchOnly_total (hits : list JsVal) :
  forall st,
    Forall entry_ok hits -> exists st', addSearchOnly hits st = Normal st'.
Proof.
  induction hits as [|h rest IH]; intros st H; cbn [addSearchOnly]; [eauto|].
  inversion H as [|? ? Hh Hr]; subst.
  destruct (entry_ok_visit _ Hh) as (t & P & [Tf | (s & -> & Tt & Tl)]);
    rewrite P; cbn [bind].
  - rewrite Tf. cbn [negb]. now apply IH.
  - rewrite Tt. cbn [negb lowerOf bind].
    destruct (titles_has (processedTitles st) (toLowerCase s)); now apply IH.
Qed.

End MergeCoverage.

Section MergeProperties.
Import JsString ApiService MergeSpec.

(** X14.  The merge loses no title: whenever it returns, every work
    and every search hit that has a title has a record of the same
    lower-cased title in the result. *)
Theorem enhanceBookData_keeps_every_title
    (workDetail : nat -> JsVal) (works hits out : list JsVal) :
  enhanceBookData workDetail (JArr works) (JArr hits) = Normal out ->
  forall v t,
    In v works \/ In v hits -> titleOf v = Some t ->
    exists r, In r out /\ workKey r = Some (toLowerCase t).
Proof.
  unfold enhanceBookData. cbn [arrayOrEmpty]. intros H v t Hv Ht.
  destruct (buildSearchMap hits []) as [m|]; cbn [bind] in H; [|discriminate].
  destruct (processWorks workDetail m 0 works (mkMerge [] [])) as [st|] eqn:Hp;
    cbn [bind] in H; [|discriminate].
  destruct (addSearchOnly hits st) as [st'|] eqn:Ha; cbn [bind] in H;
    [|discriminate].
  injection H as <-.
  destruct (processWorks_covers workDetail _ _ _ _ _ Hp) as [C1 R1].
  { intros k []. }
  destruct (addSearchOnly_covers _ _ _ Ha C1) as [C2 R2].
  apply C2. destruct Hv as [Hw | Hh].
  - apply (addSearchOnly_keeps _ _ _ Ha). now apply (R1 v).
  - now apply (R2 v).
Qed.

Lemma enhanceBookData_keeps_every_title_witness :
  exists r,
    In r [enhancedBook cursedChildWork cursedChildHit cursedChildDetail]
    /\ workKey r = Some "harry potter and the cursed child".
Proof.
  apply (enhanceBookData_keeps_every_title (fun _ => cursedChildDetail)
           [cursedChildWork] [cursedChildHit] _
           ltac:(vm_compute; reflexivity)
           cursedChildHit "Harry Potter and the Cursed Child").
  - right. left. reflexivity.
  - reflexivity.
Defined.

(** X15.  Whenever the merge returns, every record of the result has
    a title that is not empty, and no two records have the same
    lower-cased title. *)
Theorem enhanceBookData_titles_distinct
    (workDetail : nat -> JsVal) (works searchBooks : JsVal) (out : list JsVal) :
  enhanceBookData workDetail works searchBooks = Normal out ->
  NoDup (map workKey out)
  /\ forall r, In r out ->
               exists t, titleOf r = Some t /\ t <> EmptyString.
Proof.
  intros H.
  destruct (enhanceBookData_lower_titles_unique workDetail _ _ _ H) as [Hnd Hk].
  split; [exact Hnd|].
  intros r Hr. destruct (Hk r Hr) as [k Hkr].
  unfold workKey in Hkr. destruct (titleOf r) as [t|] eqn:Ht; [|discriminate].
  exists t. split; [reflexivity|].
  unfold titleOf in Ht. destruct (optProp r "title"); try discriminate.
  destruct (String.eqb_spec s ""); [discriminate|]. congruence.
Qed.

Lemma enhanceBookData_titles_distinct_witness :
  NoDup (map workKey
           [enhancedBook cursedChildWork cursedChildHit cursedChildDetail]).
Proof.
  apply (proj1 (enhanceBookData_titles_distinct (fun _ => cursedChildDetail)
                  (JArr [cursedChildWork]) (JArr [cursedChildHit]) _
                  ltac:(vm_compute; reflexivity))).
Defined.

(** X16.  When the merge throws.  On two lists the merge returns
    exactly when every entry of both can be visited: it is an object
    (or another value that has properties) whose title is absent, falsy
    or a string.  One entry that is [null] or [undefined], or whose
    title is a number, makes the whole merge throw. *)
Theorem enhanceBookData_returns_iff
    (workDetail : nat -> JsVal) (works hits : list JsVal) :
  (exists out, enhanceBookData workDetail (JArr works) (JArr hits) = Normal out)
  <-> Forall entry_ok works /\ Forall entry_ok hits.
Proof.
  unfold enhanceBookData. cbn [arrayOrEmpty]. split.
  - intros [out H].
    destruct (buildSearchMap hits []) as [m|] eqn:Hm; cbn [bind] in H;
      [|discriminate].
    destruct (processWorks workDetail m 0 works (mkMerge [] [])) as [st|] eqn:Hp;
      cbn [bind] in H; [|discriminate].
    split.
    + apply (processWorks_total workDetail m works 0 (mkMerge [] [])). eauto.
    + apply (buildSearchMap_total hits []). eauto.
  - intros [Hw Hh].
    destruct (proj2 (buildSearchMap_total hits []) Hh) as [m ->]. cbn [bind].
    destruct (proj2 (processWorks_total workDetail m works 0 (mkMerge [] [])) Hw)
      as [st ->]. cbn [bind].
    destruct (addSearchOnly_total hits st Hh) as [st' ->]. cbn [bind]. eauto.
Qed.

Lemma enhanceBookData_returns_iff_witness :
  (exists out,
      enhanceBookData (fun _ => JNull)
        (JArr [cursedChildWork; JStr "stray"]) (JArr [cursedChildHit])
      = Normal out)
  /\ ~ (exists out,
           enhanceBookData (fun _ => JNull)
             (JArr [cursedChildWork; JNull]) (JArr [cursedChildHit])
           = Normal out).
Proof.
  split.
  - apply (proj2 (enhanceBookData_returns_iff (fun _ => JNull)
                    [cursedChildWork; JStr "stray"] [cursedChildHit])).
    split; repeat constructor; eexists; (split; [reflexivity|]);
      first [left; reflexivity | right; eexists; reflexivity].
  - intros H.
    apply (proj1 (enhanceBookData_returns_iff (fun _ => JNull)
                    [cursedChildWork; JNull] [cursedChildHit])) in H.
    destruct H as [H _]. inversion H as [|? ? _ H2]; subst.
    inversion H2 as [|? ? (t & P & _) _]; subst. discriminate P.
Defined.

(** X17.  [total] is the number of books: whenever
    [fetchDetailedJKRowlingBooks] returns a list of books, on whichever
    path, the [total] it returns with it is the length of the list. *)
Theorem fetchDetailed_total_is_count
    (workDetail : nat -> JsVal)
    (worksCall searchCall retryCall : Completion Response)
    (result : CatalogResult) (l : list JsVal) :
  fetchDetailedJKRowlingBooks workDetail worksCall searchCall retryCall
  = Normal result ->
  books result = JArr l ->
  total result = JNum (Z.of_nat (List.length l)).
Proof.
  unfold fetchDetailedJKRowlingBooks. intros H Hb.
  destruct (combinedAttempt workDetail worksCall searchCall) as [r|] eqn:C;
    cbn [try_catch] in H.
  - injection H as ->. unfold combinedAttempt in C.
    destruct worksCall as [wr|]; cbn [bind] in C; [|discriminate].
    destruct searchCall as [sr|]; cbn [bind] in C; [|discriminate].
    destruct (negb (truthy (ok wr)) || negb (truthy (ok sr))); [discriminate|].
    destruct (enhanceOrSearch workDetail (body wr) (body sr)) as [e|];
      cbn [bind] in C; [|discriminate].
    injection C as <-. cbn [books total] in *. now subst e.
  - unfold searchOnlyRetry in H.
    destruct retryCall as [sr|]; cbn [bind] in H; [|discriminate].
    destruct (prop (body sr) "docs") as [docs|]; cbn [bind] in H;
      [|discriminate].
    injection H as <-. cbn [books total] in *.
    unfold jsOr in *.
    destruct docs as [| |b|z|s|a|o]; cbn [truthy nullish lengthOf] in *;
      try (injection Hb as <-; reflexivity); try discriminate.
    + destruct b; [discriminate | injection Hb as <-; reflexivity].
    + destruct (Z.eqb z 0); cbn [negb] in *;
        [injection Hb as <-; reflexivity | discriminate].
    + destruct s as [|c s]; cbn in *;
        [injection Hb as <-; reflexivity | discriminate].
    + injection Hb as ->. destruct l; reflexivity.
Qed.

Lemma fetchDetailed_total_is_count_witness :
  total (mkCatalogResult (JArr [cursedChildHit]) (JNum 1)) = JNum 1.
Proof.
  apply (fetchDetailed_total_is_count (fun _ => JNull)
           Throw Throw
           (Normal (mkResponse JUndefined (JObj [("docs", JArr [cursedChildHit])])))
           (mkCatalogResult (JArr [cursedChildHit]) (JNum 1)) [cursedChildHit]);
    reflexivity.
Defined.

End MergeProperties.

(* ================================================================== *)
(** * The description resolver: what a description can be *)
(* ================================================================== *)

Section DescriptionProperties.
Import JsString Catalogue ApiService.

Lemma shortenDescription_long (raw s : string) :
  shortenDescription raw = Some s -> 50 < String.length s.
Proof.
  unfold shortenDescription. cbn zeta.
  match goal with
  | |- (if 50 <? String.length ?d then _ else _) = _ -> _ =>
      destruct (Nat.ltb_spec 50 (String.length d)); [|discriminate]
  end.
  now intros [= <-].
Qed.

(** What the dataset lookup returns is [null] or a text of more than
    fifty code units. *)
Lemma fetchFromGoodreadsDataset_long
    (datasetCall : Completion DatasetResponse) (book : Book) (s : string) :
  fetchFromGoodreadsDataset datasetCall book = Normal (Some s) ->
  50 < String.length s.
Proof.
  unfold fetchFromGoodreadsDataset.
  destruct datasetCall as [response|]; cbn [bind try_catch]; [|discriminate].
  destruct (dataset_ok response); cbn [negb try_catch]; [|discriminate].
  destruct (dataset_json response) as [[rows|]|]; cbn [bind try_catch];
    try discriminate.
  destruct (findRow book rows) as [[row|]|]; cbn [bind try_catch];
    try discriminate.
  destruct (truthy_string (row_description row)); cbn [try_catch];
    [|discriminate].
  destruct (row_description row) as [raw|]; cbn [try_catch]; [|discriminate].
  intros [= H]. now apply shortenDescription_long in H.
Qed.

(** X18.  For a book with a title, the description is the text of the
    rule-based template, or a text from the dataset of more than fifty
    code units: a shorter dataset text is never shown. *)
Theorem generateBookDescription_is_template_or_long
    (datasetCall : Completion DatasetResponse) (book : Book) (t : string) :
  title book = Some t ->
  exists s,
    generateBookDescription datasetCall book = Normal s
    /\ (getFallbackDescription book = Normal s
        \/ (fetchFromGoodreadsDataset datasetCall book = Normal (Some s)
            /\ 50 < String.length s)).
Proof.
  intros Ht. pose proof (getFallbackDescription_titled book t Ht) as Hf.
  unfold generateBookDescription.
  destruct (fetchFromGoodreadsDataset_returns datasetCall book) as [r Hr].
  rewrite Hr. cbn [try_catch].
  destruct r as [g|]; [|rewrite Hf; eauto].
  destruct (negb (String.eqb g "")); [|rewrite Hf; eauto].
  exists g. split; [reflexivity|]. right. split; [reflexivity|].
  now apply (fetchFromGoodreadsDataset_long datasetCall book).
Qed.

Lemma generateBookDescription_is_template_or_long_witness :
  exists s,
    generateBookDescription
      (Normal (mkDatasetResponse true
                 (Normal (Some [mkDatasetRow (Some "The Ickabog")
                                  (Some "J.K. Rowling") (Some "A tale.")]))))
      (mkBook (Some "The Ickabog") (Some 2020%Z) None None None)
    = Normal s.
Proof.
  destruct (generateBookDescription_is_template_or_long
              (Normal (mkDatasetResponse true
                 (Normal (Some [mkDatasetRow (Some "The Ickabog")
                                  (Some "J.K. Rowling") (Some "A tale.")]))))
              (mkBook (Some "The Ickabog") (Some 2020%Z) None None None)
              "The Ickabog" eq_refl) as (s & Hs & _).
  exists s. exact Hs.
Defined.

Lemma toLowerCase_join (parts : list string) :
  toLowerCase (join parts " ") = join (map toLowerCase parts) " ".
Proof.
  unfold join. induction parts as [|p rest IH]; [reflexivity|].
  destruct rest as [|q rest]; [reflexivity|].
  cbn [String.concat map] in *.
  now rewrite !toLowerCase_app, IH.
Qed.

(** The subjects the template reads: [book.subject || []]. *)
Definition subjectsOf (book : Book) : list string :=
  match subject book with
  | Some l => l
  | None => []
  end.

(** X19.  The rule-based template does not look at case: two books
    whose titles and subjects differ by case only get the same text
    (and a book without a title makes it throw in either case). *)
Theorem getFallbackDescription_ignores_case (a b : Book) :
  option_map toLowerCase (title a) = option_map toLowerCase (title b) ->
  map toLowerCase (subjectsOf a) = map toLowerCase (subjectsOf b) ->
  getFallbackDescription a = getFallbackDescription b.
Proof.
  intros Ht Hs. unfold getFallbackDescription, lowerTitle.
  fold (subjectsOf a) (subjectsOf b).
  rewrite !toLowerCase_join, Hs.
  destruct (title a), (title b); cbn [option_map] in Ht;
    try discriminate; [|reflexivity].
  injection Ht as ->. reflexivity.
Qed.

Lemma getFallbackDescription_ignores_case_witness :
  getFallbackDescription
    (mkBook (Some "HARRY POTTER and the Goblet of Fire") None None
            (Some ["MAGIC"]) None)
  = Normal "Harry faces his most dangerous challenges yet as he competes in the legendary Triwizard Tournament.".
Proof.
  rewrite (getFallbackDescription_ignores_case
             (mkBook (Some "HARRY POTTER and the Goblet of Fire") None None
                     (Some ["MAGIC"]) None)
             (mkBook (Some "harry potter and the goblet of fire") None None
                     (Some ["magic"]) None) eq_refl eq_refl).
  vm_compute. reflexivity.
Defined.

End DescriptionProperties.

(* ================================================================== *)
(** * [cleanGeneratedDescription] *)
(* ================================================================== *)

Module DescriptionCleaning.
Import JsString Catalogue ApiService PageText.

(** A word character, [\w]; [\W] is its complement. *)
Definition is_word (c : ascii) : bool :=
  is_lower c || is_upper c || is_digit c || Ascii.eqb c "_".

(** [text.replace(/^(Book summary:|Book description:|Description:)/i, '')]:
    the first of the three labels the text starts with is taken off. *)
Definition stripLabel (text : string) : string :=
  if matchesAt text "Book summary:" then drop 13 text
  else if matchesAt text "Book description:" then drop 17 text
  else if matchesAt text "Description:" then drop 12 text
  else text.

(** [text.replace(/^\W+/, '')] *)
Fixpoint dropNonWord (text : string) : string :=
  match text with
  | EmptyString => EmptyString
  | String c r => if is_word c then text else dropNonWord r
  end.

(** [description.match(/[.!?]$/)] as a truth value *)
Fixpoint endsWithMark (s : string) : bool :=
  match s with
  | EmptyString => false
  | String c EmptyString => is_sentence_end c
  | String _ r => endsWithMark r
  end.

(** [s.lastIndexOf(c)], [None] for [-1] *)
Fixpoint lastIndexOf (c : ascii) (s : string) : option nat :=
  match s with
  | EmptyString => None
  | String a r =>
      match lastIndexOf c r with
      | Some p => Some (S p)
      | None => if Ascii.eqb a c then Some 0 else None
      end
  end.

(** The cut of a description of more than 200 code units. *)
Definition truncateDescription (description : string) : string :=
  let description := take 200 description in
  let atSpace :=
    (match lastIndexOf " " description with
     | Some p => take p description
     | None => EmptyString
     end ++ ".")%string in
  match lastIndexOf "." description with
  | Some lastPeriod =>
      if 100 <? lastPeriod then take (lastPeriod + 1) description else atSpace
  | None => atSpace
  end.

(** The branch of [cleanGeneratedDescription] for a text with a
    sentence. *)
Definition fromSentences (sentences : list string) : string :=
  let description := trim (nth 0 sentences "") in
  let description :=
    if (String.length description <? 80) && (1 <? List.length sentences)
    then (description ++ ". " ++ trim (nth 1 sentences ""))%string
    else description in
  let description :=
    if endsWithMark description then description
    else (description ++ ".")%string in
  let description :=
    (toUpperCase (charAt0 description) ++ slice1 description)%string in
  if 200 <? String.length description
  then truncateDescription description
  else description.

Definition cleanGeneratedDescription (text : string) (book : Book)
  : Completion string :=
  if String.eqb text "" then Normal ""
  else
    let text := trim (stripLabel text) in
    let text := trim (dropNonWord text) in
    let sentences :=
      filter (fun s => 10 <? String.length (trim s)) (splitSentences text) in
    if 0 <? List.length sentences
    then Normal (fromSentences sentences)
    else getFallbackDescription book.

End DescriptionCleaning.

Section CleaningFacts.
Import JsString Catalogue ApiService PageText DescriptionCleaning.

Lemma take_length (n : nat) (s : string) :
  String.length (take n s) = Nat.min n (String.length s).
Proof.
  revert s. induction n as [|n IH]; intros [|c r]; cbn [take String.length];
    try reflexivity.
  now rewrite IH.
Qed.

Lemma string_app_length (a b : string) :
  String.length (a ++ b) = String.length a + String.length b.
Proof.
  induction a as [|c r IH]; cbn [String.append String.length]; lia.
Qed.

Lemma endsWithMark_app_dot (s : string) : endsWithMark (s ++ ".") = true.
Proof.
  induction s as [|c r IH]; [reflexivity|].
  cbn [String.append]. destruct r as [|c' r']; [reflexivity|].
  cbn [String.append endsWithMark] in *. exact IH.
Qed.

Lemma lastIndexOf_bound (c : ascii) (s : string) (p : nat) :
  lastIndexOf c s = Some p -> p < String.length s.
Proof.
  revert p. induction s as [|a r IH]; intros p H; cbn [lastIndexOf] in H;
    [discriminate|].
  cbn [String.length].
  destruct (lastIndexOf c r) as [q|].
  - injection H as <-. specialize (IH q eq_refl). lia.
  - destruct (Ascii.eqb a c); [injection H as <-; lia | discriminate].
Qed.

(** The text up to and with the last full stop ends with it. *)
Lemma endsWithMark_take_period (s : string) (p : nat) :
  lastIndexOf "." s = Some p -> endsWithMark (take (p + 1) s) = true.
Proof.
  revert p. induction s as [|a r IH]; intros p H; cbn [lastIndexOf] in H;
    [discriminate|].
  destruct (lastIndexOf "." r) as [q|] eqn:L.
  - injection H as <-. specialize (IH q eq_refl).
    destruct r as [|b r']; [discriminate L|].
    replace (S q + 1) with (S (S q)) by lia.
    replace (q + 1) with (S q) in IH by lia.
    cbn [take] in *. cbn [endsWithMark]. exact IH.
  - destruct (Ascii.eqb_spec a "."); [|discriminate].
    injection H as <-. subst a. cbn [Nat.add take].
    now destruct r.
Qed.

Lemma is_sentence_end_upper (c : ascii) :
  is_sentence_end (upper_char c) = is_sentence_end c.
Proof. destruct c as [[] [] [] [] [] [] [] []]; reflexivity. Qed.

Lemma endsWithMark_capital (s : string) :
  endsWithMark (toUpperCase (charAt0 s) ++ slice1 s) = endsWithMark s.
Proof.
  destruct s as [|c r]; [reflexivity|].
  cbn [charAt0 toUpperCase slice1 String.append].
  destruct r; cbn [endsWithMark]; [apply is_sentence_end_upper | reflexivity].
Qed.

Lemma capital_length (s : string) :
  String.length (toUpperCase (charAt0 s) ++ slice1 s) = String.length s.
Proof. destruct s; reflexivity. Qed.

Lemma truncateDescription_bounded (d : string) :
  String.length (truncateDescription d) <= 200
  /\ endsWithMark (truncateDescription d) = true.
Proof.
  unfold truncateDescription. cbn zeta.
  set (d' := take 200 d).
  assert (Hd : String.length d' <= 200).
  { unfold d'. rewrite take_length. lia. }
  assert (Hsp : String.length
                  (match lastIndexOf " " d' with
                   | Some p => take p d'
                   | None => EmptyString
                   end ++ ".") <= 200
                /\ endsWithMark
                     (match lastIndexOf " " d' with
                      | Some p => take p d'
                      | None => EmptyString
                      end ++ ".") = true).
  { split; [|apply endsWithMark_app_dot].
    rewrite string_app_length. cbn [String.length].
    destruct (lastIndexOf " " d') as [p|] eqn:L; [|cbn; lia].
    apply lastIndexOf_bound in L. rewrite take_length. lia. }
  destruct (lastIndexOf "." d') as [p|] eqn:L; [|exact Hsp].
  destruct (100 <? p); [|exact Hsp].
  split; [rewrite take_length; lia | now apply endsWithMark_take_period].
Qed.

Lemma fromSentences_bounded (sentences : list string) :
  String.length (fromSentences sentences) <= 200
  /\ endsWithMark (fromSentences sentences) = true.
Proof.
  unfold fromSentences. cbn zeta.
  match goal with
  | |- context [if endsWithMark ?d then _ else _] => set (d0 := d)
  end.
  set (d1 := if endsWithMark d0 then d0 else (d0 ++ ".")%string).
  assert (H1 : endsWithMark d1 = true).
  { unfold d1. destruct (endsWithMark d0) eqn:E;
      [exact E | apply endsWithMark_app_dot]. }
  destruct (Nat.ltb_spec 200
              (String.length (toUpperCase (charAt0 d1) ++ slice1 d1))) as [L|L].
  - apply truncateDescription_bounded.
  - split; [exact L|]. now rewrite endsWithMark_capital.
Qed.

Lemma fallbackTemplate_bounded (title subjectStr : string) :
  String.length (fallbackTemplate title subjectStr) <= 200
  /\ endsWithMark (fallbackTemplate title subjectStr) = true.
Proof.
  unfold fallbackTemplate, harryPotterDescription.
  repeat match goal with
         | |- context [if ?b then _ else _] => destruct b
         end;
    split; vm_compute; first [reflexivity | lia | discriminate].
Qed.

End CleaningFacts.

Section CleaningProperties.
Import JsString Catalogue ApiService PageText DescriptionCleaning.

(** X20.  What [cleanGeneratedDescription] returns is short and
    closed: the result never has more than 200 code units, and for a
    text that is not empty it ends with a full stop, an exclamation mark
    or a question mark; for the empty text it is the empty text. *)
Theorem cleanGeneratedDescription_bounded
    (text : string) (book : Book) (s : string) :
  cleanGeneratedDescription text book = Normal s ->
  String.length s <= 200
  /\ (text <> EmptyString -> endsWithMark s = true)
  /\ (text = EmptyString -> s = EmptyString).
Proof.
  unfold cleanGeneratedDescription.
  destruct (String.eqb_spec text "") as [E|E].
  - intros [= <-]. cbn. repeat split; try lia; congruence.
  - cbn zeta.
    match goal with
    | |- (if 0 <? List.length ?l then _ else _) = _ -> _ =>
        destruct (0 <? List.length l);
        [pose proof (fromSentences_bounded l) as [B1 B2] |]
    end.
    + intros [= <-]. repeat split; auto. congruence.
    + unfold getFallbackDescription.
      destruct (lowerTitle book) as [t|]; cbn [bind]; [|discriminate].
      intros [= <-].
      match goal with
      | |- context [fallbackTemplate ?a ?b] =>
          destruct (fallbackTemplate_bounded a b) as [B1 B2]
      end.
      repeat split; auto. congruence.
Qed.

Lemma cleanGeneratedDescription_bounded_witness :
  cleanGeneratedDescription
    "Description: a boy learns that he is a wizard! then he goes to school"
    (mkBook (Some "Harry Potter") None None None None)
  = Normal "A boy learns that he is a wizard. then he goes to school."
  /\ endsWithMark "A boy learns that he is a wizard. then he goes to school."
     = true.
Proof.
  assert (E : cleanGeneratedDescription
    "Description: a boy learns that he is a wizard! then he goes to school"
    (mkBook (Some "Harry Potter") None None None None)
  = Normal "A boy learns that he is a wizard. then he goes to school.")
    by (vm_compute; reflexivity).
  split; [exact E|].
  apply (proj1 (proj2 (cleanGeneratedDescription_bounded _ _ _ E))).
  discriminate.
Defined.

End CleaningProperties.

(* ================================================================== *)
(** * [categorizeGenre] and the case of the subject *)
(* ================================================================== *)

Section GenreCase.
Import JsString BooksPage.









End GenreCase.

(* ================================================================== *)
(** * The carousel of featured books: the scroll position *)
(* ================================================================== *)

Module Carousel.

Local Open Scope Z_scope.

(** The two fields of [FeaturedBooksCarousel] the scrolling works on. *)
Record Scroller : Type := mkScroller
  { currentPosition : Z;
    autoScrollDirection : Z }.

(** 300px card + 16px gap *)
Definition cardWidth : Z := 316.

(** [performAutoScroll], [maxScroll] being
    [container.scrollWidth - container.clientWidth]. *)
Definition performAutoScroll (maxScroll : Z) (st : Scroller) : Scroller :=
  if autoScrollDirection st =? 1 then
    if maxScroll <=? currentPosition st
    then mkScroller (currentPosition st) (-1)
    else
      let p := currentPosition st + cardWidth in
      mkScroller (if maxScroll <? p then maxScroll else p)
                 (autoScrollDirection st)
  else
    if currentPosition st <=? 0
    then mkScroller (currentPosition st) 1
    else
      let p := currentPosition st - cardWidth in
      mkScroller (if p <? 0 then 0 else p) (autoScrollDirection st).

(** [manualScroll(direction)] *)
Definition manualScroll (direction : string) (maxScroll : Z) (st : Scroller)
  : Scroller :=
  if String.eqb direction "next" then
    let p := currentPosition st + cardWidth in
    mkScroller (if maxScroll <? p then maxScroll else p)
               (autoScrollDirection st)
  else
    let p := currentPosition st - cardWidth in
    mkScroller (if p <? 0 then 0 else p) (autoScrollDirection st).

(** What happens to the carousel: a tick of the timer, a click on an
    arrow, or a scroll of the user to the place the event tells. *)
Inductive Event : Type :=
| Tick : Event
| Arrow : string -> Event
| Scrolled : Z -> Event.

Definition step (maxScroll : Z) (st : Scroller) (e : Event) : Scroller :=
  match e with
  | Tick => performAutoScroll maxScroll st
  | Arrow direction => manualScroll direction maxScroll st
  | Scrolled scrollLeft => mkScroller scrollLeft (autoScrollDirection st)
  end.

Definition run (maxScroll : Z) (events : list Event) (st : Scroller) : Scroller :=
  fold_left (step maxScroll) events st.

(** The carousel as the constructor leaves it. *)
Definition initial : Scroller := mkScroller 0 1.

(** The places the browser can report: within the scroll range. *)
Definition event_in_range (maxScroll : Z) (e : Event) : Prop :=
  match e with
  | Scrolled scrollLeft => 0 <= scrollLeft <= maxScroll
  | _ => True
  end.

Definition in_range (maxScroll : Z) (st : Scroller) : Prop :=
  0 <= currentPosition st <= maxScroll
  /\ (autoScrollDirection st = 1 \/ autoScrollDirection st = -1).

End Carousel.

Section CarouselProperties.
Import Carousel.

Local Open Scope Z_scope.

Lemma step_in_range (maxScroll : Z) (st : Scroller) (e : Event) :
  0 <= maxScroll -> event_in_range maxScroll e ->
  in_range maxScroll st -> in_range maxScroll (step maxScroll st e).
Proof.
  intros Hmax He [Hp Hd]. unfold in_range.
  destruct e as [|direction|scrollLeft]; cbn [step event_in_range] in *.
  - unfold performAutoScroll, cardWidth.
    destruct (autoScrollDirection st =? 1) eqn:D.
    + destruct (Z.leb_spec maxScroll (currentPosition st));
        cbn [currentPosition autoScrollDirection]; [lia|].
      destruct (Z.ltb_spec maxScroll (currentPosition st + 316)); lia.
    + destruct (Z.leb_spec (currentPosition st) 0);
        cbn [currentPosition autoScrollDirection]; [lia|].
      destruct (Z.ltb_spec (currentPosition st - 316) 0); lia.
  - unfold manualScroll, cardWidth.
    destruct (String.eqb direction "next");
      cbn [currentPosition autoScrollDirection].
    + destruct (Z.ltb_spec maxScroll (currentPosition st + 316)); lia.
    + destruct (Z.ltb_spec (currentPosition st - 316) 0); lia.
  - cbn [currentPosition autoScrollDirection]. lia.
Qed.

(** X22.  The carousel never scrolls past its ends: from the start,
    whatever ticks of the timer, clicks on the arrows and scrolls of
    the user follow one another, the position stays between 0 and
    [maxScroll] and the direction is 1 or -1; a tick at an end turns
    the direction and leaves the position. *)
Theorem carousel_stays_in_range (maxScroll : Z) (events : list Event) :
  0 <= maxScroll ->
  Forall (event_in_range maxScroll) events ->
  in_range maxScroll (run maxScroll events initial)
  /\ (forall st, in_range maxScroll st ->
                 currentPosition st = maxScroll ->
                 autoScrollDirection st = 1 ->
                 performAutoScroll maxScroll st = mkScroller maxScroll (-1))
  /\ (forall st, in_range maxScroll st ->
                 currentPosition st = 0 ->
                 autoScrollDirection st = -1 ->
                 performAutoScroll maxScroll st = mkScroller 0 1).
Proof.
  intros Hmax Hev. split; [|split].
  - assert (G : forall st, in_range maxScroll st ->
                           in_range maxScroll (run maxScroll events st)).
    { induction Hev as [|e rest He Hrest IH]; intros st Hst; [exact Hst|].
      cbn [run fold_left]. apply IH. now apply step_in_range. }
    apply G. unfold in_range, initial. cbn. lia.
  - intros st _ Hp Hd. unfold performAutoScroll. rewrite Hd, Hp.
    cbn [Z.eqb Pos.eqb]. now rewrite Z.leb_refl.
  - intros st _ Hp Hd. unfold performAutoScroll. rewrite Hd, Hp.
    reflexivity.
Qed.

Lemma carousel_stays_in_range_witness :
  in_range 700
    (run 700 [Tick; Tick; Tick; Arrow "next"; Scrolled 120; Arrow "prev"; Tick]
         initial).
Proof.
  apply (proj1 (carousel_stays_in_range 700
                  [Tick; Tick; Tick; Arrow "next"; Scrolled 120; Arrow "prev"; Tick]
                  ltac:(lia)
                  ltac:(repeat constructor; cbn; lia))).
Defined.

End CarouselProperties.

(* ================================================================== *)
(** * [fuzzySearch]: what a match means *)
(* ================================================================== *)

Module SubsequenceSpec.

(** The code units of the first string occur in the second, in their
    order. *)
Inductive Subsequence : string -> string -> Prop :=
| sub_empty : forall text, Subsequence EmptyString text
| sub_skip : forall query b text,
    Subsequence query text -> Subsequence query (String b text)
| sub_take : forall c query text,
    Subsequence query text -> Subsequence (String c query) (String c text).

End SubsequenceSpec.

Section SubsequenceFacts.
Import JsString BooksPage FuzzySpec SubsequenceSpec PageText.

Lemma Subsequence_tail (c : ascii) (query text : string) :
  Subsequence (String c query) text -> Subsequence query text.
Proof.
  remember (String c query) as q eqn:E. intros H. revert c query E.
  induction H as [text | q b text H IH | c' q text H IH]; intros c query E.
  - discriminate.
  - constructor. now apply (IH c).
  - injection E as -> ->. now constructor.
Qed.

(** The cursor finds the first place of a code unit; what is in order
    behind any place of it is in order behind the first. *)
Lemma advance_to_greedy (c : ascii) (query text : string) :
  Subsequence (String c query) text ->
  exists rest, advance_to c text = Some rest /\ Subsequence query rest.
Proof.
  remember (String c query) as q eqn:E. intros H. revert c query E.
  induction H as [text | q b text H IH | c' q text H IH]; intros c query E.
  - discriminate.
  - subst q. cbn [advance_to]. destruct (Ascii.eqb c b).
    + exists text. split; [reflexivity|]. now apply (Subsequence_tail c).
    + now apply IH.
  - injection E as -> ->. cbn [advance_to]. rewrite Ascii.eqb_refl. eauto.
Qed.

Lemma hits_of_subsequence (query text : string) :
  Subsequence query text -> hits query text = String.length query.
Proof.
  revert text. induction query as [|c q IH]; intros text H; [reflexivity|].
  cbn [hits String.length].
  destruct (advance_to_greedy c q text H) as (rest & -> & Hr).
  now rewrite (IH rest Hr).
Qed.

Lemma advance_to_subsequence (c : ascii) (text rest : string) (query : string) :
  advance_to c text = Some rest -> Subsequence query rest ->
  Subsequence (String c query) text.
Proof.
  revert rest. induction text as [|b t IH]; intros rest H Hq;
    cbn [advance_to] in H; [discriminate|].
  destruct (Ascii.eqb_spec c b) as [->|N].
  - injection H as <-. now constructor.
  - constructor. now apply (IH rest).
Qed.

(** The hits are code units of the query found in order in the text. *)
Lemma hits_subsequence (query text : string) :
  Subsequence (take (hits query text) query) text.
Proof.
  revert text. induction query as [|c q IH]; intros text; cbn [hits].
  - cbn [take]. constructor.
  - destruct (advance_to c text) as [rest|] eqn:A.
    + cbn [take]. apply (advance_to_subsequence c text rest); [exact A|].
      apply IH.
    + cbn [take]. constructor.
Qed.

End SubsequenceFacts.

Section FuzzyProperties.
Import JsString BooksPage FuzzySpec SubsequenceSpec PageText.

(** X23.  A query whose code units all occur in the text in their
    order, whatever the case, is found (both strings not empty): typing
    some letters of a title in order finds the title. *)
Theorem fuzzySearch_finds_subsequence (query text : string) :
  query <> EmptyString -> text <> EmptyString ->
  Subsequence (toLowerCase query) (toLowerCase text) ->
  fuzzySearch query text = true.
Proof.
  intros Hq Ht Hs. rewrite (fuzzySearch_unfold query text Hq Ht).
  destruct (includes (toLowerCase text) (toLowerCase query)); [reflexivity|].
  destruct (scan_from_start (toLowerCase query) (toLowerCase text)) as [_ M].
  rewrite M, (hits_of_subsequence _ _ Hs).
  unfold ratio_ok. apply Nat.leb_le. lia.
Qed.

Lemma fuzzySearch_finds_subsequence_witness :
  fuzzySearch "HP Stone" "Harry Potter and the Philosopher's Stone" = true.
Proof.
  apply fuzzySearch_finds_subsequence; try discriminate.
  vm_compute.
  repeat first [apply sub_take | apply sub_empty | apply sub_skip].
Defined.

(** X24.  What a match means: when [fuzzySearch] answers true, the
    text contains the query, whatever the case, or a beginning of the
    lower-cased query that is at least seven tenths of it occurs in the
    lower-cased text in order. *)
Theorem fuzzySearch_match_means (query text : string) :
  fuzzySearch query text = true ->
  contains_ignoring_case query text
  \/ exists n,
       7 * String.length (toLowerCase query) <= 10 * n
       /\ n <= String.length (toLowerCase query)
       /\ Subsequence (take n (toLowerCase query)) (toLowerCase text).
Proof.
  intros H.
  destruct (String.eqb_spec query "") as [->|Hq]; [discriminate H|].
  destruct (String.eqb_spec text "") as [->|Ht];
    [now destruct query|].
  rewrite (fuzzySearch_unfold query text Hq Ht) in H.
  destruct (includes (toLowerCase text) (toLowerCase query)) eqn:I.
  - left. now apply includes_substring.
  - right.
    destruct (scan_from_start (toLowerCase query) (toLowerCase text)) as [_ M].
    rewrite M in H. unfold ratio_ok in H. apply Nat.leb_le in H.
    exists (hits (toLowerCase query) (toLowerCase text)).
    split; [exact H|]. split; [|apply hits_subsequence].
    assert (Hb : forall q t, hits q t <= String.length q).
    { induction q as [|c q IH]; intros t; cbn [hits String.length]; [lia|].
      destruct (advance_to c t); [specialize (IH s); lia | lia]. }
    apply Hb.
Qed.

Lemma fuzzySearch_match_means_witness :
  contains_ignoring_case "potr" "Harry Potter"
  \/ exists n,
       7 * String.length (toLowerCase "potr") <= 10 * n
       /\ n <= String.length (toLowerCase "potr")
       /\ Subsequence (take n (toLowerCase "potr")) (toLowerCase "Harry Potter").
Proof.
  apply (fuzzySearch_match_means "potr" "Harry Potter").
  vm_compute. reflexivity.
Defined.

End FuzzyProperties.

(* ================================================================== *)
(** * [filterBooks]: no acceptable title is lost *)
(* ================================================================== *)

Section IngestCoverage.
Import JsString Catalogue BooksPage IngestSpec.

Lemma dedupe_covers (books : list Book) :
  forall seen b,
    In b books ->
    ~ In (normalizedTitle b) seen ->
    isExcludedTitle (normalizedTitle b) = false ->
    exists r, In r (dedupe seen books)
              /\ normalizedTitle r = normalizedTitle b.
Proof.
  induction books as [|x rest IH]; intros seen b Hin Hseen Hx; [contradiction|].
  cbn [dedupe]. fold (normalizedTitle x).
  destruct (seen_has seen (normalizedTitle x)) eqn:S1.
  - apply seen_has_true in S1.
    destruct Hin as [-> | Hin]; [contradiction|]. now apply IH.
  - destruct (String.eqb_spec (normalizedTitle x) (normalizedTitle b)) as [E|N].
    + rewrite E, Hx. exists x. split; [now left | exact E].
    + assert (Hb : In b rest).
      { destruct Hin as [-> | Hin]; [congruence | exact Hin]. }
      assert (Hs : ~ In (normalizedTitle b) (normalizedTitle x :: seen)).
      { intros [E | Hs]; [congruence | contradiction]. }
      destruct (IH _ b Hb Hs Hx) as (r & Hr & Er).
      exists r. split; [|exact Er].
      destruct (isExcludedTitle (normalizedTitle x)); [exact Hr | now right].
Qed.

Lemma dedupe_length (books : list Book) :
  forall seen, List.length (dedupe seen books) <= List.length books.
Proof.
  induction books as [|x l IH]; intros seen; cbn [dedupe List.length]; [lia|].
  pose proof (IH seen).
  pose proof (IH (normalizeTitle (titleText x) :: seen)).
  destruct (seen_has seen _); [lia|].
  destruct (isExcludedTitle _); cbn [List.length]; lia.
Qed.

(** X25.  The ingest step loses no acceptable title: for every book of
    the raw list that has a title and a year and whose normalized title
    is not excluded, the output has a book of the same normalized
    title; every book of the output is a book of the raw list; and
    the output is not longer than the raw list. *)
Theorem filterBooks_keeps_every_title
    (localeCompare : string -> string -> Z) (books : list Book) (b : Book) :
  In b books ->
  has_title_and_year b = true ->
  isExcludedTitle (normalizedTitle b) = false ->
  (exists r, In r (filterBooks localeCompare books)
             /\ normalizedTitle r = normalizedTitle b)
  /\ (forall r, In r (filterBooks localeCompare books) -> In r books)
  /\ List.length (filterBooks localeCompare books) <= List.length books.
Proof.
  intros Hin Hv Hx. split; [|split].
  - destruct (dedupe_covers (filter has_title_and_year books) [] b)
      as (r & Hr & Er); auto.
    + apply filter_In. auto.
    + exists r. split; [|exact Er].
      apply (Permutation_in _ (Permutation_sym (filterBooks_perm _ books))).
      exact Hr.
  - intros r Hr. now apply filterBooks_In in Hr.
  - rewrite (Permutation_length (filterBooks_perm localeCompare books)).
    pose proof (dedupe_length (filter has_title_and_year books) []).
    pose proof (filter_length_le has_title_and_year books). lia.
Qed.

Lemma filterBooks_keeps_every_title_witness :
  exists r,
    In r (filterBooks codeUnitCompare sampleBooks)
    /\ normalizedTitle r = "casual vacancy".
Proof.
  apply (proj1 (filterBooks_keeps_every_title codeUnitCompare sampleBooks
                  (mkBook (Some " casual vacancy ") (Some 2012%Z) None None None)
                  ltac:(vm_compute; tauto) eq_refl eq_refl)).
Defined.

End IngestCoverage.

(* ================================================================== *)
(** * The language facet of [populateLanguageFilter] *)
(* ================================================================== *)

Module LanguageFacet.
Import JsString Catalogue BooksPage PageFilters IngestSpec.

(** The inner [forEach]: the codes of one book, trimmed. *)
Definition addLanguages (languages : list string) (codes : list string)
  : list string :=
  fold_left
    (fun acc lang =>
       if negb (String.eqb lang "") && negb (String.eqb (trim lang) "")
       then set_add String.eqb (trim lang) acc else acc)
    codes languages.

(** The set [languages]. *)
Definition collectLanguages (allBooks : list Listing) : list string :=
  fold_left
    (fun acc b =>
       match book_language b with
       | Some codes => addLanguages acc codes
       | None => acc
       end)
    allBooks [].

(** [Array.from(languages).sort()]: the order of the code units. *)
Definition languageOptions (allBooks : list Listing) : list string :=
  array_sort codeUnitCompare (collectLanguages allBooks).

End LanguageFacet.

Section LanguageFacetFacts.
Import JsString Catalogue BooksPage PageFilters IngestSpec LanguageFacet.

Lemma addLanguages_spec (codes : list string) :
  forall languages,
    (NoDup languages -> NoDup (addLanguages languages codes))
    /\ forall code,
         In code (addLanguages languages codes)
         <-> In code languages
             \/ exists lang, In lang codes /\ lang <> EmptyString
                             /\ trim lang <> EmptyString /\ trim lang = code.
Proof.
  unfold addLanguages.
  induction codes as [|lang rest IH]; intros languages; cbn [fold_left].
  - split; [auto|]. intros code. split; [auto|].
    intros [H | (l & [] & _)]. exact H.
  - match goal with
    | |- context [fold_left _ rest ?a] => destruct (IH a) as [N I]
    end.
    split.
    + intros H. apply N.
      destruct (negb (String.eqb lang "") && negb (String.eqb (trim lang) ""));
        [|exact H].
      now apply (set_add_NoDup String.eqb String.eqb_eq).
    + intros code. rewrite I. clear N I.
      destruct (String.eqb_spec lang "") as [E1|E1]; cbn [negb andb].
      * split; intros [H | (l & Hl & H1 & H2 & H3)]; auto.
        -- right. exists l. auto with datatypes.
        -- destruct Hl as [<- | Hl]; [contradiction|].
           right. exists l. auto.
      * destruct (String.eqb_spec (trim lang) "") as [E2|E2]; cbn [negb].
        -- split; intros [H | (l & Hl & H1 & H2 & H3)]; auto.
           ++ right. exists l. auto with datatypes.
           ++ destruct Hl as [<- | Hl]; [contradiction|].
              right. exists l. auto.
        -- rewrite (set_add_In String.eqb String.eqb_eq). split.
           ++ intros [[H | ->] | (l & Hl & H1 & H2 & H3)]; auto.
              ** right. exists lang. auto with datatypes.
              ** right. exists l. auto with datatypes.
           ++ intros [H | (l & [<- | Hl] & H1 & H2 & H3)]; auto.
              right. exists l. auto.
Qed.

Lemma collectLanguages_spec (allBooks : list Listing) :
  forall acc,
    let languages :=
      fold_left
        (fun acc b =>
           match book_language b with
           | Some codes => addLanguages acc codes
           | None => acc
           end) allBooks acc in
    (NoDup acc -> NoDup languages)
    /\ forall code,
         In code languages
         <-> In code acc
             \/ exists b codes lang,
                  In b allBooks /\ book_language b = Some codes
                  /\ In lang codes /\ lang <> EmptyString
                  /\ trim lang <> EmptyString /\ trim lang = code.
Proof.
  induction allBooks as [|b rest IH]; intros acc; cbn zeta; cbn [fold_left].
  - split; [auto|]. intros code. split; [auto|].
    intros [H | (b & ? & ? & [] & _)]. exact H.
  - match goal with
    | |- context [fold_left _ rest ?a] => destruct (IH a) as [N I]
    end.
    cbn zeta in N, I. split.
    + intros H. apply N. destruct (book_language b); [|exact H].
      now apply addLanguages_spec.
    + intros code. rewrite I. clear N I.
      destruct (book_language b) as [codes|] eqn:Lb.
      * rewrite (proj2 (addLanguages_spec codes acc)). split.
        -- intros [[H | (l & Hl & Hr)] | (b' & cs & l & Hb & Hcs & Hr)]; auto.
           ++ right. exists b, codes, l. auto with datatypes.
           ++ right. exists b', cs, l. auto with datatypes.
        -- intros [H | (b' & cs & l & [<- | Hb] & Hcs & Hr)]; auto.
           ++ left. right. exists l. replace codes with cs by congruence.
              exact Hr.
           ++ right. exists b', cs, l. auto.
      * split.
        -- intros [H | (b' & cs & l & Hb & Hcs & Hr)]; auto.
           right. exists b', cs, l. auto with datatypes.
        -- intros [H | (b' & cs & l & [<- | Hb] & Hcs & Hr)]; auto.
           ++ congruence.
           ++ right. exists b', cs, l. auto.
Qed.

End LanguageFacetFacts.

Section LanguageFacetProperties.
Import JsString Catalogue BooksPage PageFilters IngestSpec LanguageFacet.

(** The language codes of the catalogue carry no white space around
    them. *)
Definition codes_trimmed (allBooks : list Listing) : Prop :=
  forall b codes lang,
    In b allBooks -> book_language b = Some codes -> In lang codes ->
    trim lang = lang.

(** X26.  The language dropdown: its options are in the order of the
    code units, strictly, so that no code is offered twice; and for a
    catalogue whose codes carry no white space around them (the
    dropdown trims the code, the criterion compares it as it is), a
    code is offered exactly when it is not empty and some book has it,
    and choosing an offered code never gives an empty result. *)
Theorem language_facet_agrees (allBooks : list Listing) (code : string) :
  Sorted (fun a b => String.compare a b = Lt) (languageOptions allBooks)
  /\ (codes_trimmed allBooks ->
      (In code (languageOptions allBooks)
       <-> code <> EmptyString
           /\ exists b, In b allBooks /\ languageMatches code b = true)
      /\ (In code (languageOptions allBooks) ->
          exists b, In b (applyFilters (mkFilters "" code "" "") allBooks))).
Proof.
  destruct (collectLanguages_spec allBooks []) as [Nd In_]. cbn zeta in Nd, In_.
  fold (collectLanguages allBooks) in Nd, In_.
  specialize (Nd (NoDup_nil _)).
  assert (Perm : Permutation (languageOptions allBooks) (collectLanguages allBooks))
    by apply array_sort_perm.
  split.
  - assert (Nd' : NoDup (languageOptions allBooks))
      by exact (Permutation_NoDup (Permutation_sym Perm) Nd).
    pose proof (array_sort_sorted codeUnitCompare codeUnitCompare_total
                  (collectLanguages allBooks)) as Hs.
    cbv beta zeta in Hs. fold (languageOptions allBooks) in Hs.
    clear Perm In_ Nd.
    induction Hs as [|x r Hr IH Hh]; [constructor|].
    inversion Nd' as [|? ? Hx Hr']; subst.
    constructor; [now apply IH|].
    destruct Hh as [|y r' Hxy]; constructor.
    unfold codeUnitCompare in Hxy.
    destruct (String.compare x y) eqn:C; [|reflexivity | lia].
    apply String.compare_eq_iff in C. subst y.
    exfalso. apply Hx. now left.
  - intros Htrim.
    assert (Hiff : In code (languageOptions allBooks)
                   <-> code <> EmptyString
                       /\ exists b, In b allBooks
                                    /\ languageMatches code b = true).
    { split.
      - intros H. apply (Permutation_in _ Perm) in H.
        apply In_ in H as [[] | (b & codes & lang & Hb & Hc & Hl & H1 & H2 & H3)].
        rewrite (Htrim b codes lang Hb Hc Hl) in H3. subst lang.
        split; [exact H1|]. exists b. split; [exact Hb|].
        unfold languageMatches, array_includes. rewrite Hc.
        apply existsb_exists. exists code. split; [exact Hl|].
        apply String.eqb_refl.
      - intros (Hne & b & Hb & Hm).
        apply (Permutation_in _ (Permutation_sym Perm)). apply In_. right.
        unfold languageMatches, array_includes in Hm.
        destruct (book_language b) as [codes|] eqn:Hc; [|discriminate].
        apply existsb_exists in Hm as (lang & Hl & E).
        apply String.eqb_eq in E. subst lang.
        exists b, codes, code.
        rewrite (Htrim b codes code Hb Hc Hl). auto 10. }
    split; [exact Hiff|].
    intros H. apply Hiff in H as (Hne & b & Hb & Hm).
    exists b. rewrite applyFilters_keeps. apply filter_In.
    split; [exact Hb|]. unfold keeps. cbn [search language year genre].
    cbn [trim trimStart trimEnd String.eqb orb andb]. rewrite Hm.
    now rewrite orb_true_r.
Qed.

Lemma language_facet_agrees_witness :
  languageOptions sampleListings = ["eng"; "fre"]
  /\ exists b, In b (applyFilters (mkFilters "" "fre" "" "") sampleListings).
Proof.
  split; [vm_compute; reflexivity|].
  apply (proj2 (language_facet_agrees sampleListings "fre")).
  - intros b codes lang Hb Hc Hl. vm_compute in Hb.
    destruct Hb as [<- | [<- | [<- | []]]]; try discriminate Hc;
      injection Hc as <-; cbn [In] in Hl;
      repeat (destruct Hl as [<- | Hl]; [reflexivity|]); contradiction.
  - vm_compute. right. left. reflexivity.
Defined.

End LanguageFacetProperties.
